(** * Technical-indicator and signal-detection engine of the dashboard

    A shallow embedding of the indicator code of [Dashboard_Functions.py]
    and [app.py] ([get_MACD], [calculate_macd], [get_RSI], [calculate_rsi],
    [get_trading_strategy], [get_closed_dates], [load_data]) together with
    the slice of pandas / numpy it calls.

    Modelling conventions.
    - A float64 is an extended rational: a finite value carries an exact
      [Qc]; the two infinities and NaN are separate constructors.  Rounding
      and signed zeros are not modelled, so every statement below is about
      the code run in exact arithmetic.
    - A DataFrame is its ['Ticker'] and ['Date'] columns together with a
      finite map from column names to float columns; the index is the
      default positional one.  A missing column is a [KeyError], a position
      out of range an [IndexError], as in pandas.
    - A Timestamp is a day number (days since 1970-01-01): the data has one
      row per calendar day and no time of day. *)

From Stdlib Require Import QArith Qcanon.
From stdpp Require Import base numbers list strings gmap sorting.

Local Open Scope Qc_scope.

(* Rational arithmetic stays folded under [simpl]. *)
Arguments Qcplus : simpl never.
Arguments Qcmult : simpl never.
Arguments Qcminus : simpl never.
Arguments Qcdiv : simpl never.
Arguments Qcopp : simpl never.
Arguments Qcinv : simpl never.
Arguments Q2Qc : simpl never.
Arguments Qc_of_Z : simpl never.

(** ** Exceptions *)

Inductive exn :=
  | KeyError (k : string)
  | IndexError
  | ValueError.

Inductive result (A : Type) :=
  | Ok (a : A)
  | Raise (e : exn).
Arguments Ok {A} a.
Arguments Raise {A} e.

#[global] Instance result_ret : MRet result := λ A a, Ok a.
#[global] Instance result_bind : MBind result := λ A B f m,
  match m with
  | Ok a => f a
  | Raise e => Raise e
  end.

(** ** float64 in exact arithmetic *)

Inductive float :=
  | Fin (q : Qc)
  | PInf
  | NInf
  | NaN.

#[global] Instance float_eq_dec : EqDecision float.
Proof. solve_decision. Defined.

Definition Qc_ltb (x y : Qc) : bool := bool_decide (x < y).
Definition Qc_eqb (x y : Qc) : bool := bool_decide (x = y).

(** [x == x] is how the pandas kernels test for an observation. *)
Definition is_obs (x : float) : bool :=
  match x with NaN => false | _ => true end.

Definition fopp (x : float) : float :=
  match x with
  | Fin q => Fin (- q)
  | PInf => NInf
  | NInf => PInf
  | NaN => NaN
  end.

Definition fadd (x y : float) : float :=
  match x, y with
  | NaN, _ | _, NaN => NaN
  | Fin a, Fin b => Fin (a + b)
  | PInf, NInf | NInf, PInf => NaN
  | PInf, _ | _, PInf => PInf
  | NInf, _ | _, NInf => NInf
  end.

Definition fsub (x y : float) : float := fadd x (fopp y).

(** Sign of an infinite product or quotient: [pos] tells whether the two
    operands have the same sign. *)
Definition inf_of_sign (pos : bool) : float := if pos then PInf else NInf.

Definition fmul (x y : float) : float :=
  match x, y with
  | NaN, _ | _, NaN => NaN
  | Fin a, Fin b => Fin (a * b)
  | Fin a, PInf | PInf, Fin a =>
      if Qc_eqb a 0 then NaN else inf_of_sign (Qc_ltb 0 a)
  | Fin a, NInf | NInf, Fin a =>
      if Qc_eqb a 0 then NaN else inf_of_sign (Qc_ltb a 0)
  | PInf, PInf | NInf, NInf => PInf
  | PInf, NInf | NInf, PInf => NInf
  end.

Definition fdiv (x y : float) : float :=
  match x, y with
  | NaN, _ | _, NaN => NaN
  | Fin a, Fin b =>
      if Qc_eqb b 0 then
        if Qc_eqb a 0 then NaN else inf_of_sign (Qc_ltb 0 a)
      else Fin (a / b)
  | Fin _, (PInf | NInf) => Fin 0
  | (PInf | NInf), (PInf | NInf) => NaN
  | PInf, Fin b => inf_of_sign (negb (Qc_ltb b 0))
  | NInf, Fin b => inf_of_sign (Qc_ltb b 0)
  end.

(** Comparisons: any comparison with NaN is [False]. *)
Definition flt (x y : float) : bool :=
  match x, y with
  | NaN, _ | _, NaN => false
  | Fin a, Fin b => Qc_ltb a b
  | NInf, (Fin _ | PInf) => true
  | Fin _, PInf => true
  | _, _ => false
  end.

Definition fgt (x y : float) : bool := flt y x.

Definition fneq (x y : float) : bool :=
  match x, y with
  | NaN, _ | _, NaN => true
  | _, _ => negb (bool_decide (x = y))
  end.

Definition Qc_of_nat (n : nat) : Qc := Qc_of_Z (Z.of_nat n).
Arguments Qc_of_nat : simpl never.

(** ** DataFrame *)

Definition Timestamp := Z.

Record DataFrame := mkDF {
  Ticker : list string;
  Date : list Timestamp;
  cols : gmap string (list float)
}.

(** [len(df)] *)
Definition len (df : DataFrame) : nat := length (Date df).

(** [df[k]] *)
Definition getitem (df : DataFrame) (k : string) : result (list float) :=
  match cols df !! k with
  | Some c => Ok c
  | None => Raise (KeyError k)
  end.

(** [s.iloc[i]] for [i >= 0] *)
Definition iloc {A} (s : list A) (i : nat) : result A :=
  match s !! i with
  | Some x => Ok x
  | None => Raise IndexError
  end.

(** [s.iloc[-1]] *)
Definition iloc_last {A} (s : list A) : result A :=
  match last s with
  | Some x => Ok x
  | None => Raise IndexError
  end.

(** [df[k] = s] for a Series [s] carrying the frame's own index. *)
Definition setitem (df : DataFrame) (k : string) (s : list float) : DataFrame :=
  mkDF (Ticker df) (Date df) (<[k := s]> (cols df)).

(** [df[k] = l] for a plain Python list: pandas checks the length. *)
Definition setitem_list (df : DataFrame) (k : string) (l : list float)
  : result DataFrame :=
  if decide (length l = len df) then Ok (setitem df k l) else Raise ValueError.

(** Every column has one cell per row. *)
Definition wf (df : DataFrame) : Prop :=
  length (Ticker df) = len df ∧
  ∀ k c, cols df !! k = Some c → length c = len df.

(** [for i in idx: st = body(i, st)] with exceptions. *)
Fixpoint for_each {S} (body : nat → S → result S) (idx : list nat) (st : S)
  : result S :=
  match idx with
  | [] => Ok st
  | i :: idx' => st' ← body i st; for_each body idx' st'
  end.

(** ** The pandas and numpy kernels the indicators call *)

(** [get_center_of_mass] for a [span] argument, and the smoothing factor the
    ewm kernel derives from the centre of mass. *)
Definition com_of_span (span : Qc) : Qc := (span - 1) / 2.
Definition alpha_of_com (com : Qc) : Qc := 1 / (1 + com).
Arguments com_of_span : simpl never.
Arguments alpha_of_com : simpl never.

Record ewm_acc := mkAcc {
  weighted : float;
  old_wt : Qc;
  nobs : nat
}.

(** One turn of the loop of the ewm kernel ([ignore_na=False],
    [normalize=True]): the running average [weighted], the weight [old_wt]
    of what has been seen, and the number of observations. *)
Definition ewm_step (com : Qc) (adjust : bool) (st : ewm_acc) (cur : float)
  : ewm_acc :=
  let alpha := alpha_of_com com in
  let old_wt_factor := 1 - alpha in
  let new_wt := if adjust then 1 else alpha in
  let nobs' := (if is_obs cur then S (nobs st) else nobs st) in
  if is_obs (weighted st) then
    let old_wt1 := old_wt st * old_wt_factor in
    if is_obs cur then
      let w :=
        if fneq (weighted st) cur then
          fdiv (fadd (fmul (Fin old_wt1) (weighted st)) (fmul (Fin new_wt) cur))
               (Fin (old_wt1 + new_wt))
        else weighted st in
      mkAcc w (if adjust then old_wt1 + new_wt else 1) nobs'
    else mkAcc (weighted st) old_wt1 nobs'
  else if is_obs cur then mkAcc cur (old_wt st) nobs'
  else mkAcc (weighted st) (old_wt st) nobs'.

Definition ewm_out (minp : nat) (st : ewm_acc) : float :=
  if decide (minp ≤ nobs st)%nat then weighted st else NaN.

Fixpoint ewm_loop (com : Qc) (adjust : bool) (minp : nat) (st : ewm_acc)
    (vals : list float) : list float :=
  match vals with
  | [] => []
  | cur :: vals' =>
      let st' := ewm_step com adjust st cur in
      ewm_out minp st' :: ewm_loop com adjust minp st' vals'
  end.

(** [s.ewm(com=com, adjust=adjust, min_periods=min_periods).mean()] *)
Definition ewm_mean (com : Qc) (adjust : bool) (min_periods : nat)
    (vals : list float) : list float :=
  let minp := Nat.max min_periods 1 in
  match vals with
  | [] => []
  | v0 :: vals' =>
      let st := mkAcc v0 1 (if is_obs v0 then 1 else 0)%nat in
      ewm_out minp st :: ewm_loop com adjust minp st vals'
  end.

(** The sliding-window mean kernel: a running count and sum, an entry
    leaving the window is subtracted before the entering one is added.  The
    kernel's compensated summation and sign clamps only undo round-off and
    are left out. *)
Record roll_acc := mkRoll {
  r_nobs : nat;
  r_sum : float
}.

Definition add_mean (st : roll_acc) (v : float) : roll_acc :=
  if is_obs v then mkRoll (S (r_nobs st)) (fadd (r_sum st) v) else st.

Definition remove_mean (st : roll_acc) (v : float) : roll_acc :=
  if is_obs v then mkRoll (pred (r_nobs st)) (fsub (r_sum st) v) else st.

Definition calc_mean (minp : nat) (st : roll_acc) : float :=
  if decide (minp ≤ r_nobs st ∧ 0 < r_nobs st)%nat
  then fdiv (r_sum st) (Fin (Qc_of_nat (r_nobs st)))
  else NaN.

Fixpoint roll_loop (window minp : nat) (vals : list float) (idx : list nat)
    (st : roll_acc) : list float :=
  match idx with
  | [] => []
  | i :: idx' =>
      let st1 :=
        if decide (window ≤ i)%nat then
          match vals !! (i - window)%nat with
          | Some v => remove_mean st v
          | None => st
          end
        else st in
      let st2 :=
        match vals !! i with
        | Some v => add_mean st1 v
        | None => st1
        end in
      calc_mean minp st2 :: roll_loop window minp vals idx' st2
  end.

(** [s.rolling(window=window).mean()]; [min_periods] defaults to the window. *)
Definition rolling_mean (window : nat) (vals : list float) : list float :=
  roll_loop window window vals (seq 0 (length vals)) (mkRoll 0 (Fin 0)).

(** [s.diff(1)] *)
Definition diff (s : list float) : list float :=
  match s with
  | [] => []
  | _ :: s' => NaN :: zip_with fsub s' s
  end.

(** [np.where(cond, x, y)] and [x.where(cond, y)] with a scalar [y]. *)
Definition np_where (cond : list bool) (x : list float) (y : float)
  : list float :=
  zip_with (λ (c : bool) v, if c then v else y) cond x.

(** Element-wise arithmetic of two aligned Series, and with a scalar on the
    left. *)
Definition series_sub (a b : list float) : list float := zip_with fsub a b.
Definition series_div (a b : list float) : list float := zip_with fdiv a b.
Definition series_neg (a : list float) : list float := fopp <$> a.
Definition scalar_add (k : Qc) (a : list float) : list float := fadd (Fin k) <$> a.
Definition scalar_sub (k : Qc) (a : list float) : list float := fsub (Fin k) <$> a.
Definition scalar_div (k : Qc) (a : list float) : list float := fdiv (Fin k) <$> a.
Definition series_gt0 (a : list float) : list bool := (λ v, fgt v (Fin 0)) <$> a.
Definition series_lt0 (a : list float) : list bool := (λ v, flt v (Fin 0)) <$> a.

(** *** Calendar dates *)

(** Day number to (year, month, day) in the proleptic Gregorian calendar. *)
Definition civil_from_days (z : Z) : Z * Z * Z :=
  let z := (z + 719468)%Z in
  let era := (z / 146097)%Z in
  let doe := (z - era * 146097)%Z in
  let yoe := ((doe - doe / 1460 + doe / 36524 - doe / 146096) / 365)%Z in
  let y := (yoe + era * 400)%Z in
  let doy := (doe - (365 * yoe + yoe / 4 - yoe / 100))%Z in
  let mp := ((5 * doy + 2) / 153)%Z in
  let d := (doy - (153 * mp + 2) / 5 + 1)%Z in
  let m := (if mp <? 10 then mp + 3 else mp - 9)%Z in
  ((if m <=? 2 then y + 1 else y)%Z, m, d).

Definition digit (n : Z) : Ascii.ascii := Ascii.ascii_of_nat (48 + Z.to_nat n).

Definition pad2 (n : Z) : string :=
  String (digit (n / 10)) (String (digit (n mod 10)) EmptyString).

Definition pad4 (n : Z) : string :=
  String (digit (n / 1000)) (String (digit (n / 100 mod 10))
    (String (digit (n / 10 mod 10)) (String (digit (n mod 10)) EmptyString))).

(** [day.strftime('%Y-%m-%d')] *)
Definition strftime (t : Timestamp) : string :=
  let '(y, m, d) := civil_from_days t in
  (pad4 y +:+ "-" +:+ pad2 m +:+ "-" +:+ pad2 d)%string.

(** The days a pandas Timestamp can hold: 1677-09-22 to 2262-04-11. *)
Definition Timestamp_min : Z := (-106751)%Z.
Definition Timestamp_max : Z := 106751%Z.
Definition in_Timestamp_range (t : Timestamp) : Prop :=
  (Timestamp_min ≤ t ≤ Timestamp_max)%Z.

(** Reading a ['%Y-%m-%d'] string back: the inverse used to show that
    distinct days print differently. *)
Definition days_from_civil (y m d : Z) : Z :=
  let y := (if m <=? 2 then y - 1 else y)%Z in
  let era := (y / 400)%Z in
  let yoe := (y - era * 400)%Z in
  let doy := ((153 * (if 2 <? m then m - 3 else m + 9) + 2) / 5 + d - 1)%Z in
  let doe := (yoe * 365 + yoe / 4 - yoe / 100 + doy)%Z in
  (era * 146097 + doe - 719468)%Z.

Definition undigit (c : Ascii.ascii) : Z := (Z.of_nat (Ascii.nat_of_ascii c) - 48)%Z.

Definition strptime (s : string) : option Timestamp :=
  match s with
  | String y1 (String y2 (String y3 (String y4 (String _
      (String m1 (String m2 (String _
        (String d1 (String d2 EmptyString))))))))) =>
      let y := (undigit y1 * 1000 + undigit y2 * 100 + undigit y3 * 10
                + undigit y4)%Z in
      Some (days_from_civil y (undigit m1 * 10 + undigit m2)
              (undigit d1 * 10 + undigit d2))
  | _ => None
  end.

(** [pd.date_range(start=s, end=e)], one entry per day. *)
Definition date_range (s e : Timestamp) : list Timestamp :=
  seqZ s (e - s + 1).

(** *** Sorting rows *)

Definition key_le (a b : string * Timestamp) : bool :=
  match String.compare a.1 b.1 with
  | Lt => true
  | Eq => (a.2 <=? b.2)%Z
  | Gt => false
  end.

Fixpoint insert_key (x : (string * Timestamp) * nat)
    (l : list ((string * Timestamp) * nat)) : list ((string * Timestamp) * nat) :=
  match l with
  | [] => [x]
  | y :: l' => if key_le x.1 y.1 then x :: l else y :: insert_key x l'
  end.

(** Stable argsort: the row positions in ascending key order, rows with
    equal keys in their original order. *)
Definition argsort (keys : list (string * Timestamp)) : list nat :=
  snd <$> foldr insert_key [] (zip keys (seq 0 (length keys))).

Definition take_col {A} (perm : list nat) (c : list A) : list A :=
  omap (λ i, c !! i) perm.

Definition take_rows (perm : list nat) (df : DataFrame) : DataFrame :=
  mkDF (take_col perm (Ticker df)) (take_col perm (Date df))
       (take_col perm <$> cols df).

(** [df.sort_values(by=["Ticker", "Date"])] *)
Definition sort_values_Ticker_Date (df : DataFrame) : DataFrame :=
  take_rows (argsort (zip (Ticker df) (Date df))) df.

(** ** Dashboard_Functions.py *)

Module Dashboard_Functions.

(** [load_data] after [pd.read_csv] has parsed the file: the ['Date'] column
    is converted and the frame returned as it was read. *)
Definition load_data (csv : DataFrame) : result DataFrame :=
  mret (mkDF (Ticker csv) (Date csv) (cols csv)).

Definition get_closed_dates (df : DataFrame) : result (list string) :=
  start ← iloc (Date df) 0;
  end_ ← iloc_last (Date df);
  let timeline := date_range start end_ in
  let df_dates := strftime <$> Date df in
  mret (filter (λ day, day ∉ df_dates) (strftime <$> timeline)).

Definition get_MACD (df : DataFrame) (column : string) : result DataFrame :=
  c ← getitem df column;
  let df := setitem df "EMA-12" (ewm_mean (com_of_span (Qc_of_nat 12)) false 0 c) in
  c ← getitem df column;
  let df := setitem df "EMA-26" (ewm_mean (com_of_span (Qc_of_nat 26)) false 0 c) in
  e12 ← getitem df "EMA-12";
  e26 ← getitem df "EMA-26";
  let df := setitem df "MACD" (series_sub e12 e26) in
  m ← getitem df "MACD";
  let df := setitem df "Signal" (ewm_mean (com_of_span (Qc_of_nat 9)) false 0 m) in
  m ← getitem df "MACD";
  s ← getitem df "Signal";
  let df := setitem df "Histogram" (series_sub m s) in
  mret df.

Definition get_RSI (df : DataFrame) (column : string) (time_window : nat)
  : result DataFrame :=
  c ← getitem df column;
  let diff := diff c in
  let up_chg := np_where (series_gt0 diff) diff (Fin 0) in
  let down_chg := np_where (series_lt0 diff) (series_neg diff) (Fin 0) in
  let up_chg_avg :=
    ewm_mean (Qc_of_nat time_window - 1) true time_window up_chg in
  let down_chg_avg :=
    ewm_mean (Qc_of_nat time_window - 1) true time_window down_chg in
  let RS := series_div up_chg_avg down_chg_avg in
  mret (setitem df "RSI" (scalar_sub (Qc_of_nat 100) (scalar_div (Qc_of_nat 100) (scalar_add 1 RS)))).

Definition strategy_body (df : DataFrame) (column : string) (i : nat)
    (st : list float * list float * bool)
  : result (list float * list float * bool) :=
  let '(buy_list, sell_list, flag) := st in
  macd ← getitem df "MACD"; m ← iloc macd i;
  signal ← getitem df "Signal"; s ← iloc signal i;
  if fgt m s && negb flag then
    c ← getitem df column; p ← iloc c i;
    mret (buy_list ++ [p], sell_list ++ [NaN], true)
  else
    macd ← getitem df "MACD"; m ← iloc macd i;
    signal ← getitem df "Signal"; s ← iloc signal i;
    if flt m s && flag then
      c ← getitem df column; p ← iloc c i;
      mret (buy_list ++ [NaN], sell_list ++ [p], false)
    else
      mret (buy_list ++ [NaN], sell_list ++ [NaN], flag).

Definition get_trading_strategy (df : DataFrame) (column : string)
  : result DataFrame :=
  '(buy_list, sell_list, _) ←
    for_each (strategy_body df column) (seq 0 (len df)) ([], [], false);
  df ← setitem_list df "Buy" buy_list;
  df ← setitem_list df "Sell" sell_list;
  mret df.

(** The processing steps of the main script. *)
Definition process (data : DataFrame) : result DataFrame :=
  data ← get_MACD data "Price Close";
  data ← get_RSI data "Price Close" 14;
  get_trading_strategy data "Price Close".

End Dashboard_Functions.

(** ** app.py *)

Module App.

(** [load_data] after [pd.read_csv] has parsed the file. *)
Definition load_data (csv : DataFrame) : result DataFrame :=
  mret (sort_values_Ticker_Date csv).

Definition calculate_macd (df : DataFrame) : result DataFrame :=
  c ← getitem df "Price Close";
  let short_ema := ewm_mean (com_of_span (Qc_of_nat 12)) false 0 c in
  c ← getitem df "Price Close";
  let long_ema := ewm_mean (com_of_span (Qc_of_nat 26)) false 0 c in
  let df := setitem df "MACD" (series_sub short_ema long_ema) in
  m ← getitem df "MACD";
  let df := setitem df "Signal Line" (ewm_mean (com_of_span (Qc_of_nat 9)) false 0 m) in
  mret df.

Definition calculate_rsi (df : DataFrame) (period : nat) : result DataFrame :=
  c ← getitem df "Price Close";
  let delta := diff c in
  let gain := rolling_mean period (np_where (series_gt0 delta) delta (Fin 0)) in
  let loss :=
    rolling_mean period (series_neg (np_where (series_lt0 delta) delta (Fin 0))) in
  let rs := series_div gain loss in
  mret (setitem df "RSI" (scalar_sub (Qc_of_nat 100) (scalar_div (Qc_of_nat 100) (scalar_add 1 rs)))).

Definition strategy_body (df : DataFrame) (column : string) (i : nat)
    (st : list float * list float * bool)
  : result (list float * list float * bool) :=
  let '(buy_list, sell_list, flag) := st in
  macd ← getitem df "MACD"; m ← iloc macd i;
  signal ← getitem df "Signal"; s ← iloc signal i;
  if fgt m s && negb flag then
    c ← getitem df column; p ← iloc c i;
    mret (buy_list ++ [p], sell_list ++ [NaN], true)
  else
    macd ← getitem df "MACD"; m ← iloc macd i;
    signal ← getitem df "Signal"; s ← iloc signal i;
    if flt m s && flag then
      c ← getitem df column; p ← iloc c i;
      mret (buy_list ++ [NaN], sell_list ++ [p], false)
    else
      mret (buy_list ++ [NaN], sell_list ++ [NaN], flag).

Definition get_trading_strategy (df : DataFrame) (column : string)
  : result DataFrame :=
  '(buy_list, sell_list, _) ←
    for_each (strategy_body df column) (seq 0 (len df)) ([], [], false);
  df ← setitem_list df "Buy" buy_list;
  df ← setitem_list df "Sell" sell_list;
  mret df.

(** "Add technical indicators": the three calls made on [filtered_data] in
    the branch taken when it is not empty. *)
Definition add_technical_indicators (filtered_data : DataFrame)
  : result DataFrame :=
  filtered_data ← calculate_macd filtered_data;
  filtered_data ← calculate_rsi filtered_data 14;
  get_trading_strategy filtered_data "Price Close".

End App.

(** ** The specification's vocabulary *)

(** Smoothing factor of an EMA of span [N]: [α = 2/(N+1)]. *)
Definition alpha_span (N : nat) : Qc := 2 / (Qc_of_nat N + 1).

(** The EMA recurrence, read index by index: [e] has one entry per entry of
    [x], starts at [x[0]], and each later entry is
    [α·x[t] + (1-α)·e[t-1]]. *)
Definition is_ema (α : Qc) (x e : list Qc) : Prop :=
  length e = length x ∧
  e !! 0%nat = x !! 0%nat ∧
  ∀ t xt ep, x !! S t = Some xt → e !! t = Some ep →
    e !! S t = Some (α * xt + (1 - α) * ep).

(** [d[t] = a[t] − b[t]] at every index. *)
Definition is_diff (a b d : list Qc) : Prop :=
  length d = length a ∧
  ∀ t at_ bt, a !! t = Some at_ → b !! t = Some bt → d !! t = Some (at_ - bt).

(** The same recurrence as a fold, for the proofs. *)
Fixpoint ema_from (α prev : Qc) (xs : list Qc) : list Qc :=
  match xs with
  | [] => []
  | x :: xs' => let e := α * x + (1 - α) * prev in e :: ema_from α e xs'
  end.

Definition ema (α : Qc) (xs : list Qc) : list Qc :=
  match xs with
  | [] => []
  | x :: xs' => x :: ema_from α x xs'
  end.

(** The five indicator series of a finite close series, by the recurrence. *)
Definition shortEma_of (close : list Qc) : list Qc := ema (alpha_span 12) close.
Definition longEma_of (close : list Qc) : list Qc := ema (alpha_span 26) close.
Definition macd_of (close : list Qc) : list Qc :=
  zip_with Qcminus (shortEma_of close) (longEma_of close).
Definition signalLine_of (close : list Qc) : list Qc :=
  ema (alpha_span 9) (macd_of close).
Definition histogram_of (close : list Qc) : list Qc :=
  zip_with Qcminus (macd_of close) (signalLine_of close).

(** *** The signal state machine, in the specification's words *)

Inductive kind := Buy | Sell.
Inductive position := Flat | Holding.

#[global] Instance kind_eq_dec : EqDecision kind.
Proof. solve_decision. Defined.

(** One date: [Flat → Holding] on [macd > signalLine], emitting Buy;
    [Holding → Flat] on [macd < signalLine], emitting Sell; otherwise
    (equality, or a comparison with no-value) nothing happens. *)
Definition detector_step (st : position) (macd signalLine : float)
  : position * option kind :=
  match st with
  | Flat => if fgt macd signalLine then (Holding, Some Buy) else (Flat, None)
  | Holding => if flt macd signalLine then (Flat, Some Sell) else (Holding, None)
  end.

(** The single left-to-right pass: what is emitted at each date. *)
Fixpoint detector_run (st : position) (ms : list (float * float))
  : list (option kind) :=
  match ms with
  | [] => []
  | (m, s) :: ms' =>
      let '(st', ev) := detector_step st m s in
      ev :: detector_run st' ms'
  end.

(** The state the machine is in after a pass. *)
Fixpoint detector_final (st : position) (ms : list (float * float)) : position :=
  match ms with
  | [] => st
  | (m, s) :: ms' => detector_final (detector_step st m s).1 ms'
  end.

(** The column holding the prices of the markers of kind [k]: [close[t]]
    where a [k] marker is emitted at [t], NaN elsewhere. *)
Definition marker_column (k : kind) (events : list (option kind))
    (close : list float) : list float :=
  zip_with (λ ev c, if decide (ev = Some k) then c else NaN) events close.

Definition position_of_flag (flag : bool) : position :=
  if flag then Holding else Flat.

Definition flag_of_position (st : position) : bool :=
  match st with Holding => true | Flat => false end.

Record SignalMarker := mkMarker {
  m_date : Timestamp;
  m_price : float;
  m_kind : kind
}.

(** The markers a chart shows for one row: a point per non-NaN cell of the
    Buy and Sell columns. *)
Definition row_markers (d : Timestamp) (b s : float) : list SignalMarker :=
  (if is_obs b then [mkMarker d b Buy] else []) ++
  (if is_obs s then [mkMarker d s Sell] else []).

Fixpoint markers_of (dates : list Timestamp) (buy sell : list float)
  : list SignalMarker :=
  match dates, buy, sell with
  | d :: dates', b :: buy', s :: sell' =>
      row_markers d b s ++ markers_of dates' buy' sell'
  | _, _, _ => []
  end.

(** The marker sequence of a frame that went through the detector. *)
Definition signal_markers (df : DataFrame) : result (list SignalMarker) :=
  buy ← getitem df "Buy";
  sell ← getitem df "Sell";
  mret (markers_of (Date df) buy sell).

Definition other_kind (k : kind) : kind :=
  match k with Buy => Sell | Sell => Buy end.

(** [ks] is [next], then the other kind, then [next] again, and so on. *)
Fixpoint alternates (next : kind) (ks : list kind) : Prop :=
  match ks with
  | [] => True
  | k :: ks' => k = next ∧ alternates (other_kind next) ks'
  end.

(** A strictly increasing series. *)
Fixpoint strictly_increasing (xs : list Qc) : Prop :=
  match xs with
  | x :: (y :: _) as xs' => x < y ∧ strictly_increasing xs'
  | _ => True
  end.


(** A series that never decreases. *)
Fixpoint nondecreasing (xs : list Qc) : Prop :=
  match xs with
  | x :: (y :: _) as xs' => x ≤ y ∧ nondecreasing xs'
  | _ => True
  end.

(** The day-over-day steps of the series never shrink: [x[t] − x[t-1] ≤
    x[t+1] − x[t]], as on a linear ramp. *)
Fixpoint steps_nondecreasing (xs : list Qc) : Prop :=
  match xs with
  | x :: xs' =>
      match xs' with
      | y :: z :: _ => y - x ≤ z - y
      | _ => True
      end ∧ steps_nondecreasing xs'
  | [] => True
  end.

(** The kind of the next marker the machine can emit. *)
Definition next_kind (st : position) : kind :=
  match st with Flat => Buy | Holding => Sell end.

(** Row keys in ascending order, as a relation. *)
Definition key_order (a b : string * Timestamp) : Prop := key_le a b = true.

(** The same order on keys paired with their row position. *)
Definition keyed_order (x y : (string * Timestamp) * nat) : Prop :=
  key_order x.1 y.1.

(** *** Reading a computed frame *)

(** A column of a computed frame. *)
Definition column_of (r : result DataFrame) (k : string) : option (list float) :=
  match r with
  | Ok d => cols d !! k
  | Raise _ => None
  end.

(** The RSI cell of row [t] of a computed frame. *)
Definition RSI_cell (r : result DataFrame) (t : nat) : option float :=
  match r with
  | Ok d => c ← cols d !! "RSI"; c !! t
  | Raise _ => None
  end.

(** The markers the main script of [Dashboard_Functions.py] ends up
    plotting for a frame. *)
Definition process_markers (df : DataFrame) : result (list SignalMarker) :=
  df ← Dashboard_Functions.process df;
  signal_markers df.


(** *** Sample data *)

Definition Qc_of_Zs (zs : list Z) : list Qc := Qc_of_Z <$> zs.

(** A single-instrument frame with one row per consecutive day from
    2024-01-01 and the given closing prices. *)
Definition frame_of_close (close : list Qc) : DataFrame :=
  mkDF (replicate (length close) "NOKIA")
       (seqZ 19723 (Z.of_nat (length close)))
       {[ "Price Close" := Fin <$> close ]}.

(** Three observations: fewer than any look-back of the engine. *)
Definition short_history : list Qc := Qc_of_Zs [10; 11; 12]%Z.


(** Prices that go up by one or two and down by one in turn, sixteen days. *)
Definition zigzag : list Qc :=
  Qc_of_Zs [10; 11; 10; 12; 11; 13; 12; 14; 13; 15; 14; 16; 15; 17; 16; 18]%Z.

(** A hand-made indicator frame: MACD crosses above its signal line at the
    second row and below it at the last; the third row has no signal
    value. *)
Definition crossing_frame : DataFrame :=
  mkDF ["NOKIA"; "NOKIA"; "NOKIA"; "NOKIA"] [19723; 19724; 19725; 19726]%Z
       {[ "MACD" := [Fin 0; Fin 1; Fin 1; Fin (-1)];
          "Signal" := [Fin 0; Fin 0; NaN; Fin 0];
          "Price Close" := Fin <$> Qc_of_Zs [10; 11; 12; 13]%Z ]}.

(** Saturday 6 and Sunday 7 January 2024 as day numbers. *)
Definition day_2024_01_06 : Timestamp := 19728%Z.
Definition day_2024_01_07 : Timestamp := 19729%Z.

(** Thursday 4, Friday 5 and Monday 8 January 2024. *)
Definition week_frame : DataFrame :=
  mkDF ["NOKIA"; "NOKIA"; "NOKIA"] [19726; 19727; 19730]%Z
       {[ "Price Close" := Fin <$> Qc_of_Zs [10; 11; 12]%Z ]}.

(** Three rows of one instrument, out of order and with 2024-01-01 twice. *)
Definition unsorted_frame : DataFrame :=
  mkDF ["NOKIA"; "NOKIA"; "NOKIA"] [19725; 19723; 19723]%Z
       {[ "Price Close" := Fin <$> Qc_of_Zs [3; 1; 2]%Z ]}.

(** MACD crossing its signal line four times, the second crossing at a row
    without a price. *)
Definition hidden_sell_frame : DataFrame :=
  mkDF ["NOKIA"; "NOKIA"; "NOKIA"; "NOKIA"; "NOKIA"]
       [19723; 19724; 19725; 19726; 19727]%Z
       {[ "MACD" := [Fin 0; Fin 1; Fin (-1); Fin 1; Fin (-1)];
          "Signal" := [Fin 0; Fin 0; Fin 0; Fin 0; Fin 0];
          "Price Close" := [Fin (Qc_of_Z 10); Fin (Qc_of_Z 11); NaN;
                            Fin (Qc_of_Z 13); Fin (Qc_of_Z 14)] ]}.

(** Two rows of the same day, as a file with two instruments has them:
    MACD above its signal line at the first and below it at the second. *)
Definition same_day_frame : DataFrame :=
  mkDF ["NOKIA"; "KONE"] [19723; 19723]%Z
       {[ "MACD" := [Fin 1; Fin (-1)];
          "Signal" := [Fin 0; Fin 0];
          "Price Close" := [Fin (Qc_of_Z 10); Fin (Qc_of_Z 20)] ]}.

(** Three days at the same price, and three days of falling prices. *)
Definition flat_history : list Qc := Qc_of_Zs [10; 10; 10]%Z.

(** Three rows, the second without a price. *)
Definition gap_frame : DataFrame :=
  mkDF ["NOKIA"; "NOKIA"; "NOKIA"] [19723; 19724; 19725]%Z
       {[ "Price Close" := [Fin (Qc_of_Z 10); NaN; Fin (Qc_of_Z 12)] ]}.

(** ** Dashboard_App.py *)

Module Dashboard_App.

Definition calculate_macd (df : DataFrame) : result DataFrame :=
  c ← getitem df "Price Close";
  let short_ema := ewm_mean (com_of_span (Qc_of_nat 12)) false 0 c in
  c ← getitem df "Price Close";
  let long_ema := ewm_mean (com_of_span (Qc_of_nat 26)) false 0 c in
  let df := setitem df "MACD" (series_sub short_ema long_ema) in
  m ← getitem df "MACD";
  let df := setitem df "Signal Line" (ewm_mean (com_of_span (Qc_of_nat 9)) false 0 m) in
  mret df.

Definition calculate_rsi (df : DataFrame) (period : nat) : result DataFrame :=
  c ← getitem df "Price Close";
  let delta := diff c in
  let gain := rolling_mean period (np_where (series_gt0 delta) delta (Fin 0)) in
  let loss :=
    rolling_mean period (series_neg (np_where (series_lt0 delta) delta (Fin 0))) in
  let rs := series_div gain loss in
  mret (setitem df "RSI" (scalar_sub (Qc_of_nat 100) (scalar_div (Qc_of_nat 100) (scalar_add 1 rs)))).

(** "Add technical indicators": the two calls made on [filtered_data]. *)
Definition add_technical_indicators (filtered_data : DataFrame)
  : result DataFrame :=
  filtered_data ← calculate_macd filtered_data;
  calculate_rsi filtered_data 14.

End Dashboard_App.

(** ** The script of app.py around the indicator calls *)

(** [df[mask]]: the rows whose mask entry is [True], in their order. *)
Definition boolean_index (mask : list bool) (df : DataFrame) : DataFrame :=
  take_rows (filter (λ i, mask !! i = Some true) (seq 0 (length mask))) df.

Module App_script.

(** [(data["Ticker"] == ticker) & (data["Date"] >= start_date)
     & (data["Date"] <= end_date)] *)
Definition selection (data : DataFrame) (ticker : string)
    (start_date end_date : Timestamp) : list bool :=
  zip_with (λ tk d, bool_decide (tk = ticker) && (start_date <=? d)%Z
                    && (d <=? end_date)%Z)
    (Ticker data) (Date data).

Definition filtered_data (data : DataFrame) (ticker : string)
    (start_date end_date : Timestamp) : DataFrame :=
  boolean_index (selection data ticker start_date end_date) data.

(** The branch on [filtered_data.empty]: [None] stands for the error message
    shown instead of the charts. *)
Definition indicators (data : DataFrame) (ticker : string)
    (start_date end_date : Timestamp) : result (option DataFrame) :=
  let filtered_data := filtered_data data ticker start_date end_date in
  if decide (len filtered_data = 0%nat) then mret None
  else df ← App.add_technical_indicators filtered_data; mret (Some df).

End App_script.

(** The rows of a frame by their (Ticker, Date) keys. *)
Definition keys (df : DataFrame) : list (string * Timestamp) :=
  zip (Ticker df) (Date df).

(** A row the selection of the script keeps: the chosen ticker and a date
    within the two bounds. *)
Definition selected (ticker : string) (start_date end_date : Timestamp)
    (row : string * Timestamp) : Prop :=
  row.1 = ticker ∧ (start_date ≤ row.2 ≤ end_date)%Z.

#[global] Instance selected_dec ticker start_date end_date row :
  Decision (selected ticker start_date end_date row).
Proof. unfold selected. apply _. Defined.

(** ** The circle-packing chart of app.py *)

Module Circle_packing.

(** A row of [df_final]; the sector cell may be missing. *)
Record StockRow := mkStockRow {
  symbol : string;
  sector : option string;
  volume : float;
  PriceChange : float
}.

(** The dictionaries the chart is built from: a stock, a sector with its
    stocks, and the root with its sectors. *)
Record StockNode := mkStockNode {
  node_name : string;
  node_value : float;
  node_PriceChange : float;
  node_volume : float
}.

Record SectorNode := mkSectorNode {
  sector_name : string;
  sector_children : list StockNode
}.

Record RootNode := mkRootNode {
  root_name : string;
  root_children : list SectorNode
}.

(** [s.unique()]: every value once, in the order of first appearance. *)
Fixpoint unique_from (seen l : list string) : list string :=
  match l with
  | [] => []
  | x :: l' =>
      if decide (x ∈ seen) then unique_from seen l'
      else x :: unique_from (x :: seen) l'
  end.

(** [s.dropna().unique().tolist()] *)
Definition dropna_unique (s : list (option string)) : list string :=
  unique_from [] (omap id s).

(** The dictionary appended for one row. *)
Definition stock_node (row : StockRow) : StockNode :=
  mkStockNode (symbol row) (volume row)
    (if is_obs (PriceChange row) then PriceChange row else Fin 0)
    (volume row).

Definition build_hierarchical_data (df_final : list StockRow) : RootNode :=
  let unique_sectors := dropna_unique (sector <$> df_final) in
  mkRootNode "Toàn thị trường"
    ((λ sec,
        let df_ind := filter (λ row, sector row = Some sec) df_final in
        mkSectorNode sec (stock_node <$> df_ind))
       <$> unique_sectors).

(** A row whose sector is one of [secs]. *)
Definition in_sectors (secs : list string) (row : StockRow) : Prop :=
  ∃ sec, sector row = Some sec ∧ sec ∈ secs.

#[global] Instance in_sectors_dec secs row : Decision (in_sectors secs row).
Proof.
  unfold in_sectors. destruct (sector row) as [sec|].
  - destruct (decide (sec ∈ secs)) as [Hin|Hnin].
    + left. by exists sec.
    + right. intros (sec' & Heq & Hin). injection Heq as <-. by apply Hnin.
  - right. intros (sec' & Heq & _). discriminate Heq.
Defined.

End Circle_packing.

(** ** Helpers nested in [main] of app.py *)

Module App_main.

(** Python strings, character by character. *)
Definition str := list Ascii.ascii.

(** [s.replace(old, new)] for a non-empty [old]: the occurrences of [old]
    are found from the left and do not overlap.  [skip] counts the
    characters of a found occurrence that are still to be passed over. *)
Fixpoint replace_skip (old new : str) (skip : nat) (s : str) : str :=
  match s with
  | [] => []
  | c :: s' =>
      match skip with
      | S k => replace_skip old new k s'
      | O =>
          if decide (old `prefix_of` s)
          then new ++ replace_skip old new (length old - 1) s'
          else c :: replace_skip old new 0 s'
      end
  end.

Definition replace (old new s : str) : str := replace_skip old new 0 s.

(** [s.split(sep)] for a non-empty [sep]; [cur] is the part being read. *)
Fixpoint split_skip (sep : str) (skip : nat) (cur : str) (s : str)
  : list str :=
  match s with
  | [] => [cur]
  | c :: s' =>
      match skip with
      | S k => split_skip sep k cur s'
      | O =>
          if decide (sep `prefix_of` s)
          then cur :: split_skip sep (length sep - 1) [] s'
          else split_skip sep 0 (cur ++ [c]) s'
      end
  end.

Definition split (sep s : str) : list str := split_skip sep 0 [] s.

(** An index label: a string, or something else (a number, NaN). *)
Inductive label :=
  | Str (s : str)
  | Other (v : float).

Definition L2_suffix : str := String.list_ascii_of_string " L2".

Definition remove_l2 (name : label) : label :=
  match name with
  | Str s =>
      if decide (L2_suffix `suffix_of` s) then Str (replace L2_suffix [] s)
      else name
  | Other _ => name
  end.

Definition separator : str := String.list_ascii_of_string " - ".
Definition Unknown : str := String.list_ascii_of_string "Unknown".

Definition parse_variable (var : str) : str * str :=
  let splitted := split separator var in
  if decide (length splitted = 2%nat)
  then (splitted !!! 0%nat, splitted !!! 1%nat)
  else (var, Unknown).

(** [old] occurs somewhere in [s]; [old] occurs in [s] at its very end
    only. *)
Definition occurs (old s : str) : Prop := ∃ pre post, s = pre ++ old ++ post.
Definition last_only (old s : str) : Prop :=
  ∀ pre post, s = pre ++ old ++ post → post = [].

End App_main.

(** *** Gains, losses and averages, for the statements about RSI *)

(** Day-over-day differences of a finite series, from the second day on. *)
Definition deltas (qs : list Qc) : list Qc :=
  match qs with
  | [] => []
  | _ :: qs' => zip_with Qcminus qs' qs
  end.

Definition pos_part (d : Qc) : Qc := if Qc_ltb 0 d then d else 0.
Definition neg_part (d : Qc) : Qc := if Qc_ltb d 0 then - d else 0.

(** [gain[t] = max(diff[t], 0)] and [loss[t] = max(-diff[t], 0)], with 0 at
    the first day, which has no difference. *)
Definition gains (qs : list Qc) : list Qc :=
  match qs with
  | [] => []
  | _ :: _ => 0 :: (pos_part <$> deltas qs)
  end.

Definition losses (qs : list Qc) : list Qc :=
  match qs with
  | [] => []
  | _ :: _ => 0 :: (neg_part <$> deltas qs)
  end.

(** The adjusted exponentially weighted average as a recurrence: the new
    value weighs the old average by the decayed total weight [ow·factor]
    and the new observation by 1. *)
Fixpoint wavg_from (factor w ow : Qc) (xs : list Qc) : list Qc :=
  match xs with
  | [] => []
  | x :: xs' =>
      let ow1 := ow * factor in
      let w' := (ow1 * w + x) / (ow1 + 1) in
      w' :: wavg_from factor w' (ow1 + 1) xs'
  end.

Definition wavg (factor : Qc) (xs : list Qc) : list Qc :=
  match xs with
  | [] => []
  | x :: xs' => x :: wavg_from factor x 1 xs'
  end.

Fixpoint sumQ (xs : list Qc) : Qc :=
  match xs with
  | [] => 0
  | x :: xs' => x + sumQ xs'
  end.

(** The plain mean of the [window] entries ending at index [t]. *)
Definition window_mean (window : nat) (xs : list Qc) (t : nat) : Qc :=
  sumQ (take window (drop (S t - window) xs)) / Qc_of_nat window.

(** Before index [i] the accumulator of the rolling mean holds the count
    and the sum of the entries of the window that ends just before [i]. *)
Definition roll_inv (window : nat) (qs : list Qc) (i : nat) (st : roll_acc)
  : Prop :=
  r_nobs st = Nat.min i window ∧
  r_sum st = Fin (sumQ (take (Nat.min i window) (drop (i - window) qs))).

(** [rsi = 100 − 100/(1 + avgGain/avgLoss)] on floats. *)
Definition rsi_cell (avg_gain avg_loss : float) : float :=
  fsub (Fin (Qc_of_nat 100))
    (fdiv (Fin (Qc_of_nat 100)) (fadd (Fin 1) (fdiv avg_gain avg_loss))).

(** An average that is still warming up, or a finite one. *)
Definition after_warm_up (ready : bool) (a : Qc) : float :=
  if ready then Fin a else NaN.

(** An RSI cell has no value or lies between 0 and 100. *)
Definition rsi_in_range (v : float) : Prop :=
  v = NaN ∨ ∃ r, v = Fin r ∧ 0 ≤ r ∧ r ≤ Qc_of_nat 100.

(** A column without infinite cells: numbers and NaN only.  pandas hands an
    infinite cell to its window kernels as NaN, so the statements about
    columns of arbitrary cells are made for columns of this kind. *)
Definition no_inf (c : list float) : Prop :=
  Forall (λ v, v ≠ PInf ∧ v ≠ NInf) c.

(** The states the ewm kernel goes through on cells that are numbers or
    NaN: no average yet and the initial weight, or a finite average and a
    positive weight. *)
Definition ewm_state_ok (st : ewm_acc) : Prop :=
  (weighted st = NaN ∧ old_wt st = 1) ∨
  (∃ w, weighted st = Fin w ∧ 0 < old_wt st).

(** The markers stored by [get_trading_strategy], their kinds and their
    dates, in order. *)
Definition strategy_markers (df : DataFrame) (column : string)
  : result (list SignalMarker) :=
  df' ← Dashboard_Functions.get_trading_strategy df column;
  signal_markers df'.

Definition strategy_marker_kinds (df : DataFrame) (column : string)
  : result (list kind) :=
  match strategy_markers df column with
  | Ok ms => Ok (m_kind <$> ms)
  | Raise e => Raise e
  end.

Definition strategy_marker_dates (df : DataFrame) (column : string)
  : result (list Timestamp) :=
  match strategy_markers df column with
  | Ok ms => Ok (m_date <$> ms)
  | Raise e => Raise e
  end.

(** The eight columns the main script of [Dashboard_Functions.py] writes. *)
Definition process_columns : list string :=
  ["EMA-12"; "EMA-26"; "MACD"; "Signal"; "Histogram"; "RSI"; "Buy"; "Sell"].

(** *** Proof tactics *)

(** Two column names that differ. *)
Ltac neq_str := let H := fresh in intros H; discriminate H.

(** Case analysis on the integer comparisons of a goal, then [lia]. *)
Ltac Zb_cases :=
  repeat match goal with
    | |- context [(?a <? ?b)%Z] => destruct (Z.ltb_spec a b)
    | |- context [(?a <=? ?b)%Z] => destruct (Z.leb_spec a b)
    end; lia.

(** * Properties *)

(** ** Arithmetic helpers *)

Lemma Qc_eqb_false (x y : Qc) : x ≠ y → Qc_eqb x y = false.
Proof. intros H. unfold Qc_eqb. by apply bool_decide_eq_false. Qed.

Lemma Qc_1_neq_0 : (1 : Qc) ≠ 0.
Proof. discriminate. Qed.

Lemma Qc_of_nat_nonneg (n : nat) : 0 ≤ Qc_of_nat n.
Proof.
  unfold Qcle. change (inject_Z 0 <= inject_Z (Z.of_nat n))%Q.
  rewrite <- Zle_Qle. lia.
Qed.

Lemma Qc_of_nat_succ_neq_0 (n : nat) : Qc_of_nat n + 1 ≠ 0.
Proof.
  intros H. pose proof (Qc_of_nat_nonneg n) as Hn.
  assert (0 < Qc_of_nat n + 1) as Hlt.
  { apply Qcplus_nonneg_pos; [done|]. reflexivity. }
  rewrite H in Hlt. by apply Qclt_not_eq in Hlt.
Qed.

Lemma alpha_of_span (N : nat) :
  alpha_of_com (com_of_span (Qc_of_nat N)) = alpha_span N.
Proof.
  unfold alpha_of_com, com_of_span, alpha_span.
  pose proof (Qc_of_nat_succ_neq_0 N).
  field. split; [done|].
  intros H2. apply H. 
  replace (Qc_of_nat N + 1) with (1 + 1 + (Qc_of_nat N - 1)) by ring.
  done.
Qed.

(** ** Floats that are finite *)

Lemma fneq_Fin (a b : Qc) : fneq (Fin a) (Fin b) = negb (Qc_eqb a b).
Proof.
  unfold fneq, Qc_eqb. f_equal. apply bool_decide_ext. split; congruence.
Qed.

Lemma fdiv_Fin (a b : Qc) : b ≠ 0 → fdiv (Fin a) (Fin b) = Fin (a / b).
Proof. intros Hb. unfold fdiv. by rewrite (Qc_eqb_false _ _ Hb). Qed.

(** ** The ewm kernel on finite data *)

Section ewm_finite.
Variable com : Qc.

(** With [adjust=False] the accumulator keeps [old_wt = 1] and at least
    one observation, and a step is one step of the recurrence. *)
Lemma ewm_step_finite (w x : Qc) (n : nat) :
  ewm_step com false (mkAcc (Fin w) 1 n) (Fin x)
  = mkAcc (Fin (alpha_of_com com * x + (1 - alpha_of_com com) * w)) 1 (S n).
Proof.
  unfold ewm_step. cbn [weighted old_wt nobs is_obs].
  assert (1 * (1 - alpha_of_com com) + alpha_of_com com = 1) as Hsum by ring.
  rewrite fneq_Fin. cbn [fmul fadd].
  rewrite Hsum, (fdiv_Fin _ _ Qc_1_neq_0).
  destruct (Qc_eqb w x) eqn:Hne; cbn [negb].
  - apply bool_decide_eq_true in Hne. subst x. do 2 f_equal. ring.
  - do 2 f_equal. field. apply Qc_1_neq_0.
Qed.

Lemma ewm_loop_finite (w : Qc) (n : nat) (xs : list Qc) :
  ewm_loop com false 1 (mkAcc (Fin w) 1 (S n)) (Fin <$> xs)
  = Fin <$> ema_from (alpha_of_com com) w xs.
Proof.
  revert w n. induction xs as [|x xs IH]; intros w n; [done|].
  cbn [fmap list_fmap ewm_loop ema_from]. rewrite ewm_step_finite.
  rewrite IH. unfold ewm_out. cbn [nobs weighted].
  by destruct (decide _); [|lia].
Qed.

Lemma ewm_mean_finite (xs : list Qc) :
  ewm_mean com false 0 (Fin <$> xs) = Fin <$> ema (alpha_of_com com) xs.
Proof.
  destruct xs as [|x xs]; [done|].
  unfold ewm_mean. cbn [fmap list_fmap is_obs Nat.max ema].
  rewrite ewm_loop_finite. unfold ewm_out. cbn [nobs weighted].
  by destruct (decide _); [|lia].
Qed.
End ewm_finite.

(** ** The recurrence, index by index *)

Lemma length_ema_from α w xs : length (ema_from α w xs) = length xs.
Proof. revert w. induction xs; intros; simpl; auto. Qed.

Lemma length_ema α xs : length (ema α xs) = length xs.
Proof. destruct xs; simpl; [done|]. by rewrite length_ema_from. Qed.

Lemma ema_from_step α w xs t xt ep :
  xs !! t = Some xt →
  (w :: ema_from α w xs) !! t = Some ep →
  ema_from α w xs !! t = Some (α * xt + (1 - α) * ep).
Proof.
  revert w t. induction xs as [|x xs IH]; intros w t Hx He; [done|].
  destruct t as [|t]; simpl in *.
  - by simplify_eq.
  - by apply IH.
Qed.

Lemma ema_is_ema α xs : is_ema α xs (ema α xs).
Proof.
  split; [apply length_ema|]. split; [by destruct xs|].
  intros t xt ep Hx He. destruct xs as [|x xs]; [done|].
  simpl in *. by apply ema_from_step.
Qed.

(** The recurrence determines the series. *)
Lemma is_ema_unique α x e1 e2 : is_ema α x e1 → is_ema α x e2 → e1 = e2.
Proof.
  intros (Hl1 & H01 & Hs1) (Hl2 & H02 & Hs2).
  apply list_eq. intros t. induction t as [|t IH].
  - by rewrite H01, H02.
  - destruct (x !! S t) as [xt|] eqn:Hx.
    + destruct (e1 !! t) as [ep|] eqn:He1.
      * rewrite (Hs1 t xt ep Hx He1). symmetry. apply Hs2; [done|].
        by rewrite <- IH.
      * apply lookup_ge_None in He1. apply lookup_lt_Some in Hx. lia.
    + apply lookup_ge_None in Hx.
      rewrite !(proj2 (lookup_ge_None _ _)); [done|lia..].
Qed.

Lemma zip_with_Fin_sub (a b : list Qc) :
  series_sub (Fin <$> a) (Fin <$> b) = Fin <$> zip_with Qcminus a b.
Proof.
  unfold series_sub. revert b. induction a as [|x a IH]; intros [|y b]; simpl; [done..|].
  by rewrite IH.
Qed.

Lemma zip_with_is_diff (a b : list Qc) :
  length a = length b → is_diff a b (zip_with Qcminus a b).
Proof.
  intros Hl. split.
  - rewrite length_zip_with. lia.
  - intros t x y Ha Hb. rewrite lookup_zip_with, Ha, Hb. done.
Qed.

(** ** get_MACD and calculate_macd on a finite close series *)

Lemma getitem_setitem_eq df k s : getitem (setitem df k s) k = Ok s.
Proof. unfold getitem, setitem. cbn [cols]. by rewrite lookup_insert_eq. Qed.

Lemma getitem_setitem_ne df k k' s :
  k ≠ k' → getitem (setitem df k s) k' = getitem df k'.
Proof.
  intros Hne. unfold getitem, setitem. cbn [cols]. by rewrite lookup_insert_ne.
Qed.

Lemma getitem_Some df k c : cols df !! k = Some c → getitem df k = Ok c.
Proof. intros H. unfold getitem. by rewrite H. Qed.

Lemma bind_Ok {A B} (a : A) (f : A → result B) : (Ok a ≫= f) = f a.
Proof. reflexivity. Qed.

Lemma get_MACD_finite (df : DataFrame) (close : list Qc) :
  cols df !! "Price Close" = Some (Fin <$> close) →
  Dashboard_Functions.get_MACD df "Price Close" =
    Ok (setitem (setitem (setitem (setitem (setitem df
          "EMA-12" (Fin <$> shortEma_of close))
          "EMA-26" (Fin <$> longEma_of close))
          "MACD" (Fin <$> macd_of close))
          "Signal" (Fin <$> signalLine_of close))
          "Histogram" (Fin <$> histogram_of close)).
Proof.
  intros Hc. unfold Dashboard_Functions.get_MACD. cbv zeta.
  rewrite (getitem_Some _ _ _ Hc), bind_Ok.
  rewrite (getitem_setitem_ne _ "EMA-12" "Price Close"); [|neq_str].
  rewrite (getitem_Some _ _ _ Hc), bind_Ok.
  rewrite (getitem_setitem_ne _ "EMA-26" "EMA-12"); [|neq_str].
  rewrite !getitem_setitem_eq, !bind_Ok.
  rewrite getitem_setitem_eq, bind_Ok.
  rewrite (getitem_setitem_ne _ "Signal" "MACD"); [|neq_str].
  rewrite !getitem_setitem_eq, !bind_Ok.
  rewrite !ewm_mean_finite, !alpha_of_span, zip_with_Fin_sub.
  rewrite ewm_mean_finite, alpha_of_span, zip_with_Fin_sub.
  reflexivity.
Qed.

Lemma calculate_macd_finite (df : DataFrame) (close : list Qc) :
  cols df !! "Price Close" = Some (Fin <$> close) →
  App.calculate_macd df =
    Ok (setitem (setitem df
          "MACD" (Fin <$> macd_of close))
          "Signal Line" (Fin <$> signalLine_of close)).
Proof.
  intros Hc. unfold App.calculate_macd. cbv zeta.
  rewrite !(getitem_Some _ _ _ Hc), !bind_Ok.
  rewrite getitem_setitem_eq, bind_Ok.
  rewrite !ewm_mean_finite, !alpha_of_span, zip_with_Fin_sub.
  rewrite ewm_mean_finite, alpha_of_span.
  reflexivity.
Qed.

Lemma length_macd_of close : length (macd_of close) = length close.
Proof.
  unfold macd_of, shortEma_of, longEma_of.
  rewrite length_zip_with, !length_ema. lia.
Qed.

Lemma length_signalLine_of close : length (signalLine_of close) = length close.
Proof. unfold signalLine_of. by rewrite length_ema, length_macd_of. Qed.

(** C1. For a finite close series, [get_MACD] stores under EMA-12 and EMA-26
    the series given by the recurrence [ema[0] = close[0]],
    [ema[t] = α·close[t] + (1-α)·ema[t-1]] with [α = 2/(N+1)] for [N = 12]
    and [N = 26]; MACD is their difference index by index; Signal is the
    recurrence of span 9 run on the MACD series, seeded at [macd[0]];
    Histogram is MACD minus Signal index by index.  [calculate_macd] stores
    the same MACD and the same signal line. *)
Theorem C1_macd_recurrence (df : DataFrame) (close : list Qc) :
  cols df !! "Price Close" = Some (Fin <$> close) →
  ∃ df' df'' shortEma longEma macd signalLine histogram,
    Dashboard_Functions.get_MACD df "Price Close" = Ok df' ∧
    cols df' !! "EMA-12" = Some (Fin <$> shortEma) ∧
    cols df' !! "EMA-26" = Some (Fin <$> longEma) ∧
    cols df' !! "MACD" = Some (Fin <$> macd) ∧
    cols df' !! "Signal" = Some (Fin <$> signalLine) ∧
    cols df' !! "Histogram" = Some (Fin <$> histogram) ∧
    is_ema (alpha_span 12) close shortEma ∧
    is_ema (alpha_span 26) close longEma ∧
    is_diff shortEma longEma macd ∧
    is_ema (alpha_span 9) macd signalLine ∧
    is_diff macd signalLine histogram ∧
    App.calculate_macd df = Ok df'' ∧
    cols df'' !! "MACD" = Some (Fin <$> macd) ∧
    cols df'' !! "Signal Line" = Some (Fin <$> signalLine).
Proof.
  intros Hc. eexists _, _.
  exists (shortEma_of close), (longEma_of close), (macd_of close),
    (signalLine_of close), (histogram_of close).
  split; [by apply get_MACD_finite|].
  unfold setitem; cbn [cols].
  repeat (split; [by simplify_map_eq|]).
  split; [apply ema_is_ema|]. split; [apply ema_is_ema|].
  split.
  { apply zip_with_is_diff. unfold shortEma_of, longEma_of.
    by rewrite !length_ema. }
  split; [apply ema_is_ema|].
  split.
  { apply zip_with_is_diff. by rewrite length_macd_of, length_signalLine_of. }
  split; [by apply calculate_macd_finite|].
  cbn [cols]. split; by simplify_map_eq.
Qed.

(** ** The signal detector *)

Lemma App_strategy_body_eq :
  App.strategy_body = Dashboard_Functions.strategy_body.
Proof. reflexivity. Qed.

Lemma App_get_trading_strategy_eq :
  App.get_trading_strategy = Dashboard_Functions.get_trading_strategy.
Proof. reflexivity. Qed.

Lemma iloc_Some {A} (l : list A) i x : l !! i = Some x → iloc l i = Ok x.
Proof. intros H. unfold iloc. by rewrite H. Qed.

Section detector.
Variables (df : DataFrame) (column : string).
Variables (macd signal close : list float).
Hypothesis Hmacd : cols df !! "MACD" = Some macd.
Hypothesis Hsignal : cols df !! "Signal" = Some signal.
Hypothesis Hclose : cols df !! column = Some close.

(** One turn of the loop is one step of the machine. *)
Lemma strategy_body_step i m s p buy_list sell_list flag :
  macd !! i = Some m → signal !! i = Some s → close !! i = Some p →
  Dashboard_Functions.strategy_body df column i (buy_list, sell_list, flag)
  = let '(st', ev) := detector_step (position_of_flag flag) m s in
    Ok (buy_list ++ [if decide (ev = Some Buy) then p else NaN],
        sell_list ++ [if decide (ev = Some Sell) then p else NaN],
        flag_of_position st').
Proof.
  intros Hm Hs Hp. unfold Dashboard_Functions.strategy_body.
  rewrite !(getitem_Some _ _ _ Hmacd), !(getitem_Some _ _ _ Hsignal),
    !(getitem_Some _ _ _ Hclose).
  cbn [mbind result_bind].
  rewrite !(iloc_Some _ _ _ Hm), !(iloc_Some _ _ _ Hs), !(iloc_Some _ _ _ Hp).
  cbn [mbind result_bind mret result_ret].
  destruct flag; cbn [position_of_flag detector_step negb];
    rewrite ?andb_false_r, ?andb_true_r.
  - destruct (flt m s); reflexivity.
  - destruct (fgt m s); [reflexivity|].
    destruct (flt m s); reflexivity.
Qed.

Lemma position_of_flag_decide st :
  position_of_flag (flag_of_position st) = st.
Proof. by destruct st. Qed.

Lemma strategy_loop k : ∀ i buy_list sell_list flag,
  (i + k)%nat = length macd → length signal = length macd →
  length close = length macd →
  for_each (Dashboard_Functions.strategy_body df column) (seq i k)
    (buy_list, sell_list, flag)
  = let ms := zip (drop i macd) (drop i signal) in
    let events := detector_run (position_of_flag flag) ms in
    Ok (buy_list ++ marker_column Buy events (drop i close),
        sell_list ++ marker_column Sell events (drop i close),
        flag_of_position (detector_final (position_of_flag flag) ms)).
Proof.
  induction k as [|k IH]; intros i buy_list sell_list flag Hlen Hls Hlc.
  - rewrite !drop_ge by lia. cbn. rewrite !app_nil_r.
    by destruct flag.
  - destruct (lookup_lt_is_Some_2 macd i) as [m Hm]; [lia|].
    destruct (lookup_lt_is_Some_2 signal i) as [s Hs]; [lia|].
    destruct (lookup_lt_is_Some_2 close i) as [p Hp]; [lia|].
    cbn [seq for_each].
    rewrite (strategy_body_step _ _ _ _ _ _ _ Hm Hs Hp).
    rewrite (drop_S _ _ _ Hm), (drop_S _ _ _ Hs), (drop_S _ _ _ Hp).
    cbn [zip zip_with detector_run detector_final fst].
    destruct (detector_step (position_of_flag flag) m s) as [st' ev] eqn:Hstep.
    cbn [mbind result_bind fst].
    rewrite IH by lia. cbv zeta.
    rewrite position_of_flag_decide.
    unfold marker_column. cbn [zip_with].
    by rewrite <- !app_assoc.
Qed.
End detector.

Lemma length_detector_run st ms : length (detector_run st ms) = length ms.
Proof.
  revert st. induction ms as [|[m s] ms IH]; intros st; [done|].
  cbn [detector_run]. destruct (detector_step st m s). cbn. by rewrite IH.
Qed.

Lemma length_marker_column k events close :
  length events = length close →
  length (marker_column k events close) = length close.
Proof. intros H. unfold marker_column. rewrite length_zip_with. lia. Qed.

Lemma flt_irrefl x : flt x x = false.
Proof.
  destruct x; try reflexivity. cbn. unfold Qc_ltb.
  apply bool_decide_eq_false. apply (irreflexivity Qclt).
Qed.

Lemma flt_NaN_l x : flt NaN x = false.
Proof. reflexivity. Qed.

Lemma flt_NaN_r x : flt x NaN = false.
Proof. by destruct x. Qed.

(** No strict crossing, no transition. *)
Lemma detector_step_idle st m s :
  m = s ∨ is_obs m = false ∨ is_obs s = false →
  detector_step st m s = (st, None).
Proof.
  intros H. assert (flt m s = false ∧ flt s m = false) as [H1 H2].
  { destruct H as [->|[H|H]].
    - by rewrite flt_irrefl.
    - destruct m; try done. by rewrite flt_NaN_l, flt_NaN_r.
    - destruct s; try done. by rewrite flt_NaN_l, flt_NaN_r. }
  unfold detector_step, fgt. rewrite H1, H2. by destruct st.
Qed.

Lemma get_trading_strategy_run df column macd signal close :
  cols df !! "MACD" = Some macd →
  cols df !! "Signal" = Some signal →
  cols df !! column = Some close →
  length macd = len df → length signal = len df → length close = len df →
  Dashboard_Functions.get_trading_strategy df column =
    let events := detector_run Flat (zip macd signal) in
    Ok (setitem (setitem df "Buy" (marker_column Buy events close))
          "Sell" (marker_column Sell events close)).
Proof.
  intros Hm Hs Hc Hlm Hls Hlc. unfold Dashboard_Functions.get_trading_strategy.
  rewrite (strategy_loop df column macd signal close Hm Hs Hc (len df) 0)
    by lia.
  cbv zeta. rewrite !drop_0. cbn [mbind result_bind app position_of_flag].
  assert (length (detector_run Flat (zip macd signal)) = length close) as Hev.
  { rewrite length_detector_run, length_zip. lia. }
  unfold setitem_list.
  rewrite decide_True by (rewrite length_marker_column; [lia|done]).
  cbn [mbind result_bind].
  rewrite decide_True; [done|].
  rewrite length_marker_column; [|done]. unfold len, setitem. cbn [Date].
  exact Hlc.
Qed.

(** C2. [get_trading_strategy] is one left-to-right pass of the two-state
    machine started in Flat: the Buy column holds [close[t]] exactly at the
    rows where the machine, being Flat, sees [macd[t] > signalLine[t]] (and
    moves to Holding), the Sell column holds [close[t]] exactly at the rows
    where, being Holding, it sees [macd[t] < signalLine[t]] (and moves to
    Flat); rows and dates are left as they are.  On equality, or when either
    value is NaN, the machine emits nothing and keeps its state.  The copy
    in [app.py] is the same function. *)
Theorem C2_detector_state_machine (df : DataFrame) (column : string)
    (macd signalLine close : list float) :
  cols df !! "MACD" = Some macd →
  cols df !! "Signal" = Some signalLine →
  cols df !! column = Some close →
  length macd = len df → length signalLine = len df → length close = len df →
  let events := detector_run Flat (zip macd signalLine) in
  let df' := setitem (setitem df "Buy" (marker_column Buy events close))
               "Sell" (marker_column Sell events close) in
  Dashboard_Functions.get_trading_strategy df column = Ok df' ∧
  App.get_trading_strategy df column = Ok df' ∧
  Date df' = Date df ∧
  (∀ st m s, m = s ∨ is_obs m = false ∨ is_obs s = false →
     detector_step st m s = (st, None)) ∧
  (∀ m s, fgt m s = true → detector_step Flat m s = (Holding, Some Buy)) ∧
  (∀ m s, flt m s = true → detector_step Holding m s = (Flat, Some Sell)).
Proof.
  intros Hm Hs Hc Hlm Hls Hlc events df'.
  rewrite App_get_trading_strategy_eq.
  rewrite (get_trading_strategy_run df column macd signalLine close) by done.
  repeat split; try done.
  - intros st m s. apply detector_step_idle.
  - intros m s H. unfold detector_step. by rewrite H.
  - intros m s H. unfold detector_step. by rewrite H.
Qed.

(** ** The emitted markers *)

Lemma marker_column_cons k ev events c close :
  marker_column k (ev :: events) (c :: close)
  = (if decide (ev = Some k) then c else NaN) :: marker_column k events close.
Proof. reflexivity. Qed.

Lemma detector_step_cases st m s :
  detector_step st m s = (st, None) ∨
  (st = Flat ∧ detector_step st m s = (Holding, Some Buy)) ∨
  (st = Holding ∧ detector_step st m s = (Flat, Some Sell)).
Proof.
  unfold detector_step. destruct st.
  - destruct (fgt m s); auto.
  - destruct (flt m s); auto.
Qed.


Lemma alternates_adjacent ks : ∀ next i k1 k2,
  alternates next ks → ks !! i = Some k1 → ks !! S i = Some k2 → k1 ≠ k2.
Proof.
  induction ks as [|k ks IH]; intros next i k1 k2 Halt H1 H2; [done|].
  destruct Halt as [Hk Halt]. subst k. destruct i as [|i].
  - destruct ks as [|k' ks]; [done|]. destruct Halt as [Hk' _].
    cbn in H1, H2. simplify_eq. by destruct k1.
  - by apply (IH (other_kind next) i).
Qed.

Lemma markers_dates_sublist events : ∀ dates close,
  m_date <$> markers_of dates (marker_column Buy events close)
               (marker_column Sell events close)
  `sublist_of` dates.
Proof.
  induction events as [|ev events IH]; intros dates close.
  { destruct dates; cbn; apply sublist_nil_l. }
  destruct close as [|c close]; [destruct dates; apply sublist_nil_l|].
  destruct dates as [|d dates]; [apply sublist_nil_l|].
  rewrite !marker_column_cons. cbn [markers_of].
  unfold row_markers.
  destruct (decide (ev = Some Buy)) as [Hb|Hb],
    (decide (ev = Some Sell)) as [Hs|Hs]; [congruence|..];
    destruct (is_obs c);
    cbn [is_obs app fmap list_fmap m_date];
    (apply sublist_skip || apply sublist_cons); apply IH.
Qed.

Lemma marker_columns_exclusive events close t b s :
  marker_column Buy events close !! t = Some b →
  marker_column Sell events close !! t = Some s →
  is_obs b = false ∨ is_obs s = false.
Proof.
  unfold marker_column. rewrite !lookup_zip_with.
  destruct (events !! t) as [ev|]; [|done].
  destruct (close !! t) as [c|]; [|done]. cbn.
  intros [= <-] [= <-].
  destruct (decide (ev = Some Buy)) as [->|]; [|by left].
  right. by rewrite decide_False.
Qed.

(** ** Strictly increasing prices *)

Section ema_gap.
(** Two smoothing factors, [a] the faster one. *)
Variables a b : Qc.
Hypothesis Hba : b < a.
Hypothesis Ha1 : a ≤ 1.

Lemma ema_gap_step (x p es el : Qc) :
  el ≤ es → es ≤ p → p < x →
  b * x + (1 - b) * el < a * x + (1 - a) * es ∧
  a * x + (1 - a) * es ≤ x.
Proof.
  intros Hle Hes Hpx.
  assert (0 < a - b) as Hab.
  { exact (proj1 (Qclt_minus_iff b a) Hba). }
  assert (0 ≤ 1 - a) as H1a.
  { exact (proj1 (Qcle_minus_iff a 1) Ha1). }
  assert (0 ≤ 1 - b) as H1b.
  { apply (proj1 (Qcle_minus_iff b 1)). apply Qclt_le_weak.
    exact (Qclt_le_trans _ _ _ Hba Ha1). }
  assert (0 < x - es) as Hxe.
  { apply (proj1 (Qclt_minus_iff es x)).
    exact (Qcle_lt_trans _ _ _ Hes Hpx). }
  assert (0 ≤ es - el) as Hel.
  { exact (proj1 (Qcle_minus_iff el es) Hle). }
  split.
  - apply Qclt_minus_iff.
    replace (a * x + (1 - a) * es + - (b * x + (1 - b) * el))
      with ((a - b) * (x - es) + (1 - b) * (es - el)) by ring.
    apply Qcplus_pos_nonneg.
    + by apply Qcmult_pos_pos.
    + by apply Qcmult_nonneg_nonneg.
  - apply Qcle_minus_iff.
    replace (x + - (a * x + (1 - a) * es)) with ((1 - a) * (x - es)) by ring.
    apply Qcmult_nonneg_nonneg; [done|by apply Qclt_le_weak].
Qed.

(** Below a strictly increasing series, the slower average stays strictly
    below the faster one from the first step on. *)
Lemma ema_from_gap xs : ∀ p es el t s l,
  strictly_increasing (p :: xs) → el ≤ es → es ≤ p →
  ema_from a es xs !! t = Some s → ema_from b el xs !! t = Some l →
  l < s.
Proof.
  induction xs as [|x xs IH]; intros p es el t s l Hinc Hle Hes Hs Hl;
    [done|].
  destruct Hinc as [Hpx Hinc].
  destruct (ema_gap_step x p es el Hle Hes Hpx) as [Hlt Hup].
  cbn [ema_from] in Hs, Hl. destruct t as [|t].
  - cbn in Hs, Hl. by simplify_eq.
  - cbn in Hs, Hl.
    exact (IH x _ _ t s l Hinc (Qclt_le_weak _ _ Hlt) Hup Hs Hl).
Qed.

Lemma ema_gap (close : list Qc) t s l :
  strictly_increasing close → (1 ≤ t)%nat →
  ema a close !! t = Some s → ema b close !! t = Some l → l < s.
Proof.
  intros Hinc Ht Hs Hl. destruct close as [|x xs]; [done|].
  destruct t as [|t]; [lia|]. cbn in Hs, Hl.
  by apply (ema_from_gap xs x x x t s l).
Qed.
End ema_gap.

Lemma alpha_span_26_12 : alpha_span 26 < alpha_span 12.
Proof. by vm_compute. Qed.

Lemma alpha_span_12_le_1 : alpha_span 12 ≤ 1.
Proof. by vm_compute. Qed.

Lemma macd_of_lookup_inv close t m :
  macd_of close !! t = Some m →
  ∃ s l, shortEma_of close !! t = Some s ∧ longEma_of close !! t = Some l ∧
         m = s - l.
Proof.
  unfold macd_of. rewrite lookup_zip_with. intros H.
  destruct (shortEma_of close !! t) as [s|]; [|done].
  destruct (longEma_of close !! t) as [l|]; [|done].
  cbn in H. exists s, l. by simplify_eq.
Qed.

Lemma macd_positive close t m :
  strictly_increasing close → (1 ≤ t)%nat →
  macd_of close !! t = Some m → 0 < m.
Proof.
  intros Hinc Ht Hm.
  apply macd_of_lookup_inv in Hm as (s & l & Hs & Hl & ->).
  apply (proj1 (Qclt_minus_iff l s)).
  apply (ema_gap _ _ alpha_span_26_12 alpha_span_12_le_1 close t s l); done.
Qed.

Lemma macd_0_eq x xs :
  macd_of (x :: xs)
  = 0 :: zip_with Qcminus (ema_from (alpha_span 12) x xs)
           (ema_from (alpha_span 26) x xs).
Proof.
  unfold macd_of, shortEma_of, longEma_of. cbn [ema zip_with]. f_equal. ring.
Qed.

Lemma macd_0 x xs : macd_of (x :: xs) !! 0%nat = Some 0.
Proof.
  unfold macd_of, shortEma_of, longEma_of. cbn. f_equal. ring.
Qed.

(** ** The main script on a finite close series *)

(** The RSI column [get_RSI] computes from a price column. *)
Lemma get_RSI_ok df column time_window c :
  getitem df column = Ok c →
  ∃ rsi, Dashboard_Functions.get_RSI df column time_window
         = Ok (setitem df "RSI" rsi).
Proof.
  intros Hc. unfold Dashboard_Functions.get_RSI. rewrite Hc, bind_Ok.
  cbv zeta. by eexists.
Qed.

Lemma lookup_setitem_ne df k k' s :
  k ≠ k' → cols (setitem df k s) !! k' = cols df !! k'.
Proof. intros Hne. unfold setitem. cbn [cols]. by rewrite lookup_insert_ne. Qed.

Lemma lookup_setitem_eq df k s : cols (setitem df k s) !! k = Some s.
Proof. unfold setitem. cbn [cols]. by rewrite lookup_insert_eq. Qed.

Lemma len_setitem df k s : len (setitem df k s) = len df.
Proof. reflexivity. Qed.

Lemma process_finite (df : DataFrame) (close : list Qc) :
  cols df !! "Price Close" = Some (Fin <$> close) →
  length close = len df →
  ∃ df1 rsi,
    Dashboard_Functions.get_MACD df "Price Close" = Ok df1 ∧
    cols df1 !! "MACD" = Some (Fin <$> macd_of close) ∧
    cols df1 !! "Signal" = Some (Fin <$> signalLine_of close) ∧
    cols df1 !! "EMA-12" = Some (Fin <$> shortEma_of close) ∧
    cols df1 !! "EMA-26" = Some (Fin <$> longEma_of close) ∧
    let events := detector_run Flat
      (zip (Fin <$> macd_of close) (Fin <$> signalLine_of close)) in
    Dashboard_Functions.process df =
      Ok (setitem (setitem (setitem df1 "RSI" rsi)
            "Buy" (marker_column Buy events (Fin <$> close)))
            "Sell" (marker_column Sell events (Fin <$> close))) ∧
    process_markers df =
      Ok (markers_of (Date df)
            (marker_column Buy events (Fin <$> close))
            (marker_column Sell events (Fin <$> close))).
Proof.
  intros Hc Hlen.
  assert (∃ df1, df1 = setitem (setitem (setitem (setitem (setitem df
          "EMA-12" (Fin <$> shortEma_of close))
          "EMA-26" (Fin <$> longEma_of close))
          "MACD" (Fin <$> macd_of close))
          "Signal" (Fin <$> signalLine_of close))
          "Histogram" (Fin <$> histogram_of close)) as [df1 Hdf1] by eauto.
  assert (cols df1 !! "Price Close" = Some (Fin <$> close)) as Hc1.
  { rewrite Hdf1. rewrite !lookup_setitem_ne by neq_str. done. }
  assert (cols df1 !! "MACD" = Some (Fin <$> macd_of close)) as Hm1.
  { rewrite Hdf1. rewrite !lookup_setitem_ne by neq_str.
    by rewrite lookup_setitem_eq. }
  assert (cols df1 !! "Signal" = Some (Fin <$> signalLine_of close)) as Hs1.
  { rewrite Hdf1. rewrite !lookup_setitem_ne by neq_str.
    by rewrite lookup_setitem_eq. }
  assert (cols df1 !! "EMA-12" = Some (Fin <$> shortEma_of close)) as He1.
  { rewrite Hdf1. rewrite !lookup_setitem_ne by neq_str.
    by rewrite lookup_setitem_eq. }
  assert (cols df1 !! "EMA-26" = Some (Fin <$> longEma_of close)) as He2.
  { rewrite Hdf1. rewrite !lookup_setitem_ne by neq_str.
    by rewrite lookup_setitem_eq. }
  assert (len df1 = len df) as Hl1 by (by rewrite Hdf1).
  destruct (get_RSI_ok df1 "Price Close" 14 _ (getitem_Some _ _ _ Hc1))
    as [rsi Hrsi].
  exists df1, rsi. rewrite (get_MACD_finite df close Hc), <- Hdf1.
  split; [done|]. do 4 (split; [done|]).
  cbv zeta.
  assert (Dashboard_Functions.process df =
    Ok (setitem (setitem (setitem df1 "RSI" rsi)
      "Buy" (marker_column Buy (detector_run Flat
         (zip (Fin <$> macd_of close) (Fin <$> signalLine_of close)))
         (Fin <$> close)))
      "Sell" (marker_column Sell (detector_run Flat
         (zip (Fin <$> macd_of close) (Fin <$> signalLine_of close)))
         (Fin <$> close)))) as Hproc.
  { unfold Dashboard_Functions.process.
    rewrite (get_MACD_finite df close Hc), <- Hdf1, bind_Ok, Hrsi, bind_Ok.
    apply (get_trading_strategy_run _ "Price Close" (Fin <$> macd_of close)
             (Fin <$> signalLine_of close) (Fin <$> close)).
    - by rewrite lookup_setitem_ne by neq_str.
    - by rewrite lookup_setitem_ne by neq_str.
    - by rewrite lookup_setitem_ne by neq_str.
    - rewrite length_fmap, length_macd_of, len_setitem. lia.
    - rewrite length_fmap, length_signalLine_of, len_setitem. lia.
    - rewrite length_fmap, len_setitem. lia. }
  split; [done|].
  unfold process_markers. rewrite Hproc, bind_Ok. unfold signal_markers.
  rewrite (getitem_setitem_ne _ "Sell" "Buy") by neq_str.
  rewrite !getitem_setitem_eq, !bind_Ok. cbn [mret result_ret].
  by rewrite Hdf1.
Qed.

Lemma flt_Fin_true (a b : Qc) : a < b → flt (Fin a) (Fin b) = true.
Proof. intros H. cbn. unfold Qc_ltb. by apply bool_decide_eq_true. Qed.

(** After a flat first date, a positive MACD above its smoothed value opens
    the position at the second date. *)
Lemma detector_first_buy (α m1 : Qc) rest :
  α < 1 → 0 < m1 →
  detector_run Flat
    ((Fin 0, Fin 0) :: (Fin m1, Fin (α * m1 + (1 - α) * 0)) :: rest)
  = None :: Some Buy :: detector_run Holding rest.
Proof.
  intros Hα Hm. cbn [detector_run].
  rewrite (detector_step_idle Flat (Fin 0) (Fin 0)) by auto.
  assert (fgt (Fin m1) (Fin (α * m1 + (1 - α) * 0)) = true) as Hgt.
  { unfold fgt. apply flt_Fin_true.
    apply (proj2 (Qclt_minus_iff _ _)).
    replace (m1 + - (α * m1 + (1 - α) * 0)) with ((1 - α) * m1) by ring.
    apply Qcmult_pos_pos; [|done].
    exact (proj1 (Qclt_minus_iff α 1) Hα). }
  unfold detector_step at 1. by rewrite Hgt.
Qed.

Lemma alpha_span_9_lt_1 : alpha_span 9 < 1.
Proof. by vm_compute. Qed.

Lemma first_marker_is_buy (close : list Qc) (dates : list Timestamp) d1 x1 :
  strictly_increasing close →
  dates !! 1%nat = Some d1 → close !! 1%nat = Some x1 →
  let events := detector_run Flat
    (zip (Fin <$> macd_of close) (Fin <$> signalLine_of close)) in
  ∃ rest,
    markers_of dates (marker_column Buy events (Fin <$> close))
      (marker_column Sell events (Fin <$> close))
    = mkMarker d1 (Fin x1) Buy :: rest.
Proof.
  intros Hinc Hd Hx events.
  destruct close as [|x0 [|x1' xs]]; [done..|].
  destruct dates as [|d0 [|d1' ds]]; [done..|].
  cbn in Hd, Hx. simplify_eq.
  assert (∃ m1, macd_of (x0 :: x1 :: xs) !! 1%nat = Some m1) as [m1 Hm1].
  { apply lookup_lt_is_Some_2. rewrite length_macd_of. cbn. lia. }
  assert (0 < m1) as Hpos by (by apply (macd_positive _ 1 m1 Hinc)).
  assert (∃ ms, macd_of (x0 :: x1 :: xs) = 0 :: m1 :: ms) as [ms Hms].
  { pose proof (macd_0 x0 (x1 :: xs)) as H0.
    destruct (macd_of (x0 :: x1 :: xs)) as [|m0 [|m1' ms]]; [done..|].
    cbn in H0, Hm1. simplify_eq. by eexists. }
  subst events. unfold signalLine_of. rewrite Hms.
  cbn [ema ema_from fmap list_fmap zip zip_with].
  rewrite (detector_first_buy _ _ _ alpha_span_9_lt_1 Hpos).
  rewrite !marker_column_cons. cbn [markers_of].
  rewrite (decide_True (P := Some Buy = Some Buy)) by done.
  rewrite (decide_False (P := None = Some Buy)) by done.
  rewrite (decide_False (P := None = Some Sell)) by done.
  rewrite (decide_False (P := Some Buy = Some Sell)) by done.
  unfold row_markers. cbn [is_obs app]. by eexists.
Qed.

(** ** Strictly increasing prices whose steps never shrink *)

Section macd_monotone.
Variables a b : Qc.
Hypothesis Hba : b < a.
Hypothesis Ha1 : a ≤ 1.

(** One step of the two averages: the growth of the lag of each average
    stays ordered, so the gap between the averages does not shrink. *)
Lemma lag_growth_step (x p pp es el ess ell : Qc) :
  es = a * p + (1 - a) * ess →
  el = b * p + (1 - b) * ell →
  0 ≤ (p - es) - (pp - ess) →
  (p - es) - (pp - ess) ≤ (p - el) - (pp - ell) →
  p - pp ≤ x - p →
  0 ≤ (x - (a * x + (1 - a) * es)) - (p - es) ∧
  (x - (a * x + (1 - a) * es)) - (p - es)
    ≤ (x - (b * x + (1 - b) * el)) - (p - el) ∧
  es - el ≤ (a * x + (1 - a) * es) - (b * x + (1 - b) * el).
Proof.
  intros Hes Hel HDs HDsl Hstep.
  set (Ds := (p - es) - (pp - ess)) in *.
  set (Dl := (p - el) - (pp - ell)) in *.
  set (Δ := (x - p) - (p - pp)).
  assert (0 ≤ Δ) as HΔ.
  { unfold Δ. exact (proj1 (Qcle_minus_iff (p - pp) (x - p)) Hstep). }
  assert (0 ≤ 1 - a) as H1a by exact (proj1 (Qcle_minus_iff a 1) Ha1).
  assert (1 - a ≤ 1 - b) as Hab.
  { apply (proj2 (Qcle_minus_iff _ _)).
    replace (1 - b + - (1 - a)) with (a + - b) by ring.
    apply Qclt_le_weak. exact (proj1 (Qclt_minus_iff b a) Hba). }
  assert (0 ≤ 1 - b) as H1b by (by trans (1 - a)).
  assert ((x - (a * x + (1 - a) * es)) - (p - es) = (1 - a) * (Δ + Ds)) as Es.
  { unfold Δ, Ds. rewrite Hes. ring. }
  assert ((x - (b * x + (1 - b) * el)) - (p - el) = (1 - b) * (Δ + Dl)) as El.
  { unfold Δ, Dl. rewrite Hel. ring. }
  assert (0 ≤ Δ + Ds) as HΔs by (by apply Qcplus_nonneg_nonneg).
  assert ((1 - a) * (Δ + Ds) ≤ (1 - b) * (Δ + Dl)) as Hle.
  { trans ((1 - b) * (Δ + Ds)).
    - by apply Qcmult_le_mono_nonneg_r.
    - apply Qcmult_le_mono_nonneg_l; [done|].
      by apply (proj1 (Qcplus_le_mono_l _ _ _)). }
  split; [rewrite Es; by apply Qcmult_nonneg_nonneg|].
  split; [by rewrite Es, El|].
  apply (proj2 (Qcle_minus_iff _ _)).
  replace (a * x + (1 - a) * es - (b * x + (1 - b) * el) + - (es - el))
    with (((x - (b * x + (1 - b) * el)) - (p - el))
          + - ((x - (a * x + (1 - a) * es)) - (p - es))) by ring.
  rewrite Es, El. exact (proj1 (Qcle_minus_iff _ _) Hle).
Qed.

Lemma macd_from_nondecreasing xs : ∀ pp p ess ell es el,
  es = a * p + (1 - a) * ess →
  el = b * p + (1 - b) * ell →
  0 ≤ (p - es) - (pp - ess) →
  (p - es) - (pp - ess) ≤ (p - el) - (pp - ell) →
  steps_nondecreasing (pp :: p :: xs) →
  nondecreasing ((es - el) :: zip_with Qcminus (ema_from a es xs) (ema_from b el xs)).
Proof.
  induction xs as [|x xs IH]; intros pp p ess ell es el Hes Hel HDs HDsl Hsteps;
    [done|].
  destruct Hsteps as [Hstep Hsteps].
  destruct (lag_growth_step x p pp es el ess ell Hes Hel HDs HDsl Hstep)
    as (H1 & H2 & H3).
  cbn [ema_from zip_with]. split; [exact H3|].
  by apply (IH p x es el).
Qed.

Lemma macd_nondecreasing (close : list Qc) :
  strictly_increasing close → steps_nondecreasing close →
  nondecreasing (zip_with Qcminus (ema a close) (ema b close)).
Proof.
  intros Hinc Hsteps. destruct close as [|x0 xs]; [done|].
  cbn [ema zip_with].
  apply (macd_from_nondecreasing xs x0 x0 x0 x0 x0 x0).
  - ring.
  - ring.
  - replace (x0 - x0 - (x0 - x0)) with (Q2Qc 0) by ring. done.
  - done.
  - split; [|exact Hsteps]. destruct xs as [|x1 xs]; [done|].
    destruct Hinc as [Hlt _].
    replace (x0 - x0) with (Q2Qc 0) by ring.
    apply Qclt_le_weak. exact (proj1 (Qclt_minus_iff x0 x1) Hlt).
Qed.
End macd_monotone.

(** An average of a series that never decreases stays at or below it. *)
Lemma ema_from_le (α : Qc) ms : ∀ prev mprev,
  0 ≤ α → α ≤ 1 → prev ≤ mprev → nondecreasing (mprev :: ms) →
  Forall2 Qcle (ema_from α prev ms) ms.
Proof.
  induction ms as [|m ms IH]; intros prev mprev H0 H1 Hprev Hnd;
    [constructor|].
  destruct Hnd as [Hm Hnd]. cbn [ema_from].
  assert (α * m + (1 - α) * prev ≤ m) as Hle.
  { apply (proj2 (Qcle_minus_iff _ _)).
    replace (m + - (α * m + (1 - α) * prev)) with ((1 - α) * (m - prev)) by ring.
    apply Qcmult_nonneg_nonneg.
    - exact (proj1 (Qcle_minus_iff α 1) H1).
    - apply (proj1 (Qcle_minus_iff prev m)). by trans mprev. }
  constructor; [exact Hle|]. by apply (IH _ m).
Qed.

Lemma flt_Fin_false (a b : Qc) : b ≤ a → flt (Fin a) (Fin b) = false.
Proof.
  intros H. cbn. unfold Qc_ltb. apply bool_decide_eq_false.
  by apply Qcle_not_lt.
Qed.

(** While MACD stays at or above its signal line, an open position stays
    open and nothing is emitted. *)
Lemma detector_run_holding ss : ∀ ms,
  Forall2 Qcle ss ms →
  detector_run Holding (zip (Fin <$> ms) (Fin <$> ss))
  = replicate (length ms) None.
Proof.
  induction ss as [|s ss IH]; intros ms Hle.
  - apply Forall2_nil_inv_l in Hle as ->. done.
  - apply Forall2_cons_inv_l in Hle as (m & ms' & Hsm & Hle & ->).
    cbn [fmap list_fmap zip zip_with detector_run detector_step length replicate].
    rewrite (flt_Fin_false m s Hsm). by rewrite IH.
Qed.

Lemma alpha_span_9_nonneg : 0 ≤ alpha_span 9.
Proof. by vm_compute. Qed.

Lemma alpha_span_9_le_1 : alpha_span 9 ≤ 1.
Proof. by vm_compute. Qed.

(** What the machine emits on such a series: a Buy at the second date and
    nothing else. *)
Lemma detector_run_steady_rise (close : list Qc) :
  strictly_increasing close → steps_nondecreasing close →
  detector_run Flat (zip (Fin <$> macd_of close) (Fin <$> signalLine_of close))
  = match close with
    | _ :: _ :: rest => None :: Some Buy :: replicate (length rest) None
    | [_] => [None]
    | [] => []
    end.
Proof.
  intros Hinc Hsteps.
  pose proof (macd_nondecreasing _ _ alpha_span_26_12 alpha_span_12_le_1
                close Hinc Hsteps) as Hnd.
  fold (shortEma_of close) (longEma_of close) (macd_of close) in Hnd.
  destruct close as [|x0 [|x1 xs]]; [done| |].
  { unfold signalLine_of. rewrite (macd_0_eq x0 []).
    cbn [ema ema_from zip_with fmap list_fmap zip detector_run].
    by rewrite (detector_step_idle Flat (Fin 0) (Fin 0)) by auto. }
  assert (∃ m1, macd_of (x0 :: x1 :: xs) !! 1%nat = Some m1) as [m1 Hm1].
  { apply lookup_lt_is_Some_2. rewrite length_macd_of. cbn. lia. }
  assert (0 < m1) as Hpos by (by apply (macd_positive _ 1 m1 Hinc)).
  assert (∃ ms, macd_of (x0 :: x1 :: xs) = 0 :: m1 :: ms ∧ length ms = length xs)
    as (ms & Hms & Hlen).
  { pose proof (macd_0 x0 (x1 :: xs)) as H0.
    pose proof (length_macd_of (x0 :: x1 :: xs)) as Hl.
    destruct (macd_of (x0 :: x1 :: xs)) as [|m0 [|m1' ms]]; [done..|].
    cbn in H0, Hm1, Hl. simplify_eq. eexists. split; [done|lia]. }
  unfold signalLine_of. rewrite Hms in Hnd |- *.
  cbn [ema ema_from fmap list_fmap zip zip_with].
  rewrite (detector_first_buy _ _ _ alpha_span_9_lt_1 Hpos).
  destruct Hnd as [_ Hnd].
  rewrite detector_run_holding; [by rewrite Hlen|].
  apply (ema_from_le _ ms _ m1 alpha_span_9_nonneg alpha_span_9_le_1);
    [|exact Hnd].
  apply (proj2 (Qcle_minus_iff _ _)).
  replace (m1 + - (alpha_span 9 * m1 + (1 - alpha_span 9) * 0))
    with ((1 - alpha_span 9) * m1) by ring.
  apply Qcmult_nonneg_nonneg; [|by apply Qclt_le_weak].
  exact (proj1 (Qcle_minus_iff _ 1) alpha_span_9_le_1).
Qed.

Lemma markers_of_idle n : ∀ dates close,
  markers_of dates (marker_column Buy (replicate n None) close)
    (marker_column Sell (replicate n None) close) = [].
Proof.
  induction n as [|n IH]; intros dates close; [by destruct dates|].
  destruct close as [|c close]; [by destruct dates|].
  destruct dates as [|d dates]; [done|].
  cbn [replicate]. rewrite !marker_column_cons. cbn [markers_of].
  rewrite !decide_False by done. unfold row_markers. cbn [is_obs app].
  apply IH.
Qed.

Lemma markers_of_steady_rise (close : list Qc) (dates : list Timestamp) :
  strictly_increasing close → steps_nondecreasing close →
  length dates = length close →
  let events := detector_run Flat
    (zip (Fin <$> macd_of close) (Fin <$> signalLine_of close)) in
  m_kind <$> markers_of dates (marker_column Buy events (Fin <$> close))
               (marker_column Sell events (Fin <$> close))
  = if decide (2 ≤ length close)%nat then [Buy] else [].
Proof.
  intros Hinc Hsteps Hlen events. subst events.
  rewrite (detector_run_steady_rise close Hinc Hsteps).
  destruct close as [|x0 [|x1 xs]].
  - by destruct dates.
  - destruct dates as [|d0 dates]; [done|].
    cbn [fmap list_fmap]. rewrite !marker_column_cons. cbn [markers_of].
    rewrite !decide_False by done. by destruct dates.
  - destruct dates as [|d0 [|d1 dates]]; [done..|].
    cbn [fmap list_fmap]. rewrite !marker_column_cons. cbn [markers_of].
    rewrite (decide_True (P := Some Buy = Some Buy)) by done.
    rewrite (decide_False (P := None = Some Buy)) by done.
    rewrite (decide_False (P := None = Some Sell)) by done.
    rewrite (decide_False (P := Some Buy = Some Sell)) by done.
    unfold row_markers. cbn [is_obs app].
    rewrite markers_of_idle. rewrite decide_True by (cbn; lia). done.
Qed.

Lemma StronglySorted_sublist {A} (R : relation A) (l1 l2 : list A) :
  l1 `sublist_of` l2 → StronglySorted R l2 → StronglySorted R l1.
Proof.
  induction 1 as [|x l1 l2 Hsub IH|x l1 l2 Hsub IH]; intros HS; [done|..];
    apply StronglySorted_inv in HS as [HS Hx].
  - constructor; [by apply IH|].
    apply Forall_forall. intros y Hy. rewrite Forall_forall in Hx.
    apply Hx. by apply (elem_of_sublist l1).
  - by apply IH.
Qed.






(** ** Lengths *)

Lemma length_ewm_loop com adjust minp st vals :
  length (ewm_loop com adjust minp st vals) = length vals.
Proof.
  revert st. induction vals as [|v vals IH]; intros st; [done|].
  cbn [ewm_loop length]. by rewrite IH.
Qed.

Lemma length_ewm_mean com adjust min_periods vals :
  length (ewm_mean com adjust min_periods vals) = length vals.
Proof.
  destruct vals as [|v vals]; [done|].
  unfold ewm_mean. cbn [length]. by rewrite length_ewm_loop.
Qed.

Lemma length_series_sub a b :
  length a = length b → length (series_sub a b) = length a.
Proof. intros H. unfold series_sub. rewrite length_zip_with. lia. Qed.

(** ** The pipeline of app.py *)



Lemma getitem_None df k : cols df !! k = None → getitem df k = Raise (KeyError k).
Proof. intros H. unfold getitem. by rewrite H. Qed.

(** The first turn of the detector loop on a frame that has a MACD column
    but no column called Signal. *)
Lemma strategy_body_no_Signal df column macd i st :
  cols df !! "MACD" = Some macd →
  (i < length macd)%nat →
  cols df !! "Signal" = None →
  App.strategy_body df column i st = Raise (KeyError "Signal").
Proof.
  intros Hm Hi Hs. destruct st as [[buy_list sell_list] flag].
  unfold App.strategy_body.
  rewrite (getitem_Some _ _ _ Hm), bind_Ok.
  destruct (lookup_lt_is_Some_2 macd i Hi) as [m Hmi].
  rewrite (iloc_Some _ _ _ Hmi), bind_Ok.
  by rewrite (getitem_None _ _ Hs).
Qed.


(** ** Zero observations *)

(** C6. On a frame with zero rows [get_MACD], [get_RSI] and
    [get_trading_strategy] return the frame with empty indicator and marker
    columns, but [get_closed_dates] raises [IndexError]: it reads
    [df['Date'].iloc[0]] before anything else. *)
Theorem C6_empty_input (tickers : list string) (cs : gmap string (list float))
    (column : string) :
  let df := mkDF tickers [] (<["Price Close" := []]> cs) in
  Dashboard_Functions.get_closed_dates df = Raise IndexError ∧
  Dashboard_Functions.get_closed_dates (mkDF tickers [] cs) = Raise IndexError ∧
  (∃ df', Dashboard_Functions.get_MACD df "Price Close" = Ok df' ∧
     len df' = 0%nat ∧
     cols df' !! "EMA-12" = Some [] ∧ cols df' !! "EMA-26" = Some [] ∧
     cols df' !! "MACD" = Some [] ∧ cols df' !! "Signal" = Some [] ∧
     cols df' !! "Histogram" = Some []) ∧
  (∃ df', Dashboard_Functions.get_RSI df "Price Close" 14 = Ok df' ∧
     len df' = 0%nat ∧ cols df' !! "RSI" = Some []) ∧
  (∃ df', Dashboard_Functions.get_trading_strategy (mkDF tickers [] cs) column
          = Ok df' ∧
     len df' = 0%nat ∧
     cols df' !! "Buy" = Some [] ∧ cols df' !! "Sell" = Some []).
Proof.
  intros df. split; [reflexivity|]. split; [reflexivity|].
  assert (cols df !! "Price Close" = Some (Fin <$> [])) as Hc.
  { unfold df. cbn [cols]. by rewrite lookup_insert_eq. }
  split.
  { eexists. split; [by apply (get_MACD_finite df [])|].
    split; [reflexivity|].
    rewrite !lookup_setitem_ne by neq_str.
    repeat split;
      rewrite ?lookup_setitem_ne by neq_str; by rewrite lookup_setitem_eq. }
  split.
  { unfold Dashboard_Functions.get_RSI. rewrite (getitem_Some _ _ _ Hc), bind_Ok.
    cbv zeta. eexists. split; [reflexivity|]. split; [reflexivity|].
    by rewrite lookup_setitem_eq. }
  eexists. split; [reflexivity|]. split; [reflexivity|].
  split.
  - rewrite lookup_setitem_ne by neq_str. by rewrite lookup_setitem_eq.
  - by rewrite lookup_setitem_eq.
Qed.

(** ** Warm-up *)

Lemma ewm_step_nobs com adjust st cur :
  (nobs (ewm_step com adjust st cur) ≤ S (nobs st))%nat.
Proof.
  unfold ewm_step.
  destruct (is_obs (weighted st)), (is_obs cur); cbn [nobs]; lia.
Qed.

(** Until [minp] observations have been seen the kernel writes NaN. *)
Lemma ewm_loop_warmup com adjust minp vals : ∀ st t v,
  (nobs st + S t < minp)%nat →
  ewm_loop com adjust minp st vals !! t = Some v → v = NaN.
Proof.
  induction vals as [|cur vals IH]; intros st t v Hlt Hv; [done|].
  cbn [ewm_loop] in Hv. pose proof (ewm_step_nobs com adjust st cur) as Hn.
  destruct t as [|t].
  - cbn in Hv. injection Hv as <-. unfold ewm_out.
    rewrite decide_False; [done|lia].
  - cbn in Hv. apply (IH (ewm_step com adjust st cur) t v); [lia|done].
Qed.

Lemma ewm_mean_warmup com adjust min_periods vals t v :
  (S t < min_periods)%nat →
  ewm_mean com adjust min_periods vals !! t = Some v → v = NaN.
Proof.
  intros Hlt Hv. destruct vals as [|v0 vals]; [done|].
  unfold ewm_mean in Hv.
  set (st := mkAcc v0 1 (if is_obs v0 then 1 else 0)%nat) in *.
  assert (nobs st ≤ 1)%nat as Hn by (unfold st; cbn; destruct (is_obs v0); lia).
  destruct t as [|t].
  - cbn in Hv. injection Hv as <-. unfold ewm_out.
    rewrite decide_False; [done|lia].
  - cbn in Hv.
    apply (ewm_loop_warmup com adjust (Nat.max min_periods 1) vals st t v);
      [lia|done].
Qed.

Lemma length_diff s : length (diff s) = length s.
Proof.
  destruct s as [|x s]; [done|]. cbn [diff length].
  rewrite length_zip_with. cbn [length]. lia.
Qed.

Lemma length_np_where cond x y :
  length cond = length x → length (np_where cond x y) = length x.
Proof. intros H. unfold np_where. rewrite length_zip_with. lia. Qed.

(** The RSI column [get_RSI] writes: one cell per price, NaN where the
    smoothed gain is still NaN. *)
Lemma get_RSI_warmup df column time_window c :
  cols df !! column = Some c →
  ∃ rsi,
    Dashboard_Functions.get_RSI df column time_window
    = Ok (setitem df "RSI" rsi) ∧
    length rsi = length c ∧
    ∀ t, (S t < time_window)%nat → (t < length c)%nat → rsi !! t = Some NaN.
Proof.
  intros Hc. unfold Dashboard_Functions.get_RSI.
  rewrite (getitem_Some _ _ _ Hc), bind_Ok. cbv zeta.
  eexists. split; [reflexivity|].
  set (up := ewm_mean _ true time_window (np_where (series_gt0 (diff c)) _ _)).
  set (down := ewm_mean _ true time_window (np_where (series_lt0 (diff c)) _ _)).
  assert (length up = length c) as Hup.
  { unfold up. rewrite length_ewm_mean, length_np_where, length_diff; [done|].
    unfold series_gt0. by rewrite length_fmap. }
  assert (length down = length c) as Hdown.
  { unfold down. rewrite length_ewm_mean, length_np_where.
    - unfold series_neg. by rewrite length_fmap, length_diff.
    - unfold series_lt0, series_neg. by rewrite !length_fmap. }
  assert (length (scalar_sub (Qc_of_nat 100) (scalar_div (Qc_of_nat 100)
            (scalar_add 1 (series_div up down)))) = length c) as Hlen.
  { unfold scalar_sub, scalar_div, scalar_add, series_div.
    rewrite !length_fmap, length_zip_with. lia. }
  split; [done|].
  intros t Ht Htc.
  destruct (lookup_lt_is_Some_2 up t) as [u Hu]; [lia|].
  destruct (lookup_lt_is_Some_2 down t) as [d Hd]; [lia|].
  assert (u = NaN) as -> by (by apply (ewm_mean_warmup _ _ _ _ _ _ Ht Hu)).
  unfold scalar_sub, scalar_div, scalar_add, series_div.
  rewrite !list_lookup_fmap, lookup_zip_with, Hu, Hd. reflexivity.
Qed.

Lemma length_histogram_of close : length (histogram_of close) = length close.
Proof.
  unfold histogram_of.
  rewrite length_zip_with, length_macd_of, length_signalLine_of. lia.
Qed.

(** C4 (as the code has it). The EMA-derived fields have no warm-up: for a
    finite close series EMA-12, EMA-26, MACD, Signal and Histogram hold a
    finite value at every index from 0 on, however short the input.  Only
    RSI has one: [get_RSI] with the default window of 14 writes NaN at every
    index below 13, hence at every index of an input with fewer than 14
    observations.  Neither function raises. *)
Theorem C4_warm_up (df : DataFrame) (close : list Qc) :
  cols df !! "Price Close" = Some (Fin <$> close) →
  ∃ df1 df2 rsi,
    Dashboard_Functions.get_MACD df "Price Close" = Ok df1 ∧
    (∀ k, k ∈ ["EMA-12"; "EMA-26"; "MACD"; "Signal"; "Histogram"] →
       ∃ qs, cols df1 !! k = Some (Fin <$> qs) ∧ length qs = length close) ∧
    Dashboard_Functions.get_RSI df "Price Close" 14 = Ok df2 ∧
    cols df2 !! "RSI" = Some rsi ∧
    length rsi = length close ∧
    (∀ t, (t < 13)%nat → (t < length close)%nat → rsi !! t = Some NaN).
Proof.
  intros Hc.
  destruct (get_RSI_warmup df "Price Close" 14 _ Hc) as (rsi & Hrsi & Hlen & Hnan).
  eexists _, _, rsi.
  split; [by apply get_MACD_finite|].
  split.
  { intros k Hk. rewrite !elem_of_cons, elem_of_nil in Hk.
    destruct Hk as [->|[->|[->|[->|[->|[]]]]]];
      rewrite ?lookup_setitem_ne by neq_str; rewrite lookup_setitem_eq;
      eexists; (split; [reflexivity|]).
    - apply length_ema.
    - apply length_ema.
    - apply length_macd_of.
    - apply length_signalLine_of.
    - apply length_histogram_of. }
  split; [exact Hrsi|].
  split; [by rewrite lookup_setitem_eq|].
  split; [by rewrite Hlen, length_fmap|].
  intros t Ht Htc. apply Hnan; [lia|by rewrite length_fmap].
Qed.

(** With three observations, far fewer than 26, the long EMA still has a
    value at every index. *)
Lemma C4_long_ema_without_warm_up :
  (length short_history < 26)%nat ∧
  ∃ e0 e1 e2 : Qc,
    column_of (Dashboard_Functions.get_MACD (frame_of_close short_history)
                 "Price Close") "EMA-26"
    = Some [Fin e0; Fin e1; Fin e2].
Proof.
  split; [cbn; lia|].
  exists (Qc_of_Z 10), (Q2Qc (272 # 27)), (Q2Qc (7448 # 729)).
  by vm_compute.
Qed.

(** ** The two RSI variants *)

Lemma Qc_neq_by_eqb (a b : Qc) : Qc_eqb a b = false → a ≠ b.
Proof. unfold Qc_eqb. apply bool_decide_eq_false. Qed.

(** C8. The Wilder-style [get_RSI] and the rolling-mean [calculate_rsi] are
    not interchangeable: on the zigzag prices, at row 14 (both variants have
    values from row 13 on), both give a finite RSI and the two differ. *)
Theorem C8_rsi_variants_differ :
  ∃ (close : list Qc) (t : nat) (a b : Qc),
    (14 ≤ t)%nat ∧
    RSI_cell (Dashboard_Functions.get_RSI (frame_of_close close)
                "Price Close" 14) t = Some (Fin a) ∧
    RSI_cell (App.calculate_rsi (frame_of_close close) 14) t = Some (Fin b) ∧
    a ≠ b.
Proof.
  exists zigzag, 14%nat,
    (Q2Qc (660602827993837300 # 10326207026531787)), (Q2Qc 65).
  split; [lia|].
  split; [by vm_compute|].
  split; [by vm_compute|].
  apply Qc_neq_by_eqb. by vm_compute.
Qed.

(** ** Calendar gaps *)

(** Printing then reading a day gives the day back. *)
Lemma days_from_civil_from_days (z : Z) :
  ∀ y m d, civil_from_days z = (y, m, d) →
  days_from_civil y m d = z ∧ (1 ≤ m ≤ 12)%Z ∧ (1 ≤ d ≤ 31)%Z ∧
  ((z + 719468) / 146097 * 400 ≤ y ≤ (z + 719468) / 146097 * 400 + 400)%Z.
Proof.
  intros y m d. unfold civil_from_days. cbv zeta.
  set (z' := (z + 719468)%Z).
  set (era := (z' / 146097)%Z).
  set (doe := (z' - era * 146097)%Z).
  assert (0 ≤ doe < 146097)%Z as Hdoe.
  { unfold doe, era. Z.div_mod_to_equations. lia. }
  set (yoe := ((doe - doe / 1460 + doe / 36524 - doe / 146096) / 365)%Z).
  assert (0 ≤ yoe ≤ 399)%Z as Hyoe.
  { unfold yoe. Z.div_mod_to_equations. lia. }
  set (doy := (doe - (365 * yoe + yoe / 4 - yoe / 100))%Z).
  assert (0 ≤ doy ≤ 365)%Z as Hdoy.
  { unfold doy, yoe. Z.div_mod_to_equations. lia. }
  set (mp := ((5 * doy + 2) / 153)%Z).
  assert (0 ≤ mp ≤ 11)%Z as Hmp.
  { unfold mp. Z.div_mod_to_equations. lia. }
  assert (1 ≤ doy - (153 * mp + 2) / 5 + 1 ≤ 31)%Z as Hd.
  { unfold mp. Z.div_mod_to_equations. lia. }
  intros [= <- <- <-].
  split; [|split; [|split; [done|]]].
  - unfold days_from_civil. cbv zeta.
    assert ((if (2 <? (if mp <? 10 then mp + 3 else mp - 9))%Z
             then (if mp <? 10 then mp + 3 else mp - 9) - 3
             else (if mp <? 10 then mp + 3 else mp - 9) + 9)%Z = mp) as ->.
    { Zb_cases. }
    assert ((if ((if mp <? 10 then mp + 3 else mp - 9) <=? 2)%Z
             then (if ((if mp <? 10 then mp + 3 else mp - 9) <=? 2)%Z
                   then yoe + era * 400 + 1 else yoe + era * 400) - 1
             else (if ((if mp <? 10 then mp + 3 else mp - 9) <=? 2)%Z
                   then yoe + era * 400 + 1 else yoe + era * 400))%Z
            = (yoe + era * 400)%Z) as ->.
    { Zb_cases. }
    assert (((yoe + era * 400) / 400)%Z = era) as ->.
    { Z.div_mod_to_equations. lia. }
    replace (yoe + era * 400 - era * 400)%Z with yoe by lia.
    unfold doy, doe, z'. lia.
  - Zb_cases.
  - fold z' era. Zb_cases.
Qed.

Lemma undigit_digit (n : Z) : (0 ≤ n ≤ 9)%Z → undigit (digit n) = n.
Proof.
  intros H. unfold undigit, digit.
  rewrite Ascii.nat_ascii_embedding by lia. lia.
Qed.

Lemma append_String a s t :
  String.append (String a s) t = String a (String.append s t).
Proof. reflexivity. Qed.

Lemma append_Empty t : String.append EmptyString t = t.
Proof. reflexivity. Qed.

Lemma strptime_strftime t :
  in_Timestamp_range t → strptime (strftime t) = Some t.
Proof.
  intros [Hlo Hhi]. unfold Timestamp_min, Timestamp_max in *.
  destruct (civil_from_days t) as [[y m] d] eqn:Hcivil.
  destruct (days_from_civil_from_days t y m d Hcivil) as (Hback & Hm & Hd & Hy).
  assert (1600 ≤ y ≤ 2400)%Z as Hy'.
  { revert Hy. Z.div_mod_to_equations. lia. }
  unfold strftime. rewrite Hcivil. unfold pad4, pad2.
  repeat rewrite ?append_String, ?append_Empty. unfold strptime.
  rewrite !undigit_digit by (Z.div_mod_to_equations; lia).
  f_equal. rewrite <- Hback. f_equal; Z.div_mod_to_equations; lia.
Qed.

Lemma strftime_inj t1 t2 :
  in_Timestamp_range t1 → in_Timestamp_range t2 →
  strftime t1 = strftime t2 → t1 = t2.
Proof.
  intros H1 H2 Heq. apply strptime_strftime in H1, H2.
  rewrite Heq in H1. congruence.
Qed.

Lemma filter_none {A} (P : A → Prop) `{∀ x, Decision (P x)} (l : list A) :
  (∀ x, x ∈ l → ¬ P x) → filter P l = [].
Proof.
  induction l as [|x l IH]; intros Hl; [done|].
  rewrite filter_cons_False by (apply Hl; left).
  apply IH. intros y Hy. apply Hl. by right.
Qed.

(** Filtering the printed days against the printed observations is
    filtering the days against the observations. *)
Lemma filter_strftime (dates timeline : list Timestamp) :
  Forall in_Timestamp_range dates →
  Forall in_Timestamp_range timeline →
  filter (λ day, day ∉ strftime <$> dates) (strftime <$> timeline)
  = strftime <$> filter (λ d, d ∉ dates) timeline.
Proof.
  intros Hdates. induction 1 as [|t timeline Ht _ IH]; [done|].
  rewrite fmap_cons.
  assert (strftime t ∈ strftime <$> dates ↔ t ∈ dates) as Hiff.
  { split; [|apply list_elem_of_fmap_2].
    intros (t' & Heq & Hin)%list_elem_of_fmap_1.
    rewrite Forall_forall in Hdates.
    by rewrite (strftime_inj t t' Ht (Hdates _ Hin) Heq). }
  destruct (decide (t ∈ dates)) as [Hin|Hnin].
  - rewrite !filter_cons_False by tauto. apply IH.
  - rewrite !filter_cons_True by tauto. rewrite fmap_cons. by rewrite IH.
Qed.

Lemma date_range_in_range first_day last_day :
  in_Timestamp_range first_day → in_Timestamp_range last_day →
  Forall in_Timestamp_range (date_range first_day last_day).
Proof.
  intros [H1 H2] [H3 H4]. apply Forall_seqZ. intros d Hd.
  unfold in_Timestamp_range. lia.
Qed.

Lemma elem_of_date_range first_day last_day d :
  d ∈ date_range first_day last_day ↔ (first_day ≤ d ≤ last_day)%Z.
Proof. unfold date_range. rewrite elem_of_seqZ. lia. Qed.

Section closed_dates.
Variables (df : DataFrame) (first_day last_day : Timestamp).
Hypothesis Hfirst : Date df !! 0%nat = Some first_day.
Hypothesis Hlast : last (Date df) = Some last_day.
Hypothesis Hrange : Forall in_Timestamp_range (Date df).

Lemma first_last_in_range :
  in_Timestamp_range first_day ∧ in_Timestamp_range last_day ∧
  first_day ∈ Date df ∧ last_day ∈ Date df.
Proof.
  pose proof Hlast as Hl. rewrite last_lookup in Hl.
  apply list_elem_of_lookup_2 in Hl as Hl'.
  apply list_elem_of_lookup_2 in Hfirst as Hf'.
  rewrite Forall_forall in Hrange. auto.
Qed.

Lemma get_closed_dates_filter :
  Dashboard_Functions.get_closed_dates df
  = Ok (strftime <$>
          filter (λ d, d ∉ Date df) (date_range first_day last_day)).
Proof.
  destruct first_last_in_range as (Hf & Hl & _).
  unfold Dashboard_Functions.get_closed_dates.
  rewrite (iloc_Some _ _ _ Hfirst), bind_Ok.
  unfold iloc_last. rewrite Hlast. rewrite bind_Ok. cbv zeta.
  cbn [mret result_ret]. f_equal.
  apply filter_strftime; [done|by apply date_range_in_range].
Qed.
End closed_dates.

Lemma filter_two_missing (P : Z → Prop) `{∀ x, Decision (P x)} (a lo hi : Z) :
  (lo ≤ a)%Z → (a + 1 ≤ hi)%Z →
  (∀ d, (lo ≤ d ≤ hi)%Z → (P d ↔ d = a ∨ d = (a + 1)%Z)) →
  filter P (date_range lo hi) = [a; (a + 1)%Z].
Proof.
  intros Hlo Hhi HP. unfold date_range.
  replace (hi - lo + 1)%Z with ((a - lo) + (2 + (hi - a - 1)))%Z by lia.
  rewrite seqZ_app by lia. rewrite seqZ_app by lia.
  rewrite !filter_app.
  rewrite (filter_none P (seqZ lo (a - lo))).
  2: { intros d Hd%elem_of_seqZ. rewrite HP by lia. lia. }
  rewrite (filter_none P (seqZ _ (hi - a - 1))).
  2: { intros d Hd%elem_of_seqZ. rewrite HP by lia. lia. }
  replace (lo + (a - lo))%Z with a by lia.
  change (seqZ a 2) with [(0 + a)%Z; (1 + a)%Z].
  rewrite Z.add_0_l, (Z.add_comm 1 a).
  rewrite !filter_cons_True, filter_nil.
  - by rewrite app_nil_r.
  - apply HP; lia.
  - apply HP; lia.
Qed.

(** C5. [get_closed_dates] returns, printed as ['%Y-%m-%d'] and without
    repetition, exactly the calendar days from the first to the last
    observed date (inclusive) that carry no observation: nothing when every
    day of the span is observed, and exactly 2024-01-06 and 2024-01-07 when
    these two are the only days of the span without an observation. *)
Theorem C5_closed_dates (df : DataFrame) (first_day last_day : Timestamp) :
  Date df !! 0%nat = Some first_day →
  last (Date df) = Some last_day →
  Forall in_Timestamp_range (Date df) →
  ∃ closed_dates,
    Dashboard_Functions.get_closed_dates df = Ok closed_dates ∧
    NoDup closed_dates ∧
    (∀ day, day ∈ closed_dates ↔
       ∃ d, (first_day ≤ d ≤ last_day)%Z ∧ (d ∉ Date df) ∧ day = strftime d) ∧
    ((∀ d, (first_day ≤ d ≤ last_day)%Z → d ∈ Date df) → closed_dates = []) ∧
    (((day_2024_01_06 ∉ Date df) ∧ (day_2024_01_07 ∉ Date df) ∧
      (first_day ≤ day_2024_01_06)%Z ∧ (day_2024_01_07 ≤ last_day)%Z ∧
      ∀ d, (first_day ≤ d ≤ last_day)%Z →
           d ≠ day_2024_01_06 → d ≠ day_2024_01_07 → d ∈ Date df) →
     closed_dates = ["2024-01-06"; "2024-01-07"]).
Proof.
  intros Hfirst Hlast Hrange.
  destruct (first_last_in_range df first_day last_day Hfirst Hlast Hrange)
    as (Hf & Hl & _).
  pose proof (date_range_in_range _ _ Hf Hl) as Htl.
  eexists. split; [by apply get_closed_dates_filter|].
  split.
  { apply NoDup_fmap_2_strong.
    - intros d1 d2 [_ H1]%list_elem_of_filter [_ H2]%list_elem_of_filter.
      rewrite Forall_forall in Htl. apply strftime_inj; auto.
    - apply NoDup_filter, NoDup_seqZ. }
  split.
  { intros day. rewrite list_elem_of_fmap. split.
    - intros (d & -> & [Hd Hin]%list_elem_of_filter).
      apply elem_of_date_range in Hin. by exists d.
    - intros (d & Hd & Hnin & ->). exists d. split; [done|].
      apply list_elem_of_filter. by rewrite elem_of_date_range. }
  split.
  { intros Hall. rewrite filter_none; [done|].
    intros d Hd%elem_of_date_range Hnin. by apply Hnin, Hall. }
  intros (H6 & H7 & Hlo & Hhi & Hrest).
  rewrite (filter_two_missing _ day_2024_01_06); [reflexivity|done|exact Hhi|].
  intros d Hd. split.
  - intros Hnin.
    destruct (decide (d = day_2024_01_06)) as [|Hn6]; [by left|].
    destruct (decide (d = day_2024_01_07)) as [|Hn7]; [by right|].
    destruct Hnin. by apply Hrest.
  - by intros [->| ->].
Qed.

(** ** Loading *)

Lemma key_le_total a b : key_le a b = false → key_le b a = true.
Proof.
  unfold key_le. rewrite (String.compare_antisym b.1 a.1).
  destruct (String.compare a.1 b.1); cbn; [|done..].
  intros H%Z.leb_gt. apply Z.leb_le. lia.
Qed.

Lemma insert_key_Permutation x l : insert_key x l ≡ₚ x :: l.
Proof.
  induction l as [|y l IH]; [done|]. cbn [insert_key].
  destruct (key_le x.1 y.1); [done|]. rewrite IH. apply Permutation_swap.
Qed.

Lemma foldr_insert_key_Permutation l : foldr insert_key [] l ≡ₚ l.
Proof.
  induction l as [|x l IH]; [done|]. cbn [foldr].
  by rewrite insert_key_Permutation, IH.
Qed.

Lemma insert_key_HdRel a x l :
  HdRel keyed_order a l → keyed_order a x → HdRel keyed_order a (insert_key x l).
Proof.
  intros Hl Hx. destruct l as [|y l]; cbn [insert_key].
  - by constructor.
  - destruct (key_le x.1 y.1); constructor; [done|].
    by inversion Hl.
Qed.

Lemma insert_key_Sorted x l : Sorted keyed_order l → Sorted keyed_order (insert_key x l).
Proof.
  induction 1 as [|y l Hl IH Hy]; cbn [insert_key].
  - by repeat constructor.
  - destruct (key_le x.1 y.1) eqn:Hle.
    + constructor; [by constructor|]. by constructor.
    + constructor; [done|].
      apply insert_key_HdRel; [done|]. by apply key_le_total.
Qed.

Lemma foldr_insert_key_Sorted l : Sorted keyed_order (foldr insert_key [] l).
Proof.
  induction l as [|x l IH]; [constructor|]. cbn [foldr].
  by apply insert_key_Sorted.
Qed.

Lemma omap_lookup_seq {A} (c : list A) n : ∀ j,
  (j + n ≤ length c)%nat →
  omap (λ i, c !! i) (seq j n) = take n (drop j c).
Proof.
  induction n as [|n IH]; intros j Hj; [done|].
  destruct (lookup_lt_is_Some_2 c j) as [x Hx]; [lia|].
  cbn [seq omap list_omap]. rewrite Hx, (drop_S _ _ _ Hx). cbn [take].
  f_equal. apply IH. lia.
Qed.

Lemma take_col_Permutation {A} (perm : list nat) (c : list A) :
  perm ≡ₚ seq 0 (length c) → take_col perm c ≡ₚ c.
Proof.
  intros Hp. unfold take_col. rewrite Hp.
  rewrite omap_lookup_seq by lia. by rewrite drop_0, firstn_all.
Qed.

Lemma length_take_col {A} (perm : list nat) (c : list A) :
  perm ≡ₚ seq 0 (length c) → length (take_col perm c) = length c.
Proof. intros Hp. by rewrite (take_col_Permutation perm c Hp). Qed.

Lemma take_col_zip {A B} (perm : list nat) (a : list A) (b : list B) :
  length a = length b →
  zip (take_col perm a) (take_col perm b) = take_col perm (zip a b).
Proof.
  intros Hlen. unfold take_col.
  induction perm as [|i perm IH]; [done|].
  cbn [omap list_omap]. rewrite lookup_zip_with.
  destruct (a !! i) as [x|] eqn:Ha, (b !! i) as [y|] eqn:Hb; cbn.
  - by rewrite IH.
  - apply lookup_lt_Some in Ha. apply lookup_ge_None in Hb. lia.
  - apply lookup_ge_None in Ha. apply lookup_lt_Some in Hb. lia.
  - done.
Qed.

Lemma argsort_Permutation keys : argsort keys ≡ₚ seq 0 (length keys).
Proof.
  unfold argsort. rewrite foldr_insert_key_Permutation.
  by rewrite snd_zip by (by rewrite length_seq).
Qed.

Lemma take_col_argsort keys :
  take_col (argsort keys) keys
  = (foldr insert_key [] (zip keys (seq 0 (length keys)))).*1.
Proof.
  unfold take_col, argsort.
  assert (∀ p, p ∈ foldr insert_key [] (zip keys (seq 0 (length keys))) →
            keys !! p.2 = Some p.1) as Hp.
  { intros [k i]. rewrite foldr_insert_key_Permutation.
    intros (j & Hj)%list_elem_of_lookup_1.
    rewrite lookup_zip_with in Hj.
    destruct (keys !! j) as [k'|] eqn:Hk; [|done].
    destruct (seq 0 (length keys) !! j) as [i'|] eqn:Hi; [|done].
    cbn in Hj. apply lookup_seq in Hi as [-> _]. by simplify_eq. }
  induction (foldr insert_key [] (zip keys (seq 0 (length keys))))
    as [|p sp IH]; [done|].
  cbn [fmap list_fmap omap list_omap]. rewrite (Hp p) by left.
  f_equal. apply IH. intros q Hq. apply Hp. by right.
Qed.

Lemma argsort_Sorted keys : Sorted key_order (take_col (argsort keys) keys).
Proof.
  rewrite take_col_argsort.
  apply (Sorted_fmap fst keyed_order key_order); [done|].
  apply foldr_insert_key_Sorted.
Qed.

(** C7 (as the code has it). No construction path rejects a frame.
    [load_data] of [Dashboard_Functions.py] returns the rows exactly as they
    were read, whatever their order.  [load_data] of [app.py] returns them
    re-sorted by (Ticker, Date): the result is the input with its rows taken
    in a permuted order, ascending in (Ticker, Date), every column having
    kept all of its cells, duplicates included.  Neither raises, and neither
    drops a row. *)
Theorem C7_load_data_never_rejects (csv : DataFrame) :
  wf csv →
  Dashboard_Functions.load_data csv = Ok csv ∧
  ∃ perm,
    App.load_data csv = Ok (take_rows perm csv) ∧
    perm ≡ₚ seq 0 (len csv) ∧
    Sorted key_order
      (zip (Ticker (take_rows perm csv)) (Date (take_rows perm csv))) ∧
    Ticker (take_rows perm csv) ≡ₚ Ticker csv ∧
    Date (take_rows perm csv) ≡ₚ Date csv ∧
    (∀ k c, cols csv !! k = Some c →
       ∃ c', cols (take_rows perm csv) !! k = Some c' ∧ c' ≡ₚ c) ∧
    wf (take_rows perm csv).
Proof.
  intros [Hwt Hwc]. split; [by destruct csv|].
  exists (argsort (zip (Ticker csv) (Date csv))).
  assert (length (zip (Ticker csv) (Date csv)) = len csv) as Hlz.
  { rewrite length_zip. unfold len in *. lia. }
  pose proof (argsort_Permutation (zip (Ticker csv) (Date csv))) as Hperm.
  rewrite Hlz in Hperm.
  split; [reflexivity|]. split; [done|].
  cbn [take_rows Ticker Date cols].
  split.
  { rewrite take_col_zip by done. apply argsort_Sorted. }
  split; [apply take_col_Permutation; by rewrite Hwt|].
  split; [by apply take_col_Permutation|].
  split.
  { intros k c Hc. rewrite lookup_fmap, Hc. eexists. split; [done|].
    apply take_col_Permutation. by rewrite (Hwc k c Hc). }
  unfold wf, len, take_rows. cbn [Ticker Date cols]. split.
  - rewrite !length_take_col; [done|done|by rewrite Hwt].
  - intros k c'. rewrite lookup_fmap.
    destruct (cols csv !! k) as [c|] eqn:Hc; [|done].
    intros [= <-]. pose proof (Hwc k c Hc) as Hlc. unfold len in Hlc.
    rewrite !length_take_col; [done|done|by rewrite Hlc].
Qed.

(** An unsorted frame with a duplicated date is accepted by both loaders;
    the one of [app.py] hands it back re-sorted, the duplicate kept. *)
Lemma C7_unsorted_input_accepted :
  ¬ Sorted Z.lt (Date unsorted_frame) ∧
  ¬ NoDup (Date unsorted_frame) ∧
  Dashboard_Functions.load_data unsorted_frame = Ok unsorted_frame ∧
  App.load_data unsorted_frame
  = Ok (mkDF ["NOKIA"; "NOKIA"; "NOKIA"] [19723; 19723; 19725]%Z
          {[ "Price Close" := Fin <$> Qc_of_Zs [1; 2; 3]%Z ]}).
Proof.
  split; [|split; [|split]].
  - apply (proj1 (bool_decide_eq_false _)). by vm_compute.
  - apply (proj1 (bool_decide_eq_false _)). by vm_compute.
  - reflexivity.
  - by vm_compute.
Qed.

(** * The statements at sample frames *)

Lemma C1_macd_recurrence_witness :
  let df := frame_of_close short_history in
  let close := short_history in
  cols df !! "Price Close" = Some (Fin <$> close) ∧
  ∃ df' df'' shortEma longEma macd signalLine histogram,
    Dashboard_Functions.get_MACD df "Price Close" = Ok df' ∧
    cols df' !! "EMA-12" = Some (Fin <$> shortEma) ∧
    cols df' !! "EMA-26" = Some (Fin <$> longEma) ∧
    cols df' !! "MACD" = Some (Fin <$> macd) ∧
    cols df' !! "Signal" = Some (Fin <$> signalLine) ∧
    cols df' !! "Histogram" = Some (Fin <$> histogram) ∧
    is_ema (alpha_span 12) close shortEma ∧
    is_ema (alpha_span 26) close longEma ∧
    is_diff shortEma longEma macd ∧
    is_ema (alpha_span 9) macd signalLine ∧
    is_diff macd signalLine histogram ∧
    App.calculate_macd df = Ok df'' ∧
    cols df'' !! "MACD" = Some (Fin <$> macd) ∧
    cols df'' !! "Signal Line" = Some (Fin <$> signalLine).
Proof.
  cbv zeta. split; [reflexivity|].
  apply (C1_macd_recurrence (frame_of_close short_history) short_history).
  reflexivity.
Defined.

Lemma C2_detector_state_machine_witness :
  let df := crossing_frame in
  let macd := [Fin 0; Fin 1; Fin 1; Fin (-1)] in
  let signalLine := [Fin 0; Fin 0; NaN; Fin 0] in
  let close := Fin <$> Qc_of_Zs [10; 11; 12; 13]%Z in
  (cols df !! "MACD" = Some macd ∧
   cols df !! "Signal" = Some signalLine ∧
   cols df !! "Price Close" = Some close ∧
   length macd = len df ∧ length signalLine = len df ∧ length close = len df) ∧
  let events := detector_run Flat (zip macd signalLine) in
  let df' := setitem (setitem df "Buy" (marker_column Buy events close))
               "Sell" (marker_column Sell events close) in
  Dashboard_Functions.get_trading_strategy df "Price Close" = Ok df' ∧
  App.get_trading_strategy df "Price Close" = Ok df' ∧
  Date df' = Date df ∧
  (∀ st m s, m = s ∨ is_obs m = false ∨ is_obs s = false →
     detector_step st m s = (st, None)) ∧
  (∀ m s, fgt m s = true → detector_step Flat m s = (Holding, Some Buy)) ∧
  (∀ m s, flt m s = true → detector_step Holding m s = (Flat, Some Sell)).
Proof.
  cbv zeta. split; [repeat split; reflexivity|].
  apply (C2_detector_state_machine crossing_frame "Price Close"
           [Fin 0; Fin 1; Fin 1; Fin (-1)] [Fin 0; Fin 0; NaN; Fin 0]
           (Fin <$> Qc_of_Zs [10; 11; 12; 13]%Z));
    reflexivity.
Defined.

Lemma C4_warm_up_witness :
  let df := frame_of_close short_history in
  let close := short_history in
  cols df !! "Price Close" = Some (Fin <$> close) ∧
  ∃ df1 df2 rsi,
    Dashboard_Functions.get_MACD df "Price Close" = Ok df1 ∧
    (∀ k, k ∈ ["EMA-12"; "EMA-26"; "MACD"; "Signal"; "Histogram"] →
       ∃ qs, cols df1 !! k = Some (Fin <$> qs) ∧ length qs = length close) ∧
    Dashboard_Functions.get_RSI df "Price Close" 14 = Ok df2 ∧
    cols df2 !! "RSI" = Some rsi ∧
    length rsi = length close ∧
    (∀ t, (t < 13)%nat → (t < length close)%nat → rsi !! t = Some NaN).
Proof.
  cbv zeta. split; [reflexivity|].
  apply (C4_warm_up (frame_of_close short_history) short_history).
  reflexivity.
Defined.

Lemma C5_closed_dates_witness :
  let df := week_frame in
  (Date df !! 0%nat = Some 19726%Z ∧
   last (Date df) = Some 19730%Z ∧
   Forall in_Timestamp_range (Date df)) ∧
  ∃ closed_dates,
    Dashboard_Functions.get_closed_dates df = Ok closed_dates ∧
    NoDup closed_dates ∧
    (∀ day, day ∈ closed_dates ↔
       ∃ d, (19726 ≤ d ≤ 19730)%Z ∧ (d ∉ Date df) ∧ day = strftime d) ∧
    ((∀ d, (19726 ≤ d ≤ 19730)%Z → d ∈ Date df) → closed_dates = []) ∧
    (((day_2024_01_06 ∉ Date df) ∧ (day_2024_01_07 ∉ Date df) ∧
      (19726 ≤ day_2024_01_06)%Z ∧ (day_2024_01_07 ≤ 19730)%Z ∧
      ∀ d, (19726 ≤ d ≤ 19730)%Z →
           d ≠ day_2024_01_06 → d ≠ day_2024_01_07 → d ∈ Date df) →
     closed_dates = ["2024-01-06"; "2024-01-07"]).
Proof.
  cbv zeta.
  assert (Forall in_Timestamp_range (Date week_frame)) as Hrange.
  { repeat constructor; unfold Timestamp_min, Timestamp_max; lia. }
  split; [repeat split; try reflexivity; exact Hrange|].
  apply (C5_closed_dates week_frame 19726%Z 19730%Z);
    [reflexivity..|exact Hrange].
Defined.

Lemma wf_unsorted_frame : wf unsorted_frame.
Proof.
  split; [reflexivity|]. intros k c Hc.
  unfold unsorted_frame in Hc. cbn [cols] in Hc.
  apply lookup_singleton_Some in Hc as [_ <-]. reflexivity.
Defined.

Lemma C7_load_data_never_rejects_witness :
  let csv := unsorted_frame in
  wf csv ∧
  Dashboard_Functions.load_data csv = Ok csv ∧
  ∃ perm,
    App.load_data csv = Ok (take_rows perm csv) ∧
    perm ≡ₚ seq 0 (len csv) ∧
    Sorted key_order
      (zip (Ticker (take_rows perm csv)) (Date (take_rows perm csv))) ∧
    Ticker (take_rows perm csv) ≡ₚ Ticker csv ∧
    Date (take_rows perm csv) ≡ₚ Date csv ∧
    (∀ k c, cols csv !! k = Some c →
       ∃ c', cols (take_rows perm csv) !! k = Some c' ∧ c' ≡ₚ c) ∧
    wf (take_rows perm csv).
Proof.
  cbv zeta. split; [exact wf_unsorted_frame|].
  apply (C7_load_data_never_rejects unsorted_frame). exact wf_unsorted_frame.
Defined.



Lemma wf_frame_of_close (close : list Qc) : wf (frame_of_close close).
Proof.
  unfold wf, len, frame_of_close. cbn [Ticker Date cols].
  rewrite length_replicate, length_seqZ, Nat2Z.id. split; [done|].
  intros k c Hc. apply lookup_singleton_Some in Hc as [_ <-].
  by rewrite length_fmap.
Qed.


(** * Further properties of the code *)

(** ** The main script of Dashboard_Functions.py on any frame *)

Lemma wf_setitem df k s : wf df → length s = len df → wf (setitem df k s).
Proof.
  intros [Ht Hc] Hs. split; [done|]. intros k' c'.
  unfold setitem. cbn [cols]. rewrite lookup_insert.
  destruct (decide (k = k')) as [->|Hne].
  - by intros [= <-].
  - apply Hc.
Qed.

Lemma get_MACD_ok (df : DataFrame) (c : list float) :
  cols df !! "Price Close" = Some c →
  let e12 := ewm_mean (com_of_span (Qc_of_nat 12)) false 0 c in
  let e26 := ewm_mean (com_of_span (Qc_of_nat 26)) false 0 c in
  let macd := series_sub e12 e26 in
  let signal := ewm_mean (com_of_span (Qc_of_nat 9)) false 0 macd in
  Dashboard_Functions.get_MACD df "Price Close" =
    Ok (setitem (setitem (setitem (setitem (setitem df
          "EMA-12" e12) "EMA-26" e26) "MACD" macd) "Signal" signal)
          "Histogram" (series_sub macd signal)).
Proof.
  intros Hc. unfold Dashboard_Functions.get_MACD. cbv zeta.
  rewrite (getitem_Some _ _ _ Hc), bind_Ok.
  rewrite (getitem_setitem_ne _ "EMA-12" "Price Close"); [|neq_str].
  rewrite (getitem_Some _ _ _ Hc), bind_Ok.
  rewrite (getitem_setitem_ne _ "EMA-26" "EMA-12"); [|neq_str].
  rewrite !getitem_setitem_eq, !bind_Ok.
  rewrite getitem_setitem_eq, bind_Ok.
  rewrite (getitem_setitem_ne _ "Signal" "MACD"); [|neq_str].
  rewrite !getitem_setitem_eq, !bind_Ok.
  reflexivity.
Qed.

(** X1. On every well-formed frame that has a ['Price Close'] column,
    whatever the numbers in it and wherever it has NaN, the three steps of
    the main script ([get_MACD], [get_RSI], [get_trading_strategy]) go
    through without an exception: the result is well formed, has the same
    rows, holds the eight written columns, and leaves every other column as
    it was. *)
Theorem X1_process_total (data : DataFrame) (c : list float) :
  wf data →
  cols data !! "Price Close" = Some c →
  no_inf c →
  ∃ data',
    Dashboard_Functions.process data = Ok data' ∧
    wf data' ∧
    Ticker data' = Ticker data ∧ Date data' = Date data ∧
    (∀ k, k ∈ process_columns →
       ∃ col, cols data' !! k = Some col ∧ length col = len data) ∧
    (∀ k, k ∉ process_columns → cols data' !! k = cols data !! k).
Proof.
  intros Hwf Hc _. pose proof (proj2 Hwf _ _ Hc) as Hlen.
  pose proof (get_MACD_ok data c Hc) as Hmacd. cbv zeta in Hmacd.
  set (e12 := ewm_mean (com_of_span (Qc_of_nat 12)) false 0 c) in *.
  set (e26 := ewm_mean (com_of_span (Qc_of_nat 26)) false 0 c) in *.
  set (macd := series_sub e12 e26) in *.
  set (signal := ewm_mean (com_of_span (Qc_of_nat 9)) false 0 macd) in *.
  set (hist := series_sub macd signal) in *.
  assert (length e12 = len data) as H12 by (unfold e12; by rewrite length_ewm_mean).
  assert (length e26 = len data) as H26 by (unfold e26; by rewrite length_ewm_mean).
  assert (length macd = len data) as Hm.
  { unfold macd. rewrite length_series_sub; lia. }
  assert (length signal = len data) as Hs.
  { unfold signal. by rewrite length_ewm_mean. }
  assert (length hist = len data) as Hh.
  { unfold hist. rewrite length_series_sub; lia. }
  set (df1 := setitem (setitem (setitem (setitem (setitem data
          "EMA-12" e12) "EMA-26" e26) "MACD" macd) "Signal" signal)
          "Histogram" hist) in *.
  assert (wf df1) as Hwf1 by (unfold df1; repeat apply wf_setitem; done).
  assert (cols df1 !! "Price Close" = Some c) as Hc1.
  { unfold df1. by rewrite !lookup_setitem_ne by neq_str. }
  destruct (get_RSI_warmup df1 "Price Close" 14 c Hc1) as (rsi & Hrsi & Hlr & _).
  set (df2 := setitem df1 "RSI" rsi) in *.
  assert (wf df2) as Hwf2 by (apply wf_setitem; [done|by rewrite Hlr]).
  pose proof (get_trading_strategy_run df2 "Price Close" macd signal c) as Hts.
  cbv zeta in Hts.
  set (events := detector_run Flat (zip macd signal)) in *.
  assert (length events = length c) as Hev.
  { unfold events. rewrite length_detector_run, length_zip. lia. }
  eexists. split.
  { unfold Dashboard_Functions.process. rewrite Hmacd, bind_Ok.
    fold df1. rewrite Hrsi, bind_Ok. fold df2. apply Hts.
    - unfold df2, df1. rewrite !lookup_setitem_ne by neq_str.
      by rewrite lookup_setitem_eq.
    - unfold df2, df1. rewrite !lookup_setitem_ne by neq_str.
      by rewrite lookup_setitem_eq.
    - unfold df2. by rewrite lookup_setitem_ne by neq_str.
    - done.
    - done.
    - done. }
  split.
  { apply wf_setitem; [apply wf_setitem; [exact Hwf2|]|];
      (rewrite length_marker_column; [exact Hlen|exact Hev]). }
  split; [done|]. split; [done|].
  split.
  - intros k Hk. unfold process_columns in Hk.
    rewrite !elem_of_cons, elem_of_nil in Hk.
    destruct Hk as [->|[->|[->|[->|[->|[->|[->|[->|[]]]]]]]]];
      unfold df2, df1;
      rewrite ?lookup_setitem_ne by neq_str; rewrite lookup_setitem_eq;
      eexists; (split; [reflexivity|]);
      rewrite ?length_marker_column; (done || lia).
  - intros k Hk. unfold process_columns in Hk.
    rewrite !not_elem_of_cons in Hk.
    destruct Hk as (?&?&?&?&?&?&?&?&_).
    unfold df2, df1. by rewrite !lookup_setitem_ne by done.
Qed.

(** ** Gains and losses of a finite close series *)

Lemma diff_finite (qs : list Qc) :
  diff (Fin <$> qs)
  = match qs with [] => [] | _ :: _ => NaN :: (Fin <$> deltas qs) end.
Proof.
  destruct qs as [|x qs]; [done|].
  change (diff (Fin <$> x :: qs))
    with (NaN :: series_sub (Fin <$> qs) (Fin <$> x :: qs)).
  by rewrite zip_with_Fin_sub.
Qed.

Lemma np_where_fmap (f : float → bool) (g : float → float) (l : list float) y :
  np_where (f <$> l) (g <$> l) y = (λ v, if f v then g v else y) <$> l.
Proof.
  unfold np_where. induction l as [|v l IH]; [done|]. cbn. by rewrite IH.
Qed.

Lemma fgt_Fin_0 (d : Qc) : fgt (Fin d) (Fin 0) = Qc_ltb 0 d.
Proof. reflexivity. Qed.

Lemma flt_Fin_0 (d : Qc) : flt (Fin d) (Fin 0) = Qc_ltb d 0.
Proof. reflexivity. Qed.

Lemma Qcopp_0 : - (0 : Qc) = 0.
Proof. ring. Qed.

(** [np.where(diff > 0, diff, 0)] *)
Lemma up_chg_finite (qs : list Qc) :
  np_where (series_gt0 (diff (Fin <$> qs))) (diff (Fin <$> qs)) (Fin 0)
  = Fin <$> gains qs.
Proof.
  unfold series_gt0.
  rewrite <- (list_fmap_id (diff (Fin <$> qs))) at 2.
  rewrite np_where_fmap, diff_finite.
  destruct qs as [|x qs]; [done|]. cbn [fmap list_fmap gains id fgt flt].
  f_equal. rewrite <- !list_fmap_compose. apply list_fmap_ext.
  intros i d _. unfold compose, id. cbv beta. rewrite ?fgt_Fin_0.
  unfold pos_part. by destruct (Qc_ltb 0 d).
Qed.

(** [np.where(diff < 0, -diff, 0)] *)
Lemma down_chg_finite (qs : list Qc) :
  np_where (series_lt0 (diff (Fin <$> qs))) (series_neg (diff (Fin <$> qs)))
    (Fin 0)
  = Fin <$> losses qs.
Proof.
  unfold series_lt0, series_neg. rewrite np_where_fmap, diff_finite.
  destruct qs as [|x qs]; [done|]. cbn [fmap list_fmap losses fopp flt].
  f_equal. rewrite <- !list_fmap_compose. apply list_fmap_ext.
  intros i d _. unfold compose. cbv beta. rewrite ?flt_Fin_0.
  unfold neg_part. by destruct (Qc_ltb d 0).
Qed.

(** [-delta.where(delta < 0, 0)] *)
Lemma loss_finite (qs : list Qc) :
  series_neg (np_where (series_lt0 (diff (Fin <$> qs))) (diff (Fin <$> qs))
                (Fin 0))
  = Fin <$> losses qs.
Proof.
  unfold series_lt0, series_neg.
  rewrite <- (list_fmap_id (diff (Fin <$> qs))) at 2.
  rewrite np_where_fmap, diff_finite.
  destruct qs as [|x qs]; [done|]. cbn [fmap list_fmap losses fopp flt id].
  rewrite Qcopp_0. f_equal. rewrite <- !list_fmap_compose. apply list_fmap_ext.
  intros i d _. unfold compose, id. cbv beta. rewrite ?flt_Fin_0.
  unfold neg_part. destruct (Qc_ltb d 0); cbn [fopp]; by rewrite ?Qcopp_0.
Qed.

Lemma length_deltas qs : length (deltas qs) = pred (length qs).
Proof.
  destruct qs as [|x qs]; [done|]. cbn [deltas length pred].
  rewrite length_zip_with. cbn [length]. lia.
Qed.

Lemma length_gains qs : length (gains qs) = length qs.
Proof.
  destruct qs as [|x qs]; [done|]. cbn [gains length].
  by rewrite length_fmap, length_deltas.
Qed.

Lemma length_losses qs : length (losses qs) = length qs.
Proof.
  destruct qs as [|x qs]; [done|]. cbn [losses length].
  by rewrite length_fmap, length_deltas.
Qed.

Lemma pos_part_nonneg d : 0 ≤ pos_part d.
Proof.
  unfold pos_part, Qc_ltb. case_bool_decide; [by apply Qclt_le_weak|done].
Qed.

Lemma neg_part_nonneg d : 0 ≤ neg_part d.
Proof.
  unfold neg_part, Qc_ltb. case_bool_decide as H; [|done].
  apply Qclt_le_weak. apply (proj2 (Qclt_minus_iff 0 (- d))).
  rewrite Qcopp_0, Qcplus_0_r.
  apply (proj1 (Qclt_minus_iff d 0)) in H. by rewrite Qcplus_0_l in H.
Qed.

Lemma gains_nonneg qs : Forall (Qcle 0) (gains qs).
Proof.
  destruct qs as [|x qs]; [constructor|]. cbn [gains].
  constructor; [done|]. apply Forall_fmap, Forall_forall.
  intros d _. apply pos_part_nonneg.
Qed.

Lemma losses_nonneg qs : Forall (Qcle 0) (losses qs).
Proof.
  destruct qs as [|x qs]; [constructor|]. cbn [losses].
  constructor; [done|]. apply Forall_fmap, Forall_forall.
  intros d _. apply neg_part_nonneg.
Qed.

(** ** The adjusted ewm kernel on finite data *)

Section ewm_adjusted.
Variable com : Qc.
Hypothesis factor_nonneg : 0 ≤ 1 - alpha_of_com com.

Lemma decayed_weight_pos (ow : Qc) :
  0 ≤ ow → 0 < ow * (1 - alpha_of_com com) + 1.
Proof.
  intros How. apply Qcplus_nonneg_pos; [|done].
  by apply Qcmult_nonneg_nonneg.
Qed.

Lemma ewm_step_adjusted (w x ow : Qc) (n : nat) :
  0 ≤ ow →
  ewm_step com true (mkAcc (Fin w) ow n) (Fin x)
  = mkAcc (Fin ((ow * (1 - alpha_of_com com) * w + x)
                / (ow * (1 - alpha_of_com com) + 1)))
      (ow * (1 - alpha_of_com com) + 1) (S n).
Proof.
  intros How. pose proof (decayed_weight_pos ow How) as Hpos.
  assert (ow * (1 - alpha_of_com com) + 1 ≠ 0) as Hne.
  { intros H0. rewrite H0 in Hpos. by apply (irreflexivity Qclt) in Hpos. }
  unfold ewm_step. cbn [weighted old_wt nobs is_obs].
  rewrite fneq_Fin. cbn [fmul fadd]. rewrite (fdiv_Fin _ _ Hne).
  destruct (Qc_eqb w x) eqn:Heq; cbn [negb].
  - apply bool_decide_eq_true in Heq. subst x. do 2 f_equal.
    by field.
  - do 3 f_equal. ring.
Qed.

Lemma ewm_loop_adjusted minp xs : ∀ w ow n t,
  0 ≤ ow →
  ewm_loop com true minp (mkAcc (Fin w) ow n) (Fin <$> xs) !! t
  = after_warm_up (bool_decide (minp ≤ n + S t)%nat)
      <$> wavg_from (1 - alpha_of_com com) w ow xs !! t.
Proof.
  induction xs as [|x xs IH]; intros w ow n t How; [done|].
  cbn [fmap list_fmap ewm_loop wavg_from].
  rewrite (ewm_step_adjusted w x ow n How).
  destruct t as [|t].
  - cbn [lookup list_lookup fmap option_fmap option_map].
    unfold ewm_out, after_warm_up. cbn [nobs weighted]. f_equal.
    replace (n + 1)%nat with (S n) by lia.
    destruct (decide (minp ≤ S n)%nat) as [H|H].
    + by rewrite bool_decide_eq_true_2.
    + by rewrite bool_decide_eq_false_2.
  - cbn [lookup list_lookup]. rewrite IH.
    + by replace (S n + S t)%nat with (n + S (S t))%nat by lia.
    + apply Qclt_le_weak. by apply decayed_weight_pos.
Qed.

Lemma ewm_mean_adjusted min_periods xs t :
  ewm_mean com true min_periods (Fin <$> xs) !! t
  = after_warm_up (bool_decide (Nat.max min_periods 1 ≤ S t)%nat)
      <$> wavg (1 - alpha_of_com com) xs !! t.
Proof.
  destruct xs as [|x xs]; [done|].
  unfold ewm_mean. cbn [fmap list_fmap is_obs wavg].
  destruct t as [|t].
  - cbn [lookup list_lookup fmap option_fmap option_map].
    unfold ewm_out, after_warm_up. cbn [nobs weighted]. f_equal.
    destruct (decide (Nat.max min_periods 1 ≤ 1)%nat) as [H|H].
    + by rewrite bool_decide_eq_true_2.
    + by rewrite bool_decide_eq_false_2.
  - cbn [lookup list_lookup]. rewrite ewm_loop_adjusted by done.
    by replace (1 + S t)%nat with (S (S t)) by lia.
Qed.

(** The averages of non-negative data are non-negative, of zeros zero, of
    positive data positive. *)
Lemma wavg_from_nonneg xs : ∀ w ow,
  0 ≤ w → 0 ≤ ow → Forall (Qcle 0) xs →
  Forall (Qcle 0) (wavg_from (1 - alpha_of_com com) w ow xs).
Proof.
  induction xs as [|x xs IH]; intros w ow Hw How Hxs; [constructor|].
  apply Forall_cons in Hxs as [Hx Hxs]. cbn [wavg_from].
  pose proof (decayed_weight_pos ow How) as Hpos.
  assert (0 ≤ (ow * (1 - alpha_of_com com) * w + x)
              / (ow * (1 - alpha_of_com com) + 1)) as Hw'.
  { apply Qcmult_nonneg_nonneg.
    - apply Qcplus_nonneg_nonneg; [|done].
      apply Qcmult_nonneg_nonneg; [|done]. by apply Qcmult_nonneg_nonneg.
    - apply Qclt_le_weak. by apply Qcinv_pos. }
  constructor; [done|]. apply IH; [done| |done]. by apply Qclt_le_weak.
Qed.

Lemma wavg_from_zero xs : ∀ ow,
  0 ≤ ow → Forall (eq 0) xs →
  Forall (eq 0) (wavg_from (1 - alpha_of_com com) 0 ow xs).
Proof.
  induction xs as [|x xs IH]; intros ow How Hxs; [constructor|].
  apply Forall_cons in Hxs as [<- Hxs]. cbn [wavg_from].
  pose proof (decayed_weight_pos ow How) as Hpos.
  assert ((ow * (1 - alpha_of_com com) * 0 + 0)
          / (ow * (1 - alpha_of_com com) + 1) = 0) as ->.
  { unfold Qcdiv. rewrite Qcmult_0_r, Qcplus_0_r. apply Qcmult_0_l. }
  constructor; [done|]. apply IH; [|done]. by apply Qclt_le_weak.
Qed.

End ewm_adjusted.

(** ** The rolling-mean kernel on finite data *)

Lemma sumQ_app xs ys : sumQ (xs ++ ys) = sumQ xs + sumQ ys.
Proof.
  induction xs as [|x xs IH]; cbn [app sumQ]; [by rewrite Qcplus_0_l|].
  rewrite IH. ring.
Qed.

Lemma sumQ_nonneg xs : Forall (Qcle 0) xs → 0 ≤ sumQ xs.
Proof.
  induction 1 as [|x xs Hx _ IH]; cbn [sumQ]; [done|].
  by apply Qcplus_nonneg_nonneg.
Qed.

Lemma sumQ_zero xs : Forall (eq 0) xs → sumQ xs = 0.
Proof.
  induction 1 as [|x xs <- _ IH]; cbn [sumQ]; [done|].
  by rewrite IH, Qcplus_0_l.
Qed.

Lemma Qc_of_nat_pos (n : nat) : (1 ≤ n)%nat → 0 < Qc_of_nat n.
Proof.
  intros Hn. unfold Qclt. change (inject_Z 0 < inject_Z (Z.of_nat n))%Q.
  rewrite <- Zlt_Qlt. lia.
Qed.

Section rolling_finite.
Variable window : nat.
Hypothesis window_pos : (1 ≤ window)%nat.
Variable qs : list Qc.

Lemma roll_step_finite i x st :
  qs !! i = Some x → roll_inv window qs i st →
  let st1 :=
    if decide (window ≤ i)%nat then
      match (Fin <$> qs) !! (i - window)%nat with
      | Some v => remove_mean st v
      | None => st
      end
    else st in
  let st2 :=
    match (Fin <$> qs) !! i with
    | Some v => add_mean st1 v
    | None => st1
    end in
  roll_inv window qs (S i) st2 ∧
  calc_mean window st2
  = after_warm_up (bool_decide (window ≤ S i)%nat) (window_mean window qs i).
Proof.
  intros Hx [Hn Hs]. cbv zeta.
  rewrite !list_lookup_fmap, Hx. cbn [fmap option_fmap option_map].
  assert (∃ st1, st1 = (if decide (window ≤ i)%nat then
      match Fin <$> qs !! (i - window)%nat with
      | Some v => remove_mean st v
      | None => st
      end else st) ∧
      r_nobs st1 = (Nat.min (S i) window - 1)%nat ∧
      r_sum st1 = Fin (sumQ (take (Nat.min (S i) window - 1)%nat
                               (drop (S i - window) qs))))
    as (st1 & <- & Hn1 & Hs1).
  { eexists. split; [reflexivity|].
    destruct (decide (window ≤ i)%nat) as [Hwi|Hwi].
    - destruct (lookup_lt_is_Some_2 qs (i - window)) as [y Hy].
      { apply lookup_lt_Some in Hx. lia. }
      rewrite Hy. cbn [fmap option_fmap option_map].
      unfold remove_mean. cbn [is_obs r_nobs r_sum]. rewrite Hn, Hs.
      replace (Nat.min i window) with (S (window - 1)) by lia.
      rewrite (drop_S _ _ _ Hy). cbn [take sumQ fsub fopp fadd pred].
      split; [lia|].
      replace (Nat.min (S i) window - 1)%nat with (window - 1)%nat by lia.
      replace (S i - window)%nat with (S (i - window)) by lia.
      f_equal. ring.
    - rewrite Hn, Hs. split; [lia|].
      replace (Nat.min (S i) window - 1)%nat with (Nat.min i window) by lia.
      by replace (S i - window)%nat with (i - window)%nat by lia. }
  unfold add_mean. cbn [is_obs r_nobs r_sum]. rewrite Hn1, Hs1.
  cbn [fadd].
  assert (take (Nat.min (S i) window) (drop (S i - window) qs)
          = take (Nat.min (S i) window - 1)%nat (drop (S i - window) qs) ++ [x])
    as Htake.
  { replace (Nat.min (S i) window) with (S (Nat.min (S i) window - 1)%nat) at 1
      by lia.
    apply take_S_r. rewrite lookup_drop. rewrite <- Hx. f_equal. lia. }
  assert (sumQ (take (Nat.min (S i) window - 1)%nat (drop (S i - window) qs)) + x
          = sumQ (take (Nat.min (S i) window) (drop (S i - window) qs)))
    as Hsum.
  { rewrite Htake, sumQ_app. cbn [sumQ]. ring. }
  rewrite Hsum. split.
  - split; cbn [r_nobs r_sum]; [lia|done].
  - unfold calc_mean, after_warm_up. cbn [r_nobs r_sum].
    destruct (decide (window ≤ S i)%nat) as [Hw|Hw].
    + rewrite bool_decide_eq_true_2 by done.
      rewrite decide_True by lia.
      replace (S (Nat.min (S i) window - 1)%nat) with window by lia.
      replace (Nat.min (S i) window) with window by lia.
      rewrite fdiv_Fin; [done|].
      intros H0. pose proof (Qc_of_nat_pos window window_pos) as Hp.
      rewrite H0 in Hp. by apply (irreflexivity Qclt) in Hp.
    + rewrite bool_decide_eq_false_2 by done.
      rewrite decide_False by lia. done.
Qed.

Lemma roll_loop_finite k : ∀ i st t,
  (i + k ≤ length qs)%nat → roll_inv window qs i st → (t < k)%nat →
  roll_loop window window (Fin <$> qs) (seq i k) st !! t
  = Some (after_warm_up (bool_decide (window ≤ S (i + t))%nat)
            (window_mean window qs (i + t))).
Proof.
  induction k as [|k IH]; intros i st t Hik Hinv Ht; [lia|].
  destruct (lookup_lt_is_Some_2 qs i) as [x Hx]; [lia|].
  destruct (roll_step_finite i x st Hx Hinv) as [Hinv' Hout].
  cbn [seq roll_loop]. destruct t as [|t].
  - cbn [lookup list_lookup]. rewrite Hout. by rewrite Nat.add_0_r.
  - cbn [lookup list_lookup]. rewrite (IH (S i)); [|lia|done|lia].
    by replace (S i + t)%nat with (i + S t)%nat by lia.
Qed.

Lemma rolling_mean_finite t :
  (t < length qs)%nat →
  rolling_mean window (Fin <$> qs) !! t
  = Some (after_warm_up (bool_decide (window ≤ S t)%nat)
            (window_mean window qs t)).
Proof.
  intros Ht. unfold rolling_mean. rewrite length_fmap.
  rewrite (roll_loop_finite (length qs) 0 _ t); [done|lia| |done].
  split; cbn [r_nobs r_sum]; [done|]. by rewrite Nat.min_0_l.
Qed.
End rolling_finite.

Lemma length_roll_loop window minp vals idx st :
  length (roll_loop window minp vals idx st) = length idx.
Proof.
  revert st. induction idx as [|i idx IH]; intros st; [done|].
  cbn [roll_loop length]. by rewrite IH.
Qed.

Lemma length_rolling_mean window vals :
  length (rolling_mean window vals) = length vals.
Proof. unfold rolling_mean. by rewrite length_roll_loop, length_seq. Qed.

(** ** The RSI formula on averages *)

Lemma rsi_series_zip (u d : list float) :
  scalar_sub (Qc_of_nat 100) (scalar_div (Qc_of_nat 100)
    (scalar_add 1 (series_div u d)))
  = zip_with rsi_cell u d.
Proof.
  unfold scalar_sub, scalar_div, scalar_add, series_div.
  revert d. induction u as [|a u IH]; intros [|b d]; [done..|].
  cbn [zip_with fmap list_fmap]. f_equal. apply IH.
Qed.

Lemma rsi_cell_NaN_l d : rsi_cell NaN d = NaN.
Proof. reflexivity. Qed.

Lemma rsi_cell_NaN_r u : rsi_cell u NaN = NaN.
Proof. unfold rsi_cell. by destruct u. Qed.

Lemma Qc_eqb_true_refl (x : Qc) : Qc_eqb x x = true.
Proof. unfold Qc_eqb. by apply bool_decide_eq_true. Qed.

Lemma Qc_100_nonneg : 0 ≤ Qc_of_nat 100.
Proof. apply Qc_of_nat_nonneg. Qed.

(** No gain and no loss: 0/0, no value. *)
Lemma rsi_cell_flat : rsi_cell (Fin 0) (Fin 0) = NaN.
Proof. unfold rsi_cell. cbn [fdiv]. by rewrite !Qc_eqb_true_refl. Qed.

(** Gains and no loss: the quotient is infinite and the cell is 100. *)
Lemma rsi_cell_no_loss (u : Qc) :
  0 < u → rsi_cell (Fin u) (Fin 0) = Fin (Qc_of_nat 100).
Proof.
  intros Hu. unfold rsi_cell. cbn [fdiv].
  rewrite Qc_eqb_true_refl.
  rewrite (Qc_eqb_false u 0) by (by apply not_eq_sym, Qclt_not_eq).
  unfold Qc_ltb. rewrite bool_decide_eq_true_2 by done.
  cbn [inf_of_sign fadd fdiv fsub fopp]. f_equal. ring.
Qed.

Lemma Qcinv_le_1 (x : Qc) : 1 ≤ x → / x ≤ 1.
Proof.
  intros Hx. assert (0 < x) as Hpos by (by apply Qclt_le_trans with 1).
  apply (Qcmult_le_mono_pos_r _ _ x Hpos).
  rewrite Qcmult_inv_l by (by apply not_eq_sym, Qclt_not_eq).
  by rewrite Qcmult_1_l.
Qed.

Lemma rsi_cell_range (u d : Qc) :
  0 ≤ u → 0 ≤ d → rsi_in_range (rsi_cell (Fin u) (Fin d)).
Proof.
  intros Hu Hd. destruct (decide (d = 0)) as [->|Hd0].
  - destruct (decide (u = 0)) as [->|Hu0].
    + left. apply rsi_cell_flat.
    + right. exists (Qc_of_nat 100). split; [|split; [apply Qc_100_nonneg|done]].
      apply rsi_cell_no_loss. apply Qcle_lt_or_eq in Hu as [?|?]; [done|].
      by destruct Hu0.
  - right. assert (0 < d) as Hdpos.
    { apply Qcle_lt_or_eq in Hd as [?|?]; [done|]. by destruct Hd0. }
    assert (0 ≤ u / d) as Hr.
    { apply Qcmult_nonneg_nonneg; [done|]. by apply Qclt_le_weak, Qcinv_pos. }
    assert (1 ≤ 1 + u / d) as H1.
    { rewrite <- (Qcplus_0_r 1) at 1. by apply Qcplus_le_mono_l. }
    assert (0 < 1 + u / d) as Hpos by (by apply Qclt_le_trans with 1).
    assert (1 + u / d ≠ 0) as Hne by (by apply not_eq_sym, Qclt_not_eq).
    unfold rsi_cell. rewrite (fdiv_Fin u d Hd0). cbn [fadd].
    rewrite (fdiv_Fin _ _ Hne). cbn [fsub fopp fadd].
    eexists. split; [reflexivity|].
    pose proof Qc_100_nonneg as H100.
    assert (0 ≤ Qc_of_nat 100 / (1 + u / d)) as Hq.
    { apply Qcmult_nonneg_nonneg; [done|]. by apply Qclt_le_weak, Qcinv_pos. }
    assert (Qc_of_nat 100 / (1 + u / d) ≤ Qc_of_nat 100) as Hq'.
    { rewrite <- (Qcmult_1_r (Qc_of_nat 100)) at 2.
      apply Qcmult_le_mono_nonneg_l; [done|]. by apply Qcinv_le_1. }
    split.
    + exact (proj1 (Qcle_minus_iff _ _) Hq').
    + apply (proj2 (Qcle_minus_iff _ _)).
      replace (Qc_of_nat 100 + - (Qc_of_nat 100 + - (Qc_of_nat 100 / (1 + u / d))))
        with (Qc_of_nat 100 / (1 + u / d)) by ring.
      done.
Qed.

Lemma rsi_cell_warm_up_range (b : bool) (u d : Qc) :
  0 ≤ u → 0 ≤ d →
  rsi_in_range (rsi_cell (after_warm_up b u) (after_warm_up b d)).
Proof.
  intros Hu Hd. destruct b; [by apply rsi_cell_range|by left].
Qed.

(** The smoothing of [get_RSI] never weighs the past negatively. *)
Lemma factor_nonneg_of_window (time_window : nat) :
  (1 ≤ time_window)%nat →
  0 ≤ 1 - alpha_of_com (Qc_of_nat time_window - 1).
Proof.
  intros Htw. unfold alpha_of_com.
  replace (1 + (Qc_of_nat time_window - 1)) with (Qc_of_nat time_window) by ring.
  apply (proj1 (Qcle_minus_iff _ 1)).
  unfold Qcdiv. rewrite Qcmult_1_l. apply Qcinv_le_1.
  rewrite <- Z2Qc_inj_1. unfold Qc_of_nat.
  apply (proj1 (Z2Qc_inj_le 1 (Z.of_nat time_window))). lia.
Qed.

(** ** RSI of a finite close series *)

Lemma get_RSI_finite (df : DataFrame) (qs : list Qc) (time_window : nat) :
  cols df !! "Price Close" = Some (Fin <$> qs) →
  Dashboard_Functions.get_RSI df "Price Close" time_window
  = Ok (setitem df "RSI"
          (zip_with rsi_cell
             (ewm_mean (Qc_of_nat time_window - 1) true time_window
                (Fin <$> gains qs))
             (ewm_mean (Qc_of_nat time_window - 1) true time_window
                (Fin <$> losses qs)))).
Proof.
  intros Hc. unfold Dashboard_Functions.get_RSI.
  rewrite (getitem_Some _ _ _ Hc), bind_Ok. cbv zeta.
  by rewrite rsi_series_zip, up_chg_finite, down_chg_finite.
Qed.

Lemma calculate_rsi_finite (df : DataFrame) (qs : list Qc) (period : nat) :
  cols df !! "Price Close" = Some (Fin <$> qs) →
  App.calculate_rsi df period
  = Ok (setitem df "RSI"
          (zip_with rsi_cell
             (rolling_mean period (Fin <$> gains qs))
             (rolling_mean period (Fin <$> losses qs)))).
Proof.
  intros Hc. unfold App.calculate_rsi.
  rewrite (getitem_Some _ _ _ Hc), bind_Ok. cbv zeta.
  by rewrite rsi_series_zip, up_chg_finite, loss_finite.
Qed.

Lemma Dashboard_App_calculate_rsi_eq :
  Dashboard_App.calculate_rsi = App.calculate_rsi.
Proof. reflexivity. Qed.

Lemma Dashboard_App_calculate_macd_eq :
  Dashboard_App.calculate_macd = App.calculate_macd.
Proof. reflexivity. Qed.

Lemma length_wavg_from factor w ow xs :
  length (wavg_from factor w ow xs) = length xs.
Proof.
  revert w ow. induction xs as [|x xs IH]; intros w ow; [done|].
  cbn [wavg_from length]. by rewrite IH.
Qed.

Lemma length_wavg factor xs : length (wavg factor xs) = length xs.
Proof.
  destruct xs as [|x xs]; [done|]. cbn [wavg length].
  by rewrite length_wavg_from.
Qed.

Lemma wavg_nonneg com xs :
  0 ≤ 1 - alpha_of_com com → Forall (Qcle 0) xs →
  Forall (Qcle 0) (wavg (1 - alpha_of_com com) xs).
Proof.
  intros Hf Hxs. destruct xs as [|x xs]; [constructor|].
  apply Forall_cons in Hxs as [Hx Hxs]. cbn [wavg].
  constructor; [done|]. by apply wavg_from_nonneg.
Qed.

Lemma wavg_zero com xs :
  0 ≤ 1 - alpha_of_com com → Forall (eq 0) xs →
  Forall (eq 0) (wavg (1 - alpha_of_com com) xs).
Proof.
  intros Hf Hxs. destruct xs as [|x xs]; [constructor|].
  apply Forall_cons in Hxs as [<- Hxs]. cbn [wavg].
  constructor; [done|]. by apply wavg_from_zero.
Qed.

(** The cell of row [t] of the RSI column of [get_RSI]. *)
Lemma get_RSI_cell (qs : list Qc) (time_window t : nat) v :
  (1 ≤ time_window)%nat →
  zip_with rsi_cell
    (ewm_mean (Qc_of_nat time_window - 1) true time_window (Fin <$> gains qs))
    (ewm_mean (Qc_of_nat time_window - 1) true time_window (Fin <$> losses qs))
    !! t = Some v →
  ∃ u d,
    wavg (1 - alpha_of_com (Qc_of_nat time_window - 1)) (gains qs) !! t = Some u ∧
    wavg (1 - alpha_of_com (Qc_of_nat time_window - 1)) (losses qs) !! t = Some d ∧
    v = rsi_cell (after_warm_up (bool_decide (time_window ≤ S t)%nat) u)
          (after_warm_up (bool_decide (time_window ≤ S t)%nat) d).
Proof.
  intros Htw. pose proof (factor_nonneg_of_window time_window Htw) as Hf.
  rewrite lookup_zip_with, !ewm_mean_adjusted by done.
  replace (Nat.max time_window 1) with time_window by lia.
  destruct (wavg _ (gains qs) !! t) as [u|]; [|done].
  destruct (wavg _ (losses qs) !! t) as [d|]; [|done].
  cbn. intros [= <-]. by exists u, d.
Qed.

(** X2. Whatever the finite prices, every cell of the RSI column written by
    [get_RSI] (any window of at least one day) is either NaN or a number
    between 0 and 100, and the column has one cell per row. *)
Theorem X2_get_RSI_range (df : DataFrame) (qs : list Qc) (time_window : nat) :
  (1 ≤ time_window)%nat →
  cols df !! "Price Close" = Some (Fin <$> qs) →
  ∃ rsi,
    Dashboard_Functions.get_RSI df "Price Close" time_window
    = Ok (setitem df "RSI" rsi) ∧
    length rsi = length qs ∧
    Forall rsi_in_range rsi.
Proof.
  intros Htw Hc. pose proof (factor_nonneg_of_window time_window Htw) as Hf.
  eexists. split; [by apply get_RSI_finite|]. split.
  { rewrite length_zip_with, !length_ewm_mean, !length_fmap,
      length_gains, length_losses. lia. }
  apply Forall_lookup. intros t v Hv.
  apply get_RSI_cell in Hv as (u & d & Hu & Hd & ->); [|done].
  apply rsi_cell_warm_up_range.
  - pose proof (wavg_nonneg _ _ Hf (gains_nonneg qs)) as H.
    rewrite Forall_lookup in H. by apply (H t).
  - pose proof (wavg_nonneg _ _ Hf (losses_nonneg qs)) as H.
    rewrite Forall_lookup in H. by apply (H t).
Qed.

Lemma window_mean_nonneg window xs t :
  Forall (Qcle 0) xs → 0 ≤ window_mean window xs t.
Proof.
  intros Hxs. unfold window_mean. apply Qcmult_nonneg_nonneg.
  - apply sumQ_nonneg. by apply Forall_take, Forall_drop.
  - destruct window as [|n]; [done|].
    apply Qclt_le_weak, Qcinv_pos, Qc_of_nat_pos. lia.
Qed.

(** The cell of row [t] of the RSI column of [calculate_rsi]. *)
Lemma calculate_rsi_cell (qs : list Qc) (period t : nat) v :
  (1 ≤ period)%nat →
  zip_with rsi_cell (rolling_mean period (Fin <$> gains qs))
    (rolling_mean period (Fin <$> losses qs)) !! t = Some v →
  (t < length qs)%nat ∧
  v = rsi_cell
        (after_warm_up (bool_decide (period ≤ S t)%nat)
           (window_mean period (gains qs) t))
        (after_warm_up (bool_decide (period ≤ S t)%nat)
           (window_mean period (losses qs) t)).
Proof.
  intros Hp Hv.
  assert (t < length qs)%nat as Ht.
  { apply lookup_lt_Some in Hv.
    rewrite length_zip_with, !length_rolling_mean, !length_fmap,
      length_gains, length_losses in Hv. lia. }
  split; [done|]. revert Hv.
  rewrite lookup_zip_with.
  rewrite !rolling_mean_finite by (by rewrite ?length_gains, ?length_losses).
  cbn. by intros [= <-].
Qed.

(** X3. The same bound for the rolling-mean variant: every cell of the RSI
    column written by [calculate_rsi] ([app.py] and [Dashboard_App.py]) is
    NaN or lies between 0 and 100. *)
Theorem X3_calculate_rsi_range (df : DataFrame) (qs : list Qc) (period : nat) :
  (1 ≤ period)%nat →
  cols df !! "Price Close" = Some (Fin <$> qs) →
  ∃ rsi,
    App.calculate_rsi df period = Ok (setitem df "RSI" rsi) ∧
    Dashboard_App.calculate_rsi df period = Ok (setitem df "RSI" rsi) ∧
    length rsi = length qs ∧
    Forall rsi_in_range rsi.
Proof.
  intros Hp Hc. eexists.
  rewrite Dashboard_App_calculate_rsi_eq.
  split; [by apply calculate_rsi_finite|].
  split; [by apply calculate_rsi_finite|]. split.
  { rewrite length_zip_with, !length_rolling_mean, !length_fmap,
      length_gains, length_losses. lia. }
  apply Forall_lookup. intros t v Hv.
  apply calculate_rsi_cell in Hv as (Ht & ->); [|done].
  apply rsi_cell_warm_up_range; apply window_mean_nonneg.
  - apply gains_nonneg.
  - apply losses_nonneg.
Qed.

(** ** Rising and flat prices *)

Lemma deltas_cons (x y : Qc) (l : list Qc) :
  deltas (x :: y :: l) = (y - x) :: deltas (y :: l).
Proof. reflexivity. Qed.


Lemma deltas_flat (c : Qc) (qs : list Qc) :
  Forall (eq c) qs → Forall (eq 0) (deltas qs).
Proof.
  destruct qs as [|x qs]; [constructor|]. revert x.
  induction qs as [|y qs IH]; intros x Hc; [constructor|].
  apply Forall_cons in Hc as [<- Hc]. rewrite deltas_cons.
  pose proof Hc as Hc'. apply Forall_cons in Hc' as [<- _].
  constructor; [ring|]. by apply IH.
Qed.



Lemma pos_part_0 : pos_part 0 = 0.
Proof. unfold pos_part. by destruct (Qc_ltb 0 0). Qed.

Lemma neg_part_0 : neg_part 0 = 0.
Proof. unfold neg_part. destruct (Qc_ltb 0 0); [ring|done]. Qed.



Lemma gains_flat (c : Qc) (qs : list Qc) :
  Forall (eq c) qs → Forall (eq 0) (gains qs).
Proof.
  intros Hc. destruct qs as [|x qs]; [constructor|]. cbn [gains].
  constructor; [done|].
  apply Forall_fmap. eapply Forall_impl; [by apply (deltas_flat c)|].
  intros d <-. cbn. by rewrite pos_part_0.
Qed.

Lemma losses_flat (c : Qc) (qs : list Qc) :
  Forall (eq c) qs → Forall (eq 0) (losses qs).
Proof.
  intros Hc. destruct qs as [|x qs]; [constructor|]. cbn [losses].
  constructor; [done|].
  apply Forall_fmap. eapply Forall_impl; [by apply (deltas_flat c)|].
  intros d <-. cbn. by rewrite neg_part_0.
Qed.

Lemma rsi_cell_warm_up_flat (b : bool) :
  rsi_cell (after_warm_up b 0) (after_warm_up b 0) = NaN.
Proof. destruct b; [apply rsi_cell_flat|done]. Qed.


Lemma window_mean_zero window xs t :
  Forall (eq 0) xs → window_mean window xs t = 0.
Proof.
  intros Hxs. unfold window_mean.
  rewrite sumQ_zero by (by apply Forall_take, Forall_drop).
  apply Qcmult_0_l.
Qed.




(** X6. On a price series that never moves, [get_RSI] has no value at any
    row, before and after the warm-up: average gain and average loss are
    both 0 and the ratio is 0/0. *)
Theorem X6_get_RSI_flat (df : DataFrame) (c : Qc) (qs : list Qc)
    (time_window : nat) :
  (1 ≤ time_window)%nat →
  cols df !! "Price Close" = Some (Fin <$> qs) →
  Forall (eq c) qs →
  Dashboard_Functions.get_RSI df "Price Close" time_window
  = Ok (setitem df "RSI" (replicate (length qs) NaN)).
Proof.
  intros Htw Hc Hflat.
  pose proof (factor_nonneg_of_window time_window Htw) as Hf.
  rewrite (get_RSI_finite _ _ _ Hc). do 2 f_equal.
  symmetry. apply replicate_as_Forall. split.
  { rewrite length_zip_with, !length_ewm_mean, !length_fmap,
      length_gains, length_losses. lia. }
  apply Forall_lookup. intros t v Hv.
  apply get_RSI_cell in Hv as (u & d & Hu & Hd & ->); [|done].
  pose proof (wavg_zero _ _ Hf (gains_flat c qs Hflat)) as Hzu.
  pose proof (wavg_zero _ _ Hf (losses_flat c qs Hflat)) as Hzd.
  rewrite <- (Forall_lookup_1 _ _ _ _ Hzu Hu), <- (Forall_lookup_1 _ _ _ _ Hzd Hd).
  symmetry. apply rsi_cell_warm_up_flat.
Qed.

(** X7. The same for the rolling-mean variant: on a price series that never
    moves, every RSI cell of [calculate_rsi] is NaN. *)
Theorem X7_calculate_rsi_flat (df : DataFrame) (c : Qc) (qs : list Qc)
    (period : nat) :
  (1 ≤ period)%nat →
  cols df !! "Price Close" = Some (Fin <$> qs) →
  Forall (eq c) qs →
  App.calculate_rsi df period
  = Ok (setitem df "RSI" (replicate (length qs) NaN)) ∧
  Dashboard_App.calculate_rsi df period
  = Ok (setitem df "RSI" (replicate (length qs) NaN)).
Proof.
  intros Hp Hc Hflat. rewrite Dashboard_App_calculate_rsi_eq.
  assert (App.calculate_rsi df period
          = Ok (setitem df "RSI" (replicate (length qs) NaN))) as H; [|done].
  rewrite (calculate_rsi_finite _ _ _ Hc). do 2 f_equal.
  symmetry. apply replicate_as_Forall. split.
  { rewrite length_zip_with, !length_rolling_mean, !length_fmap,
      length_gains, length_losses. lia. }
  apply Forall_lookup. intros t v Hv.
  apply calculate_rsi_cell in Hv as (_ & ->); [|done].
  rewrite (window_mean_zero _ (gains qs)) by (by apply (gains_flat c)).
  rewrite (window_mean_zero _ (losses qs)) by (by apply (losses_flat c)).
  symmetry. apply rsi_cell_warm_up_flat.
Qed.

(** ** The main script on prices that never move *)

Lemma ema_from_flat (α c : Qc) (xs : list Qc) :
  Forall (eq c) xs → ema_from α c xs = xs.
Proof.
  induction 1 as [|x xs <- _ IH]; [done|]. cbn [ema_from].
  replace (α * c + (1 - α) * c) with c by ring. by rewrite IH.
Qed.

Lemma ema_flat (α c : Qc) (xs : list Qc) : Forall (eq c) xs → ema α xs = xs.
Proof.
  intros Hxs. destruct xs as [|x xs]; [done|].
  apply Forall_cons in Hxs as [<- Hxs]. cbn [ema]. by rewrite ema_from_flat.
Qed.

Lemma zip_with_Qcminus_diag (xs : list Qc) :
  zip_with Qcminus xs xs = replicate (length xs) 0.
Proof.
  induction xs as [|x xs IH]; [done|]. cbn [zip_with length replicate].
  rewrite IH. f_equal. ring.
Qed.

Lemma Forall_eq_replicate {A} (x : A) (n : nat) : Forall (eq x) (replicate n x).
Proof. induction n; by constructor. Qed.

Lemma macd_of_flat (c : Qc) (close : list Qc) :
  Forall (eq c) close → macd_of close = replicate (length close) 0.
Proof.
  intros Hc. unfold macd_of, shortEma_of, longEma_of.
  rewrite !(ema_flat _ c) by done. apply zip_with_Qcminus_diag.
Qed.

Lemma signalLine_of_flat (c : Qc) (close : list Qc) :
  Forall (eq c) close → signalLine_of close = replicate (length close) 0.
Proof.
  intros Hc. unfold signalLine_of. rewrite (macd_of_flat c) by done.
  apply (ema_flat _ 0), Forall_eq_replicate.
Qed.

Lemma histogram_of_flat (c : Qc) (close : list Qc) :
  Forall (eq c) close → histogram_of close = replicate (length close) 0.
Proof.
  intros Hc. unfold histogram_of.
  rewrite (macd_of_flat c), (signalLine_of_flat c) by done.
  by rewrite zip_with_Qcminus_diag, length_replicate.
Qed.

(** MACD on its signal line at every date: the machine never moves. *)
Lemma detector_run_idle st (xs : list float) :
  detector_run st (zip xs xs) = replicate (length xs) None.
Proof.
  induction xs as [|x xs IH]; [done|].
  cbn [zip zip_with detector_run length replicate].
  rewrite detector_step_idle by (by left). by rewrite IH.
Qed.

Lemma marker_column_idle k (close : list float) :
  marker_column k (replicate (length close) None) close
  = replicate (length close) NaN.
Proof.
  induction close as [|c close IH]; [done|].
  cbn [length replicate]. rewrite marker_column_cons, IH.
  by rewrite decide_False by done.
Qed.

(** X8. On prices that never move the main script of
    [Dashboard_Functions.py] computes both EMAs equal to the price, MACD,
    signal line and histogram equal to 0 at every row, and plots no marker:
    the Buy and Sell columns are NaN throughout. *)
Theorem X8_process_flat (df : DataFrame) (c : Qc) (close : list Qc) :
  cols df !! "Price Close" = Some (Fin <$> close) →
  length close = len df →
  Forall (eq c) close →
  ∃ data',
    Dashboard_Functions.process df = Ok data' ∧
    cols data' !! "EMA-12" = Some (Fin <$> close) ∧
    cols data' !! "EMA-26" = Some (Fin <$> close) ∧
    cols data' !! "MACD" = Some (replicate (len df) (Fin 0)) ∧
    cols data' !! "Signal" = Some (replicate (len df) (Fin 0)) ∧
    cols data' !! "Histogram" = Some (replicate (len df) (Fin 0)) ∧
    cols data' !! "Buy" = Some (replicate (len df) NaN) ∧
    cols data' !! "Sell" = Some (replicate (len df) NaN) ∧
    process_markers df = Ok [].
Proof.
  intros Hc Hlen Hflat.
  destruct (process_finite df close Hc Hlen)
    as (df1 & rsi & Hmacd & _ & _ & _ & _ & Hproc & Hmk).
  cbv zeta in Hproc, Hmk.
  rewrite (get_MACD_finite df close Hc) in Hmacd. injection Hmacd as <-.
  unfold shortEma_of, longEma_of in Hproc.
  rewrite !(ema_flat _ c close Hflat) in Hproc.
  rewrite (macd_of_flat c close Hflat), (signalLine_of_flat c close Hflat),
    (histogram_of_flat c close Hflat) in Hproc.
  rewrite (macd_of_flat c close Hflat), (signalLine_of_flat c close Hflat) in Hmk.
  rewrite detector_run_idle, length_fmap, length_replicate in Hproc, Hmk.
  rewrite <- (length_fmap Fin close) in Hproc at 4 5.
  rewrite !marker_column_idle, length_fmap, !fmap_replicate, Hlen in Hproc.
  rewrite markers_of_idle in Hmk.
  eexists. split; [exact Hproc|].
  repeat split; try done;
    rewrite ?lookup_setitem_ne by neq_str; by rewrite lookup_setitem_eq.
Qed.

(** ** A missing price column *)

Lemma detector_step_None st m s st' :
  detector_step st m s = (st', None) → st' = st.
Proof.
  unfold detector_step.
  destruct st; [destruct (fgt m s)|destruct (flt m s)]; by intros [= <-].
Qed.

Section missing_price.
Variables (df : DataFrame) (column : string).
Variables (macd signal : list float).
Hypothesis Hmacd : cols df !! "MACD" = Some macd.
Hypothesis Hsignal : cols df !! "Signal" = Some signal.
Hypothesis Hclose : cols df !! column = None.

(** One turn of the loop when the price column does not exist: the column
    is looked up only in the two emitting branches. *)
Lemma strategy_body_missing_price i m s buy_list sell_list flag :
  macd !! i = Some m → signal !! i = Some s →
  Dashboard_Functions.strategy_body df column i (buy_list, sell_list, flag)
  = match (detector_step (position_of_flag flag) m s).2 with
    | Some _ => Raise (KeyError column)
    | None => Ok (buy_list ++ [NaN], sell_list ++ [NaN], flag)
    end.
Proof.
  intros Hm Hs. unfold Dashboard_Functions.strategy_body.
  rewrite !(getitem_Some _ _ _ Hmacd), !(getitem_Some _ _ _ Hsignal),
    !(getitem_None _ _ Hclose).
  cbn [mbind result_bind].
  rewrite !(iloc_Some _ _ _ Hm), !(iloc_Some _ _ _ Hs).
  cbn [mbind result_bind mret result_ret].
  destruct flag; cbn [position_of_flag detector_step negb];
    rewrite ?andb_false_r, ?andb_true_r.
  - destruct (flt m s); reflexivity.
  - destruct (fgt m s); [reflexivity|].
    destruct (flt m s); reflexivity.
Qed.

Lemma strategy_loop_missing_price k : ∀ i buy_list sell_list flag,
  (i + k)%nat = length macd → length signal = length macd →
  let events := detector_run (position_of_flag flag)
                  (zip (drop i macd) (drop i signal)) in
  (Forall (eq None) events →
   for_each (Dashboard_Functions.strategy_body df column) (seq i k)
     (buy_list, sell_list, flag)
   = Ok (buy_list ++ replicate k NaN, sell_list ++ replicate k NaN, flag)) ∧
  (¬ Forall (eq None) events →
   for_each (Dashboard_Functions.strategy_body df column) (seq i k)
     (buy_list, sell_list, flag)
   = Raise (KeyError column)).
Proof.
  induction k as [|k IH]; intros i buy_list sell_list flag Hlen Hls; cbv zeta.
  - rewrite !drop_ge by lia. cbn [zip zip_with detector_run seq for_each replicate].
    rewrite !app_nil_r. split; [done|]. intros H. destruct H. constructor.
  - destruct (lookup_lt_is_Some_2 macd i) as [m Hm]; [lia|].
    destruct (lookup_lt_is_Some_2 signal i) as [s Hs]; [lia|].
    cbn [seq for_each].
    rewrite (strategy_body_missing_price _ _ _ _ _ _ Hm Hs).
    rewrite (drop_S _ _ _ Hm), (drop_S _ _ _ Hs).
    cbn [zip zip_with detector_run].
    destruct (detector_step (position_of_flag flag) m s) as [st' ev] eqn:Hstep.
    cbn [snd]. destruct ev as [ev|].
    + split; [|done]. intros H. apply Forall_cons in H as [H _]. done.
    + apply detector_step_None in Hstep as ->. cbn [mbind result_bind].
      destruct (IH (S i) (buy_list ++ [NaN]) (sell_list ++ [NaN]) flag)
        as [IH1 IH2]; [lia|done|]. cbv zeta in IH1, IH2.
      split.
      * intros H. apply Forall_cons in H as [_ H]. rewrite (IH1 H).
        cbn [replicate]. by rewrite <- !app_assoc.
      * intros H. apply IH2. intros H'. apply H. by constructor.
Qed.
End missing_price.

(** X9. [get_trading_strategy] looks the price column up only when a marker
    is to be emitted.  Called with a name that is no column of the frame
    (not one of the float columns, and not ['Date'] or ['Ticker'], which
    every frame has), it returns all-NaN Buy and Sell columns when MACD
    never crosses its signal line, and raises [KeyError] for that name as
    soon as one marker would be emitted.  The copy in [app.py] behaves the
    same. *)
Theorem X9_strategy_lazy_price_lookup (df : DataFrame) (column : string)
    (macd signal : list float) :
  cols df !! "MACD" = Some macd →
  cols df !! "Signal" = Some signal →
  cols df !! column = None →
  column ≠ "Date" → column ≠ "Ticker" →
  length macd = len df → length signal = len df →
  let events := detector_run Flat (zip macd signal) in
  (Forall (eq None) events →
   Dashboard_Functions.get_trading_strategy df column
   = Ok (setitem (setitem df "Buy" (replicate (len df) NaN))
           "Sell" (replicate (len df) NaN)) ∧
   App.get_trading_strategy df column
   = Ok (setitem (setitem df "Buy" (replicate (len df) NaN))
           "Sell" (replicate (len df) NaN))) ∧
  (¬ Forall (eq None) events →
   Dashboard_Functions.get_trading_strategy df column = Raise (KeyError column) ∧
   App.get_trading_strategy df column = Raise (KeyError column)).
Proof.
  intros Hm Hs Hc _ _ Hlm Hls events. rewrite App_get_trading_strategy_eq.
  destruct (strategy_loop_missing_price df column macd signal Hm Hs Hc
              (len df) 0 [] [] false) as [H1 H2]; [lia|lia|].
  cbv zeta in H1, H2. rewrite !drop_0 in H1, H2. cbn [position_of_flag] in H1, H2.
  split.
  - intros Hev. unfold Dashboard_Functions.get_trading_strategy.
    rewrite (H1 Hev). cbn [app mbind result_bind]. unfold setitem_list.
    rewrite decide_True by (by rewrite length_replicate).
    cbn [mbind result_bind].
    rewrite decide_True by (by rewrite length_replicate, len_setitem).
    done.
  - intros Hev. unfold Dashboard_Functions.get_trading_strategy.
    by rewrite (H2 Hev).
Qed.

(** ** The pipeline of Dashboard_App.py *)

Lemma calculate_rsi_length df period c :
  cols df !! "Price Close" = Some c →
  ∃ rsi, App.calculate_rsi df period = Ok (setitem df "RSI" rsi) ∧
         length rsi = length c.
Proof.
  intros Hc. unfold App.calculate_rsi. cbv zeta.
  rewrite (getitem_Some _ _ _ Hc), bind_Ok. eexists. split; [reflexivity|].
  rewrite rsi_series_zip, length_zip_with, !length_rolling_mean.
  unfold series_neg. rewrite length_fmap, !length_np_where;
    unfold series_gt0, series_lt0; rewrite ?length_fmap, ?length_diff; lia.
Qed.

Lemma calculate_macd_length df c :
  cols df !! "Price Close" = Some c →
  ∃ macd signal_line,
    App.calculate_macd df
    = Ok (setitem (setitem df "MACD" macd) "Signal Line" signal_line) ∧
    length macd = length c ∧ length signal_line = length c.
Proof.
  intros Hc. unfold App.calculate_macd. cbv zeta.
  rewrite !(getitem_Some _ _ _ Hc), !bind_Ok.
  rewrite getitem_setitem_eq, bind_Ok.
  eexists _, _. split; [reflexivity|].
  rewrite length_ewm_mean. split; rewrite length_series_sub; by rewrite !length_ewm_mean.
Qed.

(** X10. [Dashboard_App.py] calls only [calculate_macd] and
    [calculate_rsi]: on every well-formed frame with a ['Price Close']
    column of numbers and NaN this pipeline goes through without an
    exception, adds exactly
    the columns MACD, Signal Line and RSI, one cell per row, and leaves the
    rows and every other column as they were. *)
Theorem X10_Dashboard_App_indicators (filtered_data : DataFrame)
    (c : list float) :
  wf filtered_data →
  cols filtered_data !! "Price Close" = Some c →
  no_inf c →
  ∃ df',
    Dashboard_App.add_technical_indicators filtered_data = Ok df' ∧
    wf df' ∧
    Ticker df' = Ticker filtered_data ∧ Date df' = Date filtered_data ∧
    (∀ k, k ∈ ["MACD"; "Signal Line"; "RSI"] →
       ∃ col, cols df' !! k = Some col ∧ length col = len filtered_data) ∧
    (∀ k, k ∉ ["MACD"; "Signal Line"; "RSI"] →
       cols df' !! k = cols filtered_data !! k).
Proof.
  intros Hwf Hc _. pose proof (proj2 Hwf _ _ Hc) as Hlen.
  destruct (calculate_macd_length filtered_data c Hc)
    as (macd & sl & Hmacd & Hlm & Hls).
  set (df1 := setitem (setitem filtered_data "MACD" macd) "Signal Line" sl) in *.
  assert (cols df1 !! "Price Close" = Some c) as Hc1.
  { unfold df1. by rewrite !lookup_setitem_ne by neq_str. }
  destruct (calculate_rsi_length df1 14 c Hc1) as (rsi & Hrsi & Hlr).
  exists (setitem df1 "RSI" rsi). split.
  { unfold Dashboard_App.add_technical_indicators.
    rewrite Dashboard_App_calculate_macd_eq, Dashboard_App_calculate_rsi_eq.
    by rewrite Hmacd, bind_Ok. }
  split.
  { unfold df1. repeat apply wf_setitem; try done; rewrite ?len_setitem; lia. }
  split; [done|]. split; [done|]. split.
  - intros k Hk. rewrite !elem_of_cons, elem_of_nil in Hk.
    destruct Hk as [->|[->|[->|[]]]]; unfold df1;
      rewrite ?lookup_setitem_ne by neq_str; rewrite lookup_setitem_eq;
      eexists; (split; [reflexivity|]); lia.
  - intros k Hk. rewrite !not_elem_of_cons in Hk. destruct Hk as (?&?&?&_).
    unfold df1. by rewrite !lookup_setitem_ne by done.
Qed.

(** ** Warm-up of the rolling mean *)

Lemma add_mean_nobs st v : (r_nobs (add_mean st v) ≤ S (r_nobs st))%nat.
Proof. unfold add_mean. destruct (is_obs v); cbn [r_nobs]; lia. Qed.

Lemma remove_mean_nobs st v : (r_nobs (remove_mean st v) ≤ r_nobs st)%nat.
Proof. unfold remove_mean. destruct (is_obs v); cbn [r_nobs]; lia. Qed.

(** While fewer than [minp] entries can have been counted the kernel writes
    NaN. *)
Lemma roll_loop_warmup window minp vals k : ∀ i st t v,
  (r_nobs st ≤ i)%nat → (i + S t < minp)%nat →
  roll_loop window minp vals (seq i k) st !! t = Some v → v = NaN.
Proof.
  induction k as [|k IH]; intros i st t v Hn Hlt Hv; [done|].
  cbn [seq roll_loop] in Hv.
  set (st1 := if decide (window ≤ i)%nat then
                match vals !! (i - window)%nat with
                | Some v => remove_mean st v
                | None => st
                end
              else st) in *.
  assert (r_nobs st1 ≤ r_nobs st)%nat as H1.
  { unfold st1. destruct (decide _); [|lia].
    destruct (vals !! _); [apply remove_mean_nobs|lia]. }
  set (st2 := match vals !! i with
              | Some v => add_mean st1 v
              | None => st1
              end) in *.
  assert (r_nobs st2 ≤ S (r_nobs st1))%nat as H2.
  { unfold st2. destruct (vals !! i); [apply add_mean_nobs|lia]. }
  destruct t as [|t].
  - cbn [lookup list_lookup] in Hv. injection Hv as <-. unfold calc_mean.
    rewrite decide_False; [done|lia].
  - cbn [lookup list_lookup] in Hv. apply (IH (S i) st2 t v); [lia|lia|done].
Qed.

Lemma rolling_mean_warmup window vals t v :
  (S t < window)%nat → rolling_mean window vals !! t = Some v → v = NaN.
Proof.
  intros Hlt Hv. unfold rolling_mean in Hv.
  apply (roll_loop_warmup _ _ _ _ 0 _ t v) in Hv; [done|cbn [r_nobs]; lia|lia].
Qed.

(** X11. Whatever the numbers in the price column and wherever it has NaN,
    [calculate_rsi] with a window of at least one day writes one RSI cell
    per row and the cells of the first [period − 1] rows are NaN: the
    rolling window is not full yet. *)
Theorem X11_calculate_rsi_warm_up (df : DataFrame) (period : nat)
    (c : list float) :
  (1 ≤ period)%nat →
  cols df !! "Price Close" = Some c →
  no_inf c →
  ∃ rsi,
    App.calculate_rsi df period = Ok (setitem df "RSI" rsi) ∧
    Dashboard_App.calculate_rsi df period = Ok (setitem df "RSI" rsi) ∧
    length rsi = length c ∧
    ∀ t, (S t < period)%nat → (t < length c)%nat → rsi !! t = Some NaN.
Proof.
  intros _ Hc _. rewrite Dashboard_App_calculate_rsi_eq.
  destruct (calculate_rsi_length df period c Hc) as (rsi & Hrsi & Hlr).
  exists rsi. split; [done|]. split; [done|]. split; [done|].
  intros t Ht Htc.
  destruct (lookup_lt_is_Some_2 rsi t) as [v Hv]; [lia|]. rewrite Hv. f_equal.
  revert Hrsi. unfold App.calculate_rsi. cbv zeta.
  rewrite (getitem_Some _ _ _ Hc), bind_Ok, rsi_series_zip.
  intros [= Heq]. apply (f_equal (λ m, m !! "RSI")) in Heq.
  rewrite !lookup_insert_eq in Heq. injection Heq as Heq.
  rewrite <- Heq in Hv. apply lookup_zip_with_Some in Hv as (a & b & -> & Ha & _).
  apply rolling_mean_warmup in Ha as ->; [|done]. apply rsi_cell_NaN_l.
Qed.

(** ** Boolean indexing and the selection of the script *)

Lemma omap_filter_mask {A} (P : A → Prop) `{!∀ x, Decision (P x)} (l : list A) :
  ∀ pre,
  omap (λ i, (pre ++ l) !! i)
    (filter (λ i, ((λ x, bool_decide (P x)) <$> (pre ++ l)) !! i = Some true)
       (seq (length pre) (length l)))
  = filter P l.
Proof.
  induction l as [|x l IH]; intros pre; [done|].
  cbn [length seq]. rewrite !filter_cons.
  assert (((λ x, bool_decide (P x)) <$> (pre ++ x :: l)) !! length pre
          = Some (bool_decide (P x))) as Hx.
  { rewrite list_lookup_fmap, lookup_app_r by lia.
    by rewrite Nat.sub_diag. }
  specialize (IH (pre ++ [x])). rewrite <- app_assoc in IH. cbn [app] in IH.
  rewrite length_app in IH. cbn [length] in IH.
  replace (length pre + 1)%nat with (S (length pre)) in IH by lia.
  destruct (decide (P x)) as [HP|HP].
  - rewrite decide_True by (by rewrite Hx, bool_decide_eq_true_2).
    cbn [omap list_omap]. rewrite lookup_app_r by lia.
    rewrite Nat.sub_diag. cbn [lookup list_lookup]. by rewrite IH.
  - rewrite decide_False; [exact IH|].
    rewrite Hx, bool_decide_eq_false_2 by done. discriminate.
Qed.

(** [l[mask]] keeps the entries the mask is true at, in their order. *)
Lemma take_col_mask {A} (P : A → Prop) `{!∀ x, Decision (P x)} (l : list A) :
  take_col
    (filter (λ i, ((λ x, bool_decide (P x)) <$> l) !! i = Some true)
       (seq 0 (length ((λ x, bool_decide (P x)) <$> l)))) l
  = filter P l.
Proof. rewrite length_fmap. apply (omap_filter_mask P l []). Qed.

Lemma selection_fmap data ticker start_date end_date :
  App_script.selection data ticker start_date end_date
  = (λ r, bool_decide (selected ticker start_date end_date r)) <$> keys data.
Proof.
  unfold App_script.selection, keys. rewrite zip_with_zip.
  apply list_fmap_ext. intros i [tk d] _. unfold selected.
  cbn [uncurry fst snd].
  destruct (decide (tk = ticker)) as [Ht|Ht].
  - rewrite (bool_decide_eq_true_2 _ Ht). cbn [andb].
    destruct (Z.leb_spec start_date d), (Z.leb_spec d end_date); cbn [andb];
      symmetry;
      first [apply bool_decide_eq_true_2; split; [done|lia]
            |apply bool_decide_eq_false_2; intros [_ ?]; lia].
  - rewrite (bool_decide_eq_false_2 _ Ht). cbn [andb].
    symmetry. apply bool_decide_eq_false_2. by intros [? _].
Qed.

Lemma selection_mask_zip {B} data ticker start_date end_date (c : list B) :
  length c = len data → length (Ticker data) = len data →
  App_script.selection data ticker start_date end_date
  = (λ p, bool_decide (selected ticker start_date end_date p.1))
      <$> zip (keys data) c.
Proof.
  intros Hc Ht. rewrite selection_fmap.
  rewrite <- (fst_zip (keys data) c) at 1.
  - by rewrite <- list_fmap_compose.
  - unfold keys. rewrite length_zip. unfold len in *. lia.
Qed.

Lemma length_take_col_lt {A} (idx : list nat) (c : list A) :
  Forall (λ i, i < length c)%nat idx → length (take_col idx c) = length idx.
Proof.
  unfold take_col. induction 1 as [|i idx Hi _ IH]; [done|].
  cbn [omap list_omap length].
  destruct (lookup_lt_is_Some_2 c i Hi) as [x ->]. cbn. by rewrite IH.
Qed.

Lemma mask_indices_lt (mask : list bool) :
  Forall (λ i, i < length mask)%nat
    (filter (λ i, mask !! i = Some true) (seq 0 (length mask))).
Proof.
  apply Forall_forall. intros i [_ Hi]%list_elem_of_filter.
  apply elem_of_seq in Hi. lia.
Qed.

Lemma length_selection data ticker start_date end_date :
  length (Ticker data) = len data →
  length (App_script.selection data ticker start_date end_date) = len data.
Proof.
  intros Ht. unfold App_script.selection. rewrite length_zip_with, Ht.
  apply Nat.min_id.
Qed.

Lemma wf_boolean_index mask data :
  wf data → length mask = len data → wf (boolean_index mask data).
Proof.
  intros [Ht Hc] Hm. pose proof (mask_indices_lt mask) as Hidx.
  unfold boolean_index, take_rows, wf, len. cbn [Ticker Date cols].
  unfold len in *. split.
  - rewrite !length_take_col_lt; [done|by rewrite Hm in *|by rewrite Ht, <- Hm].
  - intros k c'. rewrite lookup_fmap.
    destruct (cols data !! k) as [c|] eqn:Hk; [|done]. intros [= <-].
    rewrite !length_take_col_lt; [done|by rewrite Hm in *|].
    by rewrite (Hc k c Hk), <- Hm.
Qed.

Lemma keys_filtered_data data ticker start_date end_date :
  wf data →
  length (keys (App_script.filtered_data data ticker start_date end_date))
  = len (App_script.filtered_data data ticker start_date end_date) ∧
  keys (App_script.filtered_data data ticker start_date end_date)
  = filter (selected ticker start_date end_date) (keys data).
Proof.
  intros Hwf. pose proof Hwf as [Ht Hc].
  pose proof (length_selection data ticker start_date end_date Ht) as Hlm.
  split.
  - destruct (wf_boolean_index
                (App_script.selection data ticker start_date end_date) data
                Hwf Hlm) as [Ht' _].
    unfold keys. rewrite length_zip. fold (App_script.filtered_data data ticker
      start_date end_date) in Ht'. unfold len in *. lia.
  - unfold App_script.filtered_data, boolean_index, keys, take_rows.
    cbn [Ticker Date]. rewrite take_col_zip by exact Ht.
    rewrite selection_fmap. apply take_col_mask.
Qed.

(** X12. The selection [data[(Ticker == ticker) & (Date >= start) &
    (Date <= end)]] of the script keeps exactly the rows of the chosen
    ticker dated within the two bounds (both inclusive), in the order they
    have in [data]; every column keeps the cells of the kept rows, and the
    result is well formed. *)
Theorem X12_filtered_data_rows (data : DataFrame) (ticker : string)
    (start_date end_date : Timestamp) :
  wf data →
  let filtered_data :=
    App_script.filtered_data data ticker start_date end_date in
  wf filtered_data ∧
  keys filtered_data = filter (selected ticker start_date end_date) (keys data) ∧
  ∀ k c, cols data !! k = Some c →
    ∃ c', cols filtered_data !! k = Some c' ∧
          zip (keys filtered_data) c'
          = filter (λ p, selected ticker start_date end_date p.1)
              (zip (keys data) c).
Proof.
  intros Hwf fd. pose proof Hwf as [Ht Hc].
  pose proof (length_selection data ticker start_date end_date Ht) as Hlm.
  split; [by apply wf_boolean_index|].
  assert (length (Ticker data) = length (Date data)) as Htd by exact Ht.
  split.
  - unfold fd, App_script.filtered_data, boolean_index, keys, take_rows.
    cbn [Ticker Date]. rewrite take_col_zip by done.
    rewrite selection_fmap. apply take_col_mask.
  - intros k c Hk. pose proof (Hc k c Hk) as Hlc.
    unfold fd, App_script.filtered_data, boolean_index, take_rows.
    unfold keys at 1. cbn [Ticker Date cols]. rewrite lookup_fmap, Hk.
    eexists. split; [reflexivity|].
    rewrite (take_col_zip _ (Ticker data) (Date data)) by done.
    rewrite take_col_zip.
    + fold (keys data).
      rewrite (selection_mask_zip data ticker start_date end_date c Hlc Ht).
      apply (take_col_mask (λ p, selected ticker start_date end_date p.1)).
    + rewrite length_zip. unfold len in *. lia.
Qed.

(** X13. The script takes the branch of the error message, computing
    nothing and raising nothing, exactly when no row of [data] has the
    chosen ticker with a date within the bounds; in particular whenever the
    end date is before the start date. *)
Theorem X13_script_empty_selection (data : DataFrame) (ticker : string)
    (start_date end_date : Timestamp) :
  wf data →
  (App_script.indicators data ticker start_date end_date = Ok None ↔
   filter (selected ticker start_date end_date) (keys data) = []) ∧
  ((end_date < start_date)%Z →
   App_script.indicators data ticker start_date end_date = Ok None).
Proof.
  intros Hwf.
  destruct (keys_filtered_data data ticker start_date end_date Hwf)
    as [Hlen Hkeys].
  assert (App_script.indicators data ticker start_date end_date = Ok None ↔
          filter (selected ticker start_date end_date) (keys data) = [])
    as Hiff.
  { unfold App_script.indicators. cbv zeta. rewrite <- Hkeys. split.
    - destruct (decide _) as [H0|H0].
      + intros _. apply length_zero_iff_nil. by rewrite Hlen.
      + destruct (App.add_technical_indicators _); discriminate.
    - intros Hnil. rewrite decide_True; [done|]. by rewrite <- Hlen, Hnil. }
  split; [exact Hiff|].
  intros Hlt. apply Hiff. apply filter_none.
  intros r _ [_ Hr]. lia.
Qed.

(** ** The order of the loaded rows *)

Lemma ascii_compare_refl (a : Ascii.ascii) : Ascii.compare a a = Eq.
Proof. unfold Ascii.compare. apply N.compare_refl. Qed.

Lemma ascii_compare_Lt_trans (a b c : Ascii.ascii) :
  Ascii.compare a b = Lt → Ascii.compare b c = Lt → Ascii.compare a c = Lt.
Proof. unfold Ascii.compare. rewrite !N.compare_lt_iff. lia. Qed.

Lemma string_compare_refl (s : string) : String.compare s s = Eq.
Proof.
  induction s as [|a s IH]; [done|]. cbn [String.compare].
  by rewrite ascii_compare_refl.
Qed.

Lemma string_compare_Lt_trans (a : string) : ∀ b c,
  String.compare a b = Lt → String.compare b c = Lt → String.compare a c = Lt.
Proof.
  induction a as [|x a IH]; intros [|y b] [|z c]; cbn [String.compare];
    try done.
  destruct (Ascii.compare x y) eqn:Hxy; try done;
    destruct (Ascii.compare y z) eqn:Hyz; try done.
  - apply Ascii.compare_eq_iff in Hxy as ->.
    apply Ascii.compare_eq_iff in Hyz as ->.
    rewrite ascii_compare_refl. apply IH.
  - apply Ascii.compare_eq_iff in Hxy as ->. by rewrite Hyz.
  - apply Ascii.compare_eq_iff in Hyz as <-. by rewrite Hxy.
  - by rewrite (ascii_compare_Lt_trans x y z).
Qed.

Lemma key_le_trans a b c :
  key_le a b = true → key_le b c = true → key_le a c = true.
Proof.
  unfold key_le.
  destruct (String.compare a.1 b.1) eqn:Hab; try done;
    destruct (String.compare b.1 c.1) eqn:Hbc; try done.
  - apply String.compare_eq_iff in Hab. apply String.compare_eq_iff in Hbc.
    rewrite Hab, Hbc, string_compare_refl. lia.
  - apply String.compare_eq_iff in Hab. by rewrite Hab, Hbc.
  - apply String.compare_eq_iff in Hbc. by rewrite <- Hbc, Hab.
  - by rewrite (string_compare_Lt_trans _ _ _ Hab Hbc).
Qed.

Lemma key_order_trans : Transitive key_order.
Proof. intros a b c. apply key_le_trans. Qed.

Lemma key_order_same_ticker (tk : string) (d1 d2 : Timestamp) :
  key_order (tk, d1) (tk, d2) → (d1 ≤ d2)%Z.
Proof.
  unfold key_order, key_le. cbn [fst snd]. rewrite string_compare_refl. lia.
Qed.

Lemma wf_sort_values (csv : DataFrame) : wf csv → wf (sort_values_Ticker_Date csv).
Proof.
  intros [Hwt Hwc].
  assert (length (zip (Ticker csv) (Date csv)) = len csv) as Hlz.
  { rewrite length_zip, Hwt. apply Nat.min_id. }
  pose proof (argsort_Permutation (zip (Ticker csv) (Date csv))) as Hperm.
  rewrite Hlz in Hperm.
  unfold sort_values_Ticker_Date, wf, len, take_rows. cbn [Ticker Date cols].
  split.
  - rewrite !length_take_col; [done|done|by rewrite Hwt].
  - intros k c'. rewrite lookup_fmap.
    destruct (cols csv !! k) as [c|] eqn:Hc; [|done].
    intros [= <-]. pose proof (Hwc k c Hc) as Hlc. unfold len in Hlc.
    rewrite !length_take_col; [done|done|by rewrite Hlc].
Qed.

Lemma keys_sort_values_sorted (csv : DataFrame) :
  wf csv → StronglySorted key_order (keys (sort_values_Ticker_Date csv)).
Proof.
  intros [Hwt _]. apply Sorted_StronglySorted; [apply key_order_trans|].
  unfold keys, sort_values_Ticker_Date, take_rows. cbn [Ticker Date].
  rewrite take_col_zip by exact Hwt. apply argsort_Sorted.
Qed.

Lemma dates_of_one_ticker_sorted (ticker : string)
    (l : list (string * Timestamp)) :
  StronglySorted key_order l → Forall (λ r, r.1 = ticker) l →
  StronglySorted Z.le l.*2.
Proof.
  induction 1 as [|[tk d] l HS IH Hd]; intros Ht; [constructor|].
  apply Forall_cons in Ht as [Htk Ht]. cbn [fst] in Htk. subst tk.
  cbn [fmap list_fmap snd]. constructor; [by apply IH|].
  apply Forall_fmap, Forall_forall. intros [tk' d'] Hin.
  rewrite Forall_forall in Hd, Ht.
  pose proof (Ht _ Hin) as Htk'. cbn [fst] in Htk'. subst tk'.
  cbn [snd compose]. by apply (key_order_same_ticker ticker), Hd.
Qed.

(** X14. What the script computes its indicators on: after [load_data] of
    [app.py] has sorted the file by (Ticker, Date), the selected frame holds
    rows of the chosen ticker only, dated within the bounds, with the dates
    in ascending order, whatever the order of the rows in the file. *)
Theorem X14_selection_of_loaded_data (csv : DataFrame) (ticker : string)
    (start_date end_date : Timestamp) :
  wf csv →
  ∃ data,
    App.load_data csv = Ok data ∧
    let filtered_data :=
      App_script.filtered_data data ticker start_date end_date in
    Forall (eq ticker) (Ticker filtered_data) ∧
    Forall (λ d, start_date ≤ d ≤ end_date)%Z (Date filtered_data) ∧
    StronglySorted Z.le (Date filtered_data).
Proof.
  intros Hwf. exists (sort_values_Ticker_Date csv). split; [reflexivity|].
  cbv zeta.
  pose proof (wf_sort_values csv Hwf) as Hwf'.
  destruct (keys_filtered_data (sort_values_Ticker_Date csv) ticker start_date
              end_date Hwf') as [Hlen Hkeys].
  set (fd := App_script.filtered_data _ ticker start_date end_date) in *.
  assert (length (Ticker fd) = length (Date fd)) as Htd.
  { apply (wf_boolean_index _ _ Hwf').
    apply length_selection, Hwf'. }
  assert (Ticker fd = (keys fd).*1) as ->.
  { unfold keys. rewrite fst_zip; [done|lia]. }
  assert (Date fd = (keys fd).*2) as ->.
  { unfold keys. rewrite snd_zip; [done|lia]. }
  rewrite Hkeys.
  assert (Forall (λ r, r.1 = ticker ∧ (start_date ≤ r.2 ≤ end_date)%Z)
            (filter (selected ticker start_date end_date)
               (keys (sort_values_Ticker_Date csv)))) as Hsel.
  { apply Forall_forall. by intros r [Hr _]%list_elem_of_filter. }
  split; [|split].
  - apply Forall_fmap. eapply Forall_impl; [exact Hsel|].
    by intros r [Hr _].
  - apply Forall_fmap. eapply Forall_impl; [exact Hsel|].
    by intros r [_ Hr].
  - apply (dates_of_one_ticker_sorted ticker).
    + eapply StronglySorted_sublist; [apply sublist_filter|].
      by apply keys_sort_values_sorted.
    + eapply Forall_impl; [exact Hsel|]. by intros r [Hr _].
Qed.

(** ** Loading a file that is already in order *)

Lemma foldr_insert_key_sorted (ks : list (string * Timestamp)) : ∀ i,
  Sorted key_order ks →
  foldr insert_key [] (zip ks (seq i (length ks))) = zip ks (seq i (length ks)).
Proof.
  induction ks as [|k ks IH]; intros i HS; [done|].
  apply Sorted_inv in HS as [HS Hhd].
  cbn [length seq zip zip_with foldr].
  change (zip_with pair ks (seq (S i) (length ks)))
    with (zip ks (seq (S i) (length ks))).
  rewrite IH by done.
  destruct ks as [|k' ks]; [done|].
  cbn [length seq zip zip_with insert_key fst].
  apply HdRel_inv in Hhd. unfold key_order in Hhd. by rewrite Hhd.
Qed.

Lemma argsort_sorted (ks : list (string * Timestamp)) :
  Sorted key_order ks → argsort ks = seq 0 (length ks).
Proof.
  intros HS. unfold argsort. rewrite foldr_insert_key_sorted by done.
  apply snd_zip. by rewrite length_seq.
Qed.

Lemma take_col_seq {A} (c : list A) : take_col (seq 0 (length c)) c = c.
Proof.
  unfold take_col. rewrite omap_lookup_seq by lia.
  by rewrite drop_0, firstn_all.
Qed.

Lemma take_rows_seq (df : DataFrame) :
  wf df → take_rows (seq 0 (len df)) df = df.
Proof.
  intros [Ht Hc]. destruct df as [T D cs]. unfold take_rows, len in *.
  cbn [Ticker Date cols] in *. f_equal.
  - rewrite <- Ht. apply take_col_seq.
  - apply take_col_seq.
  - apply map_eq. intros k. rewrite lookup_fmap.
    destruct (cs !! k) as [c|] eqn:Hk; [|done]. cbn.
    rewrite <- (Hc k c Hk). by rewrite take_col_seq.
Qed.

Lemma load_data_sorted (df : DataFrame) :
  wf df → Sorted key_order (keys df) → App.load_data df = Ok df.
Proof.
  intros Hwf HS. unfold App.load_data, sort_values_Ticker_Date.
  cbn [mret result_ret]. f_equal. fold (keys df).
  rewrite argsort_sorted by done.
  replace (length (keys df)) with (len df); [by apply take_rows_seq|].
  unfold keys. rewrite length_zip, (proj1 Hwf). by rewrite Nat.min_id.
Qed.

(** X15. [load_data] of [app.py] returns a file whose rows are already in
    (Ticker, Date) order exactly as it is, rows with equal keys included;
    and loading the result of a load again changes nothing. *)
Theorem X15_load_data_idempotent (csv : DataFrame) :
  wf csv →
  (Sorted key_order (keys csv) → App.load_data csv = Ok csv) ∧
  ∃ data, App.load_data csv = Ok data ∧ App.load_data data = Ok data.
Proof.
  intros Hwf. split; [by apply load_data_sorted|].
  exists (sort_values_Ticker_Date csv). split; [reflexivity|].
  apply load_data_sorted; [by apply wf_sort_values|].
  by apply StronglySorted_Sorted, keys_sort_values_sorted.
Qed.

(** ** A missing price inside the series *)

Lemma ewm_out_step_NaN com adjust minp st :
  ewm_out minp (ewm_step com adjust st NaN) = ewm_out minp st.
Proof.
  unfold ewm_step, ewm_out. cbn [is_obs].
  by destruct (is_obs (weighted st)).
Qed.

Lemma ewm_loop_ffill com adjust minp vals : ∀ st t,
  vals !! S t = Some NaN →
  ewm_loop com adjust minp st vals !! S t
  = ewm_loop com adjust minp st vals !! t.
Proof.
  induction vals as [|v vals IH]; intros st t Hv; [done|].
  cbn [ewm_loop]. cbn [lookup list_lookup] in Hv.
  destruct t as [|t].
  - destruct vals as [|v' vals]; [done|]. injection Hv as ->.
    cbn [ewm_loop lookup list_lookup]. by rewrite ewm_out_step_NaN.
  - change ((?x :: ?l) !! S ?n) with (l !! n). by apply IH.
Qed.

Lemma ewm_mean_ffill com adjust min_periods vals t :
  vals !! S t = Some NaN →
  ewm_mean com adjust min_periods vals !! S t
  = ewm_mean com adjust min_periods vals !! t.
Proof.
  intros Hv. destruct vals as [|v0 vals]; [done|].
  unfold ewm_mean. cbn [lookup list_lookup] in Hv.
  destruct t as [|t].
  - destruct vals as [|v' vals]; [done|]. injection Hv as ->.
    cbn [ewm_loop lookup list_lookup]. by rewrite ewm_out_step_NaN.
  - change ((?x :: ?l) !! S ?n) with (l !! n).
    change ((?x :: ?l) !! S ?n) with (l !! n). by apply ewm_loop_ffill.
Qed.

(** X16. A NaN price does not poison the averages of [get_MACD]: at a row
    whose price is NaN the columns EMA-12, EMA-26 and MACD repeat the value
    they have at the row before. *)
Theorem X16_get_MACD_missing_price (df : DataFrame) (c : list float)
    (t : nat) :
  cols df !! "Price Close" = Some c →
  no_inf c →
  c !! S t = Some NaN →
  ∃ df',
    Dashboard_Functions.get_MACD df "Price Close" = Ok df' ∧
    ∀ k, k ∈ ["EMA-12"; "EMA-26"; "MACD"] →
      ∃ col, cols df' !! k = Some col ∧ col !! S t = col !! t.
Proof.
  intros Hc _ Ht. eexists. split; [by apply get_MACD_ok|].
  intros k Hk. rewrite !elem_of_cons, elem_of_nil in Hk.
  destruct Hk as [->|[->|[->|[]]]];
    rewrite ?lookup_setitem_ne by neq_str; rewrite lookup_setitem_eq;
    eexists; (split; [reflexivity|]).
  - by apply ewm_mean_ffill.
  - by apply ewm_mean_ffill.
  - unfold series_sub. rewrite !lookup_zip_with.
    by rewrite !(ewm_mean_ffill _ _ _ c t Ht).
Qed.

(** ** Falling prices *)









(** ** The order of the indicator calls *)

(** What [get_RSI], [calculate_rsi] and [calculate_macd] write depends on
    the price column only. *)
Lemma get_RSI_column (c : list float) (time_window : nat) :
  ∃ rsi, ∀ df, cols df !! "Price Close" = Some c →
    Dashboard_Functions.get_RSI df "Price Close" time_window
    = Ok (setitem df "RSI" rsi).
Proof.
  eexists. intros df Hc. unfold Dashboard_Functions.get_RSI.
  rewrite (getitem_Some _ _ _ Hc), bind_Ok. reflexivity.
Qed.

Lemma calculate_rsi_column (c : list float) (period : nat) :
  ∃ rsi, ∀ df, cols df !! "Price Close" = Some c →
    App.calculate_rsi df period = Ok (setitem df "RSI" rsi).
Proof.
  eexists. intros df Hc. unfold App.calculate_rsi.
  rewrite (getitem_Some _ _ _ Hc), bind_Ok. reflexivity.
Qed.

Lemma calculate_macd_column (c : list float) :
  ∃ macd signal_line, ∀ df, cols df !! "Price Close" = Some c →
    App.calculate_macd df
    = Ok (setitem (setitem df "MACD" macd) "Signal Line" signal_line).
Proof.
  eexists _, _. intros df Hc. unfold App.calculate_macd. cbv zeta.
  rewrite !(getitem_Some _ _ _ Hc), !bind_Ok.
  rewrite getitem_setitem_eq, bind_Ok. reflexivity.
Qed.

Lemma lookup_setitem_congr df1 df2 k' s k :
  cols df1 !! k = cols df2 !! k →
  cols (setitem df1 k' s) !! k = cols (setitem df2 k' s) !! k.
Proof.
  intros H. destruct (decide (k' = k)) as [->|Hne].
  - by rewrite !lookup_setitem_eq.
  - by rewrite !lookup_setitem_ne.
Qed.

(** X19. [get_MACD] and [get_RSI] do not depend on each other: called in
    either order on a frame with a ['Price Close'] column of numbers and
    NaN (and a window of at least one day) they succeed and leave the same rows and, under every
    column name, the same cells.  The same holds for [calculate_macd] and
    [calculate_rsi]. *)
Theorem X19_indicator_calls_commute (df : DataFrame) (c : list float)
    (time_window : nat) :
  (1 ≤ time_window)%nat →
  cols df !! "Price Close" = Some c →
  no_inf c →
  (∃ df1 df2,
     (Dashboard_Functions.get_MACD df "Price Close" ≫=
        λ d, Dashboard_Functions.get_RSI d "Price Close" time_window) = Ok df1 ∧
     (Dashboard_Functions.get_RSI df "Price Close" time_window ≫=
        λ d, Dashboard_Functions.get_MACD d "Price Close") = Ok df2 ∧
     Ticker df1 = Ticker df2 ∧ Date df1 = Date df2 ∧
     ∀ k, cols df1 !! k = cols df2 !! k) ∧
  (∃ df1 df2,
     (App.calculate_macd df ≫= λ d, App.calculate_rsi d time_window) = Ok df1 ∧
     (App.calculate_rsi df time_window ≫= App.calculate_macd) = Ok df2 ∧
     Ticker df1 = Ticker df2 ∧ Date df1 = Date df2 ∧
     ∀ k, cols df1 !! k = cols df2 !! k).
Proof.
  intros _ Hc _. split.
  - destruct (get_RSI_column c time_window) as [rsi Hr].
    eexists _, _. split; [|split].
    + rewrite (get_MACD_ok df c Hc), bind_Ok. cbv zeta. apply Hr.
      by rewrite !lookup_setitem_ne by neq_str.
    + rewrite (Hr df Hc), bind_Ok. apply get_MACD_ok.
      by rewrite lookup_setitem_ne by neq_str.
    + split; [done|]. split; [done|]. intros k. cbv zeta.
      destruct (decide (k = "RSI")) as [->|Hk].
      * rewrite lookup_setitem_eq. rewrite !lookup_setitem_ne by neq_str.
        by rewrite lookup_setitem_eq.
      * rewrite (lookup_setitem_ne _ "RSI" k) by done.
        do 5 apply lookup_setitem_congr.
        by rewrite lookup_setitem_ne by done.
  - destruct (calculate_rsi_column c time_window) as [rsi Hr].
    destruct (calculate_macd_column c) as (macd & sl & Hm).
    eexists _, _. split; [|split].
    + rewrite (Hm df Hc), bind_Ok. apply Hr.
      by rewrite !lookup_setitem_ne by neq_str.
    + rewrite (Hr df Hc), bind_Ok. apply Hm.
      by rewrite lookup_setitem_ne by neq_str.
    + split; [done|]. split; [done|]. intros k.
      destruct (decide (k = "RSI")) as [->|Hk].
      * rewrite lookup_setitem_eq. rewrite !lookup_setitem_ne by neq_str.
        by rewrite lookup_setitem_eq.
      * rewrite (lookup_setitem_ne _ "RSI" k) by done.
        do 2 apply lookup_setitem_congr.
        by rewrite lookup_setitem_ne by done.
Qed.

(** ** The order of the closed dates *)

Lemma seqZ_sorted (m n : Z) : StronglySorted Z.lt (seqZ m n).
Proof.
  remember (Z.to_nat n) as k eqn:Hk. revert m n Hk.
  induction k as [|k IH]; intros m n Hk.
  - rewrite seqZ_nil by lia. constructor.
  - rewrite seqZ_cons by lia. constructor.
    + apply IH. lia.
    + apply Forall_forall. intros x Hx%elem_of_seqZ. lia.
Qed.

(** X20. [get_closed_dates] lists the closed days in ascending calendar
    order, and every one of them lies strictly between the first and the
    last date of the frame. *)
Theorem X20_closed_dates_ascending (df : DataFrame)
    (first_day last_day : Timestamp) :
  Date df !! 0%nat = Some first_day →
  last (Date df) = Some last_day →
  Forall in_Timestamp_range (Date df) →
  ∃ days,
    Dashboard_Functions.get_closed_dates df = Ok (strftime <$> days) ∧
    StronglySorted Z.lt days ∧
    Forall (λ d, first_day < d < last_day)%Z days.
Proof.
  intros Hfirst Hlast Hrange.
  destruct (first_last_in_range df first_day last_day Hfirst Hlast Hrange)
    as (_ & _ & Hfin & Hlin).
  eexists. split; [by apply get_closed_dates_filter|]. split.
  - eapply StronglySorted_sublist; [apply sublist_filter|]. apply seqZ_sorted.
  - apply Forall_forall. intros d [Hd Hin]%list_elem_of_filter.
    apply elem_of_date_range in Hin.
    assert (d ≠ first_day) by (by intros ->).
    assert (d ≠ last_day) by (by intros ->). lia.
Qed.

(** ** The detector called before the indicators *)

(** X21. [get_trading_strategy] on a frame with at least one row that has
    not been through [get_MACD]: without a MACD column it raises
    [KeyError('MACD')], and with a MACD column but no Signal column it
    raises [KeyError('Signal')], in both cases at the first row and
    whatever the price column is. *)
Theorem X21_strategy_before_indicators (df : DataFrame) (column : string) :
  len df ≠ 0%nat →
  (cols df !! "MACD" = None →
   Dashboard_Functions.get_trading_strategy df column = Raise (KeyError "MACD") ∧
   App.get_trading_strategy df column = Raise (KeyError "MACD")) ∧
  (∀ macd, cols df !! "MACD" = Some macd → length macd = len df →
   cols df !! "Signal" = None →
   Dashboard_Functions.get_trading_strategy df column = Raise (KeyError "Signal") ∧
   App.get_trading_strategy df column = Raise (KeyError "Signal")).
Proof.
  intros Hne. rewrite App_get_trading_strategy_eq.
  destruct (len df) as [|n] eqn:Hn; [done|]. split.
  - intros Hm.
    assert (Dashboard_Functions.get_trading_strategy df column
            = Raise (KeyError "MACD")) as H; [|done].
    unfold Dashboard_Functions.get_trading_strategy. rewrite Hn.
    cbn [seq for_each]. unfold Dashboard_Functions.strategy_body.
    by rewrite (getitem_None _ _ Hm).
  - intros macd Hm Hlen Hs.
    assert (Dashboard_Functions.get_trading_strategy df column
            = Raise (KeyError "Signal")) as H; [|done].
    unfold Dashboard_Functions.get_trading_strategy. rewrite Hn.
    cbn [seq for_each]. rewrite <- App_strategy_body_eq.
    rewrite (strategy_body_no_Signal _ _ macd); [done|done|lia|done].
Qed.

(** ** The hierarchy of the circle-packing chart *)

Lemma elem_of_unique_from (l : list string) : ∀ seen x,
  x ∈ Circle_packing.unique_from seen l ↔ x ∈ l ∧ x ∉ seen.
Proof.
  induction l as [|a l IH]; intros seen x; cbn [Circle_packing.unique_from].
  - rewrite elem_of_nil. split; [done|by intros [? _]].
  - destruct (decide (a ∈ seen)) as [Ha|Ha].
    + rewrite IH, elem_of_cons. split.
      * intros [Hl Hn]. split; [by right|done].
      * intros [[->|Hl] Hn]; [done|by split].
    + rewrite !elem_of_cons, IH, not_elem_of_cons. split.
      * intros [->|[Hl [Hne Hn]]]; [split; [by left|done]|].
        split; [by right|done].
      * intros [[->|Hl] Hn]; [by left|].
        destruct (decide (x = a)) as [->|Hne]; [by left|]. by right.
Qed.

Lemma NoDup_unique_from (l : list string) : ∀ seen,
  NoDup (Circle_packing.unique_from seen l).
Proof.
  induction l as [|a l IH]; intros seen; cbn [Circle_packing.unique_from];
    [constructor|].
  destruct (decide (a ∈ seen)); [apply IH|].
  constructor; [|apply IH].
  rewrite elem_of_unique_from. intros [_ H]. apply H. by left.
Qed.

Lemma elem_of_dropna_unique (df_final : list Circle_packing.StockRow) sec :
  sec ∈ Circle_packing.dropna_unique (Circle_packing.sector <$> df_final) ↔
  ∃ row, row ∈ df_final ∧ Circle_packing.sector row = Some sec.
Proof.
  unfold Circle_packing.dropna_unique.
  rewrite elem_of_unique_from, list_elem_of_omap. split.
  - intros [(o & Ho & Heq) _]. apply list_elem_of_fmap in Ho as (row & -> & Hrow).
    by exists row.
  - intros (row & Hrow & Heq). split; [|apply not_elem_of_nil].
    exists (Some sec). split; [|done].
    apply list_elem_of_fmap. by exists row.
Qed.

Lemma filter_or_Permutation {A} (P Q : A → Prop)
    `{!∀ x, Decision (P x), !∀ x, Decision (Q x)} (l : list A) :
  (∀ x, P x → Q x → False) →
  filter (λ x, P x ∨ Q x) l ≡ₚ filter P l ++ filter Q l.
Proof.
  intros Hdisj. induction l as [|x l IH]; [done|].
  rewrite !filter_cons.
  destruct (decide (P x)) as [HP|HP], (decide (Q x)) as [HQ|HQ].
  - destruct (Hdisj x HP HQ).
  - rewrite decide_True by (by left). cbn [app]. by rewrite IH.
  - rewrite decide_True by (by right). rewrite IH.
    apply Permutation_middle.
  - rewrite decide_False by (by intros [?|?]). exact IH.
Qed.

Lemma filter_iff_elem_of {A} (P Q : A → Prop)
    `{!∀ x, Decision (P x), !∀ x, Decision (Q x)} (l : list A) :
  (∀ x, x ∈ l → P x ↔ Q x) → filter P l = filter Q l.
Proof.
  induction l as [|x l IH]; intros Hiff; [done|].
  rewrite !filter_cons.
  assert (filter P l = filter Q l) as ->.
  { apply IH. intros y Hy. apply Hiff. by right. }
  destruct (decide (P x)) as [HP|HP].
  - rewrite decide_True; [done|]. apply Hiff; [by left|done].
  - rewrite decide_False; [done|]. intros HQ. apply HP, Hiff; [by left|done].
Qed.

(** The rows of the sectors of [secs], sector by sector. *)
Lemma rows_by_sector (secs : list string)
    (df_final : list Circle_packing.StockRow) :
  NoDup secs →
  concat ((λ sec, filter (λ row, Circle_packing.sector row = Some sec) df_final)
            <$> secs)
  ≡ₚ filter (Circle_packing.in_sectors secs) df_final.
Proof.
  induction 1 as [|sec secs Hnin Hnd IH]; cbn [fmap list_fmap concat].
  - rewrite filter_none; [done|].
    intros row _ (sec & _ & Hin). by apply elem_of_nil in Hin.
  - rewrite IH, <- filter_or_Permutation.
    + erewrite list_filter_iff; [done|]. intros row.
      unfold Circle_packing.in_sectors. split.
      * intros [Heq|(sec' & Heq & Hin)].
        -- exists sec. split; [done|by left].
        -- exists sec'. split; [done|by right].
      * intros (sec' & Heq & [->|Hin]%elem_of_cons); [by left|].
        right. by exists sec'.
    + intros row Heq (sec' & Heq' & Hin). rewrite Heq in Heq'.
      injection Heq' as <-. by apply Hnin.
Qed.

Lemma concat_sector_children (secs : list string)
    (df_final : list Circle_packing.StockRow) :
  concat (Circle_packing.sector_children <$>
    ((λ sec, Circle_packing.mkSectorNode sec
        (Circle_packing.stock_node <$>
           filter (λ row, Circle_packing.sector row = Some sec) df_final))
     <$> secs))
  = Circle_packing.stock_node <$>
      concat ((λ sec, filter (λ row, Circle_packing.sector row = Some sec)
                 df_final) <$> secs).
Proof.
  induction secs as [|sec secs IH]; [done|].
  cbn [fmap list_fmap concat Circle_packing.sector_children].
  rewrite fmap_app. f_equal. exact IH.
Qed.

(** X22. [build_hierarchical_data] groups the stocks by sector: the sectors
    of the chart are exactly the sectors present in the data, each once; no
    sector is empty and each holds the stocks of its rows, in row order;
    every row that has a sector gives exactly one stock of the chart, and
    the rows without a sector are left out; no stock carries a NaN price
    change, and its value is its volume. *)
Theorem X22_build_hierarchical_data
    (df_final : list Circle_packing.StockRow) :
  let groups :=
    Circle_packing.root_children
      (Circle_packing.build_hierarchical_data df_final) in
  NoDup (Circle_packing.sector_name <$> groups) ∧
  (∀ sec, sec ∈ Circle_packing.sector_name <$> groups ↔
     ∃ row, row ∈ df_final ∧ Circle_packing.sector row = Some sec) ∧
  Forall (λ g,
      Circle_packing.sector_children g ≠ [] ∧
      Circle_packing.sector_children g
      = Circle_packing.stock_node <$>
          filter (λ row, Circle_packing.sector row
                         = Some (Circle_packing.sector_name g)) df_final)
    groups ∧
  concat (Circle_packing.sector_children <$> groups)
  ≡ₚ Circle_packing.stock_node <$>
       filter (λ row, is_Some (Circle_packing.sector row)) df_final ∧
  Forall (λ n,
      Circle_packing.node_PriceChange n ≠ NaN ∧
      Circle_packing.node_value n = Circle_packing.node_volume n)
    (concat (Circle_packing.sector_children <$> groups)).
Proof.
  cbv zeta. unfold Circle_packing.build_hierarchical_data.
  cbn [Circle_packing.root_children].
  set (secs := Circle_packing.dropna_unique (Circle_packing.sector <$> df_final)).
  assert (NoDup secs) as Hnd by apply NoDup_unique_from.
  assert (∀ sec, sec ∈ secs ↔
            ∃ row, row ∈ df_final ∧ Circle_packing.sector row = Some sec)
    as Hsecs by (intros sec; apply elem_of_dropna_unique).
  assert (Circle_packing.sector_name <$>
            ((λ sec, Circle_packing.mkSectorNode sec
                (Circle_packing.stock_node <$>
                   filter (λ row, Circle_packing.sector row = Some sec) df_final))
             <$> secs) = secs) as Hnames.
  { rewrite <- list_fmap_compose. apply list_fmap_id. }
  assert (concat (Circle_packing.sector_children <$>
            ((λ sec, Circle_packing.mkSectorNode sec
                (Circle_packing.stock_node <$>
                   filter (λ row, Circle_packing.sector row = Some sec) df_final))
             <$> secs))
          ≡ₚ Circle_packing.stock_node <$>
               filter (λ row, is_Some (Circle_packing.sector row)) df_final)
    as Hperm.
  { rewrite concat_sector_children, (rows_by_sector secs df_final Hnd).
    rewrite (filter_iff_elem_of (Circle_packing.in_sectors secs)
               (λ row, is_Some (Circle_packing.sector row))); [done|].
    intros row Hrow. unfold Circle_packing.in_sectors. split.
    - intros (sec & Heq & _). rewrite Heq. by eexists.
    - intros [sec Heq]. exists sec. split; [done|].
      apply Hsecs. by exists row. }
  split; [by rewrite Hnames|]. split; [by rewrite Hnames|].
  split; [|split; [exact Hperm|]].
  - apply Forall_fmap, Forall_forall. intros sec Hsec.
    cbn [compose Circle_packing.sector_children Circle_packing.sector_name].
    split; [|done].
    apply Hsecs in Hsec as (row & Hrow & Heq).
    intros Hnil. apply fmap_nil_inv in Hnil.
    by apply (filter_nil_not_elem_of _ _ row Hnil Heq).
  - rewrite Hperm. apply Forall_fmap, Forall_forall. intros row _.
    cbn [compose Circle_packing.stock_node Circle_packing.node_PriceChange
         Circle_packing.node_value Circle_packing.node_volume].
    split; [|done]. by destruct (Circle_packing.PriceChange row).
Qed.

(** ** The string helpers nested in main *)

Lemma prefix_of_app_length {A} (l1 l2 l3 : list A) :
  l1 `prefix_of` l2 ++ l3 → (length l1 ≤ length l2)%nat → l1 `prefix_of` l2.
Proof.
  intros [k Hk] Hlen. exists (drop (length l1) l2).
  assert (take (length l1) l2 = l1) as Ht.
  { apply (f_equal (take (length l1))) in Hk.
    rewrite take_app_le in Hk by done. by rewrite take_app_length in Hk. }
  rewrite <- (take_drop (length l1) l2) at 1. by rewrite Ht.
Qed.

Section str_scan.
Variable old : App_main.str.
Hypothesis old_nonempty : old ≠ [].

Lemma last_only_not_prefix (c : Ascii.ascii) (b rest : App_main.str) :
  App_main.last_only old ((c :: b) ++ old) →
  ¬ old `prefix_of` (c :: b) ++ old ++ rest.
Proof.
  intros Hlast Hpre. rewrite app_assoc in Hpre.
  apply prefix_of_app_length in Hpre; [|rewrite length_app; cbn [length]; lia].
  destruct Hpre as [k Hk]. pose proof (Hlast [] k Hk) as ->.
  apply (f_equal length) in Hk. rewrite app_nil_r, length_app in Hk.
  cbn [length] in Hk. lia.
Qed.

Lemma last_only_tail (c : Ascii.ascii) (b : App_main.str) :
  App_main.last_only old ((c :: b) ++ old) → App_main.last_only old (b ++ old).
Proof.
  intros Hlast pre post Heq. apply (Hlast (c :: pre) post).
  cbn [app]. by rewrite Heq.
Qed.

Lemma not_occurs_not_prefix (s : App_main.str) :
  ¬ App_main.occurs old s → ¬ old `prefix_of` s.
Proof. intros Hno [k Hk]. apply Hno. by exists [], k. Qed.

Lemma not_occurs_tail (c : Ascii.ascii) (s : App_main.str) :
  ¬ App_main.occurs old (c :: s) → ¬ App_main.occurs old s.
Proof.
  intros Hno (pre & post & Heq). apply Hno. exists (c :: pre), post.
  cbn [app]. by rewrite Heq.
Qed.

Lemma replace_skip_drop new (s : App_main.str) : ∀ k,
  App_main.replace_skip old new k s
  = App_main.replace_skip old new 0 (drop k s).
Proof.
  induction s as [|c s IH]; intros [|k]; try done.
  cbn [App_main.replace_skip drop]. apply IH.
Qed.

Lemma old_app_cons (rest : App_main.str) :
  ∃ c s', old ++ rest = c :: s' ∧ old `prefix_of` c :: s' ∧
          drop (length old - 1) s' = rest.
Proof.
  assert (length old ≠ 0%nat) as Hlen.
  { intros H0. by apply old_nonempty, nil_length_inv. }
  destruct (old ++ rest) as [|c s'] eqn:Hs.
  { apply app_eq_nil in Hs as [Hs _]. by destruct old_nonempty. }
  exists c, s'. split; [done|]. split; [by exists rest|].
  pose proof (drop_app_length old rest) as Hd. rewrite Hs in Hd.
  replace (length old) with (S (length old - 1)) in Hd at 1 by lia.
  exact Hd.
Qed.

Lemma replace_prefix new (rest : App_main.str) :
  App_main.replace_skip old new 0 (old ++ rest)
  = new ++ App_main.replace_skip old new 0 rest.
Proof.
  destruct (old_app_cons rest) as (c & s' & -> & Hpre & Hdrop).
  cbn [App_main.replace_skip]. rewrite decide_True by done.
  by rewrite replace_skip_drop, Hdrop.
Qed.

Lemma replace_last_only new (base : App_main.str) :
  App_main.last_only old (base ++ old) →
  App_main.replace_skip old new 0 (base ++ old) = base ++ new.
Proof.
  induction base as [|c b IH]; intros Hlast.
  - cbn [app]. rewrite <- (app_nil_r old) at 2. rewrite replace_prefix.
    cbn [App_main.replace_skip]. apply app_nil_r.
  - pose proof (last_only_not_prefix c b [] Hlast) as Hnp.
    rewrite app_nil_r in Hnp.
    change ((c :: b) ++ old) with (c :: (b ++ old)) in *.
    cbn [App_main.replace_skip]. rewrite decide_False by done.
    cbn [app]. f_equal. apply IH. by apply (last_only_tail c).
Qed.

Lemma split_skip_drop cur (s : App_main.str) : ∀ k,
  App_main.split_skip old k cur s = App_main.split_skip old 0 cur (drop k s).
Proof.
  induction s as [|c s IH]; intros [|k]; try done.
  cbn [App_main.split_skip drop]. apply IH.
Qed.

Lemma split_prefix cur (rest : App_main.str) :
  App_main.split_skip old 0 cur (old ++ rest)
  = cur :: App_main.split_skip old 0 [] rest.
Proof.
  destruct (old_app_cons rest) as (c & s' & -> & Hpre & Hdrop).
  cbn [App_main.split_skip]. rewrite decide_True by done.
  by rewrite split_skip_drop, Hdrop.
Qed.

Lemma split_first (a rest : App_main.str) : ∀ cur,
  App_main.last_only old (a ++ old) →
  App_main.split_skip old 0 cur (a ++ old ++ rest)
  = (cur ++ a) :: App_main.split_skip old 0 [] rest.
Proof.
  induction a as [|c a IH]; intros cur Hlast.
  - cbn [app]. by rewrite split_prefix, app_nil_r.
  - pose proof (last_only_not_prefix c a rest Hlast) as Hnp.
    change ((c :: a) ++ old ++ rest) with (c :: (a ++ old ++ rest)) in *.
    cbn [App_main.split_skip]. rewrite decide_False by done.
    rewrite IH by (by apply (last_only_tail c)).
    by rewrite <- app_assoc.
Qed.

Lemma split_none (s : App_main.str) : ∀ cur,
  ¬ App_main.occurs old s → App_main.split_skip old 0 cur s = [cur ++ s].
Proof.
  induction s as [|c s IH]; intros cur Hno.
  - cbn [App_main.split_skip]. by rewrite app_nil_r.
  - cbn [App_main.split_skip].
    rewrite decide_False by (by apply not_occurs_not_prefix).
    rewrite IH by (by apply (not_occurs_tail c)).
    by rewrite <- app_assoc.
Qed.
End str_scan.

Lemma L2_suffix_nonempty : App_main.L2_suffix ≠ [].
Proof. discriminate. Qed.

Lemma separator_nonempty : App_main.separator ≠ [].
Proof. discriminate. Qed.

(** X23. [remove_l2] strips the ending [" L2"] of a name in which [" L2"]
    occurs at the end only; a name that does not end in [" L2"], and a
    label that is not a string, are returned as they are. *)
Theorem X23_remove_l2 (base name : App_main.str) (v : float) :
  App_main.last_only App_main.L2_suffix (base ++ App_main.L2_suffix) →
  App_main.remove_l2 (App_main.Str (base ++ App_main.L2_suffix))
  = App_main.Str base ∧
  (¬ App_main.L2_suffix `suffix_of` name →
   App_main.remove_l2 (App_main.Str name) = App_main.Str name) ∧
  App_main.remove_l2 (App_main.Other v) = App_main.Other v.
Proof.
  intros Hlast. split; [|split; [|done]].
  - unfold App_main.remove_l2, App_main.replace.
    rewrite decide_True by (by exists base).
    rewrite (replace_last_only _ L2_suffix_nonempty [] base Hlast).
    by rewrite app_nil_r.
  - intros Hns. unfold App_main.remove_l2. by rewrite decide_False.
Qed.

(** X24. [parse_variable] splits a column name at its separator [" - "]:
    a name made of an investor, one separator and an order type gives the
    two parts; a name without separator, and a name with two separators,
    give the whole name with ["Unknown"]. *)
Theorem X24_parse_variable (investor order_type : App_main.str) :
  App_main.last_only App_main.separator (investor ++ App_main.separator) →
  ¬ App_main.occurs App_main.separator order_type →
  App_main.parse_variable (investor ++ App_main.separator ++ order_type)
  = (investor, order_type) ∧
  (∀ var, ¬ App_main.occurs App_main.separator var →
     App_main.parse_variable var = (var, App_main.Unknown)) ∧
  (∀ middle,
     App_main.last_only App_main.separator (middle ++ App_main.separator) →
     App_main.parse_variable
       (investor ++ App_main.separator ++ middle ++ App_main.separator
        ++ order_type)
     = (investor ++ App_main.separator ++ middle ++ App_main.separator
        ++ order_type, App_main.Unknown)).
Proof.
  intros Hlast Hno. unfold App_main.parse_variable, App_main.split. cbv zeta.
  split; [|split].
  - rewrite (split_first _ separator_nonempty investor order_type [] Hlast).
    by rewrite (split_none _ order_type [] Hno).
  - intros var Hvar.
    by rewrite (split_none _ var [] Hvar).
  - intros middle Hmid.
    rewrite (split_first _ separator_nonempty investor _ [] Hlast).
    rewrite (split_first _ separator_nonempty middle order_type [] Hmid).
    by rewrite (split_none _ order_type [] Hno).
Qed.

(** A name without the first character of [old] in it: [old] occurs
    nowhere in the name, and at the end only once it is appended. *)
Lemma last_only_intro (o : Ascii.ascii) (old' base : App_main.str) :
  o ∉ base → App_main.last_only (o :: old') (base ++ o :: old').
Proof.
  intros Hno pre post Heq.
  assert (length base ≤ length pre)%nat as Hle.
  { destruct (decide (length pre < length base)%nat) as [Hlt|]; [|lia].
    destruct Hno.
    apply (f_equal (λ l : list Ascii.ascii, l !! length pre)) in Heq.
    cbv beta in Heq. rewrite lookup_app_l in Heq by done.
    rewrite lookup_app_r, Nat.sub_diag in Heq by lia.
    cbn [app lookup list_lookup] in Heq.
    by apply list_elem_of_lookup_2 in Heq. }
  apply (f_equal length) in Heq. rewrite !length_app in Heq.
  cbn [length] in Heq. apply nil_length_inv. lia.
Qed.

Lemma not_occurs_intro (o : Ascii.ascii) (old' s : App_main.str) :
  o ∉ s → ¬ App_main.occurs (o :: old') s.
Proof.
  intros Hno (pre & post & ->). apply Hno.
  rewrite elem_of_app. right. by left.
Qed.

(** ** The alternation of the markers *)

(** What the machine emits alternates, whatever the two columns hold. *)
Lemma events_alternate ms : ∀ st,
  alternates (next_kind st) (omap id (detector_run st ms)).
Proof.
  induction ms as [|[m s] ms IH]; intros st; [done|].
  cbn [detector_run].
  destruct (detector_step_cases st m s) as [H|[[-> H]|[-> H]]]; rewrite H;
    cbn [omap list_omap id].
  - apply IH.
  - split; [done|]. apply (IH Holding).
  - split; [done|]. apply (IH Flat).
Qed.

(** The markers that can be read off the two columns are among the emitted
    ones, in order. *)
Lemma marker_kinds_sublist events : ∀ dates close,
  m_kind <$> markers_of dates (marker_column Buy events close)
               (marker_column Sell events close)
  `sublist_of` omap id events.
Proof.
  induction events as [|ev events IH]; intros dates close.
  { destruct dates; cbn; apply sublist_nil_l. }
  destruct close as [|c close]; [destruct dates; apply sublist_nil_l|].
  destruct dates as [|d dates]; [apply sublist_nil_l|].
  rewrite !marker_column_cons. cbn [markers_of]. unfold row_markers.
  destruct ev as [[]|]; cbn [omap list_omap id].
  - rewrite decide_True, decide_False by done.
    destruct (is_obs c); cbn [is_obs app fmap list_fmap m_kind].
    + apply sublist_skip, IH.
    + apply sublist_cons, IH.
  - rewrite decide_False, decide_True by done.
    destruct (is_obs c); cbn [is_obs app fmap list_fmap m_kind].
    + apply sublist_skip, IH.
    + apply sublist_cons, IH.
  - rewrite !decide_False by done. cbn [is_obs app]. apply IH.
Qed.

(** They are all of them when every row that emits has a price. *)
Lemma marker_kinds_all events : ∀ dates close,
  (length events ≤ length dates)%nat → (length events ≤ length close)%nat →
  (∀ t k p, events !! t = Some (Some k) → close !! t = Some p →
     is_obs p = true) →
  m_kind <$> markers_of dates (marker_column Buy events close)
               (marker_column Sell events close)
  = omap id events.
Proof.
  induction events as [|ev events IH]; intros dates close Hd Hc Hobs.
  { by destruct dates. }
  destruct close as [|c close]; [cbn [length] in Hc; lia|].
  destruct dates as [|d dates]; [cbn [length] in Hd; lia|].
  cbn [length] in Hd, Hc.
  assert (m_kind <$> markers_of dates (marker_column Buy events close)
                       (marker_column Sell events close)
          = omap id events) as Hrest.
  { apply IH; [lia|lia|]. intros t k p Ht Hp. by apply (Hobs (S t) k p). }
  rewrite !marker_column_cons. cbn [markers_of]. unfold row_markers.
  destruct ev as [[]|]; cbn [omap list_omap id].
  - rewrite decide_True, decide_False by done.
    rewrite (Hobs 0%nat Buy c) by done.
    cbn [is_obs app fmap list_fmap m_kind]. by rewrite <- Hrest.
  - rewrite decide_False, decide_True by done.
    rewrite (Hobs 0%nat Sell c) by done.
    cbn [is_obs app fmap list_fmap m_kind]. by rewrite <- Hrest.
  - rewrite !decide_False by done. cbn [is_obs app]. exact Hrest.
Qed.

Lemma no_inf_cases (v : float) :
  v ≠ PInf ∧ v ≠ NInf → v = NaN ∨ ∃ x, v = Fin x.
Proof. intros [H1 H2]. destruct v; [right; by eexists|done|done|by left]. Qed.

Lemma series_sub_no_inf a : ∀ b,
  no_inf a → no_inf b → no_inf (series_sub a b).
Proof.
  induction a as [|x a IH]; intros b Ha Hb; [constructor|].
  destruct b as [|y b]; [constructor|].
  apply Forall_cons in Ha as [Hx Ha]. apply Forall_cons in Hb as [Hy Hb].
  unfold series_sub. cbn [zip_with]. constructor; [|by apply IH].
  destruct (no_inf_cases x Hx) as [->|[x' ->]],
    (no_inf_cases y Hy) as [->|[y' ->]]; cbn [fsub fadd fopp]; done.
Qed.

Section ewm_gaps.
(** A smoothing factor strictly between 0 and 1, as every span above 1
    gives. *)
Variable com : Qc.
Hypothesis Hpos : 0 < alpha_of_com com.
Hypothesis Hlt : alpha_of_com com < 1.

Lemma old_wt_factor_pos : 0 < 1 - alpha_of_com com.
Proof. exact (proj1 (Qclt_minus_iff _ 1) Hlt). Qed.

Lemma ewm_denominator_neq_0 (o : Qc) :
  0 < o → o * (1 - alpha_of_com com) + alpha_of_com com ≠ 0.
Proof.
  intros Ho. apply not_eq_sym, Qclt_not_eq.
  apply Qcplus_pos_nonneg; [|by apply Qclt_le_weak].
  apply Qcmult_pos_pos; [done|apply old_wt_factor_pos].
Qed.

(** An observation leaves a finite average and the weight 1. *)
Lemma ewm_step_obs st x :
  ewm_state_ok st →
  ∃ w, ewm_step com false st (Fin x) = mkAcc (Fin w) 1 (S (nobs st)).
Proof.
  destruct st as [wt o n]. intros [[Hw Ho]|(w & Hw & Ho)];
    cbn [weighted old_wt] in Hw, Ho; subst.
  - exists x. reflexivity.
  - unfold ewm_step. cbn [weighted old_wt nobs is_obs].
    rewrite fneq_Fin. destruct (Qc_eqb w x); cbn [negb].
    + by eexists.
    + cbn [fmul fadd]. rewrite (fdiv_Fin _ _ (ewm_denominator_neq_0 o Ho)).
      by eexists.
Qed.

Lemma ewm_step_ok st v :
  ewm_state_ok st → v ≠ PInf ∧ v ≠ NInf →
  ewm_state_ok (ewm_step com false st v).
Proof.
  intros Hst Hv. destruct (no_inf_cases v Hv) as [->|[x ->]].
  - destruct st as [wt o n]. destruct Hst as [[Hw Ho]|(w & Hw & Ho)];
      cbn [weighted old_wt] in Hw, Ho; subst.
    + left. done.
    + right. exists w. unfold ewm_step. cbn [weighted old_wt nobs is_obs].
      split; [done|]. apply Qcmult_pos_pos; [done|apply old_wt_factor_pos].
  - destruct (ewm_step_obs st x Hst) as [w ->]. right. by exists w.
Qed.

Lemma ewm_out_no_inf minp st :
  ewm_state_ok st → ewm_out minp st ≠ PInf ∧ ewm_out minp st ≠ NInf.
Proof.
  intros Hst. unfold ewm_out. destruct (decide _); [|done].
  destruct Hst as [[Hw _]|(w & Hw & _)]; by rewrite Hw.
Qed.

Lemma ewm_loop_no_inf minp vals : ∀ st,
  ewm_state_ok st → no_inf vals →
  no_inf (ewm_loop com false minp st vals).
Proof.
  induction vals as [|v vals IH]; intros st Hst Hv; [constructor|].
  apply Forall_cons in Hv as [Hv Hvs]. cbn [ewm_loop].
  pose proof (ewm_step_ok st v Hst Hv) as Hst'.
  constructor; [by apply ewm_out_no_inf|by apply IH].
Qed.

Lemma ewm_start_ok (v0 : float) (n : nat) :
  v0 ≠ PInf ∧ v0 ≠ NInf → ewm_state_ok (mkAcc v0 1 n).
Proof.
  intros Hv. destruct (no_inf_cases v0 Hv) as [->|[x ->]].
  - by left.
  - right. by exists x.
Qed.

(** The averages of numbers and NaN are numbers or NaN. *)
Lemma ewm_mean_no_inf min_periods vals :
  no_inf vals → no_inf (ewm_mean com false min_periods vals).
Proof.
  intros Hv. destruct vals as [|v0 vals]; [constructor|].
  apply Forall_cons in Hv as [Hv0 Hv]. unfold ewm_mean.
  constructor.
  - apply ewm_out_no_inf. by apply ewm_start_ok.
  - apply ewm_loop_no_inf; [by apply ewm_start_ok|done].
Qed.

(** Two observations in a row: the second average is one step of the
    recurrence from the first. *)
Lemma ewm_loop_pair vals : ∀ st t x y,
  ewm_state_ok st → no_inf vals →
  vals !! t = Some (Fin x) → vals !! S t = Some (Fin y) →
  ∃ w, ewm_loop com false 1 st vals !! t = Some (Fin w) ∧
       ewm_loop com false 1 st vals !! S t
       = Some (Fin (alpha_of_com com * y + (1 - alpha_of_com com) * w)).
Proof.
  induction vals as [|v vals IH]; intros st t x y Hst Hv Hx Hy; [done|].
  apply Forall_cons in Hv as [Hv Hvs]. cbn [ewm_loop].
  destruct t as [|t].
  - cbn [lookup list_lookup] in Hx. injection Hx as ->.
    destruct vals as [|v' vals]; [done|].
    cbn [lookup list_lookup] in Hy. injection Hy as ->.
    destruct (ewm_step_obs st x Hst) as [w Hw]. rewrite Hw.
    exists w. cbn [ewm_loop lookup list_lookup]. rewrite ewm_step_finite.
    unfold ewm_out. cbn [nobs weighted]. by rewrite !decide_True by lia.
  - change ((?a :: ?l) !! S ?n) with (l !! n).
    change ((v :: vals) !! S t) with (vals !! t) in Hx.
    change ((v :: vals) !! S (S t)) with (vals !! S t) in Hy.
    apply (IH _ t x y); [by apply ewm_step_ok|done|done|done].
Qed.

Lemma ewm_mean_pair vals t x y :
  no_inf vals →
  vals !! t = Some (Fin x) → vals !! S t = Some (Fin y) →
  ∃ w, ewm_mean com false 0 vals !! t = Some (Fin w) ∧
       ewm_mean com false 0 vals !! S t
       = Some (Fin (alpha_of_com com * y + (1 - alpha_of_com com) * w)).
Proof.
  intros Hv Hx Hy. destruct vals as [|v0 vals]; [done|].
  apply Forall_cons in Hv as [Hv0 Hv]. unfold ewm_mean. cbn [Nat.max].
  destruct t as [|t].
  - cbn [lookup list_lookup] in Hx. injection Hx as ->.
    destruct vals as [|v' vals]; [done|].
    cbn [lookup list_lookup] in Hy. injection Hy as ->.
    exists x. cbn [is_obs ewm_loop lookup list_lookup]. rewrite ewm_step_finite.
    unfold ewm_out. cbn [nobs weighted]. by rewrite !decide_True by lia.
  - change ((?a :: ?l) !! S ?n) with (l !! n).
    change ((v0 :: vals) !! S t) with (vals !! t) in Hx.
    change ((v0 :: vals) !! S (S t)) with (vals !! S t) in Hy.
    apply (ewm_loop_pair _ _ t x y); [by apply ewm_start_ok|done|done|done].
Qed.

(** The smoothed value moves towards the new one and not past it. *)
Lemma ewm_towards (m w : Qc) :
  let s' := alpha_of_com com * m + (1 - alpha_of_com com) * w in
  (w < m → s' ≤ m) ∧ (m < w → m ≤ s') ∧ (w = m → s' = m).
Proof.
  cbv zeta. pose proof old_wt_factor_pos as Hf. split; [|split].
  - intros H. apply Qcle_minus_iff.
    replace (m + - (alpha_of_com com * m + (1 - alpha_of_com com) * w))
      with ((1 - alpha_of_com com) * (m - w)) by ring.
    apply Qclt_le_weak, Qcmult_pos_pos; [done|].
    exact (proj1 (Qclt_minus_iff w m) H).
  - intros H. apply Qcle_minus_iff.
    replace (alpha_of_com com * m + (1 - alpha_of_com com) * w + - m)
      with ((1 - alpha_of_com com) * (w - m)) by ring.
    apply Qclt_le_weak, Qcmult_pos_pos; [done|].
    exact (proj1 (Qclt_minus_iff m w) H).
  - intros ->. ring.
Qed.
End ewm_gaps.

Lemma alpha_9_pos : 0 < alpha_of_com (com_of_span (Qc_of_nat 9)).
Proof. rewrite alpha_of_span. by vm_compute. Qed.

Lemma alpha_9_lt_1 : alpha_of_com (com_of_span (Qc_of_nat 9)) < 1.
Proof. rewrite alpha_of_span. by vm_compute. Qed.

Lemma alpha_12_pos : 0 < alpha_of_com (com_of_span (Qc_of_nat 12)).
Proof. rewrite alpha_of_span. by vm_compute. Qed.

Lemma alpha_12_lt_1 : alpha_of_com (com_of_span (Qc_of_nat 12)) < 1.
Proof. rewrite alpha_of_span. by vm_compute. Qed.

Lemma alpha_26_pos : 0 < alpha_of_com (com_of_span (Qc_of_nat 26)).
Proof. rewrite alpha_of_span. by vm_compute. Qed.

Lemma alpha_26_lt_1 : alpha_of_com (com_of_span (Qc_of_nat 26)) < 1.
Proof. rewrite alpha_of_span. by vm_compute. Qed.

(** After a row with MACD [m] and signal [s], a row with the same MACD and a
    signal [s'] that lies on the same side of [m] emits nothing. *)
Lemma detector_step_settled st m s s' :
  (fgt m s = true → flt m s' = false) →
  (flt m s = true → fgt m s' = false) →
  (fgt m s = false → flt m s = false → fgt m s' = false ∧ flt m s' = false) →
  (detector_step (detector_step st m s).1 m s').2 = None.
Proof.
  intros H1 H2 H3. unfold detector_step.
  destruct st; destruct (fgt m s) eqn:Hg; destruct (flt m s) eqn:Hl; cbn [fst];
    repeat match goal with
      | H : true = true → _ |- _ => specialize (H eq_refl)
      | H : false = false → _ |- _ => specialize (H eq_refl)
      | H : _ ∧ _ |- _ => destruct H
      | H : ?a = false |- context [if ?a then _ else _] => rewrite H
      end; try reflexivity.
Qed.

Lemma detector_run_settled ms : ∀ st t m s s',
  ms !! t = Some (m, s) → ms !! S t = Some (m, s') →
  (fgt m s = true → flt m s' = false) →
  (flt m s = true → fgt m s' = false) →
  (fgt m s = false → flt m s = false → fgt m s' = false ∧ flt m s' = false) →
  detector_run st ms !! S t = Some None.
Proof.
  induction ms as [|[m0 s0] ms IH]; intros st t m s s' Ht HSt H1 H2 H3; [done|].
  destruct t as [|t].
  - cbn [lookup list_lookup] in Ht. injection Ht as -> ->.
    destruct ms as [|[m1 s1] ms]; [done|].
    cbn [lookup list_lookup] in HSt. injection HSt as -> ->.
    pose proof (detector_step_settled st m s s' H1 H2 H3) as Hset.
    cbn [detector_run].
    destruct (detector_step st m s) as [st1 ev1]. cbn [fst] in Hset.
    destruct (detector_step st1 m s') as [st2 ev2]. cbn [snd] in Hset.
    subst ev2. reflexivity.
  - change (((m0, s0) :: ms) !! S t) with (ms !! t) in Ht.
    change (((m0, s0) :: ms) !! S (S t)) with (ms !! S t) in HSt.
    cbn [detector_run]. destruct (detector_step st m0 s0) as [st1 ev1].
    change ((?a :: ?l) !! S ?n) with (l !! n).
    by apply (IH st1 t m s s').
Qed.

Lemma detector_run_no_value ms : ∀ st t m s,
  ms !! t = Some (m, s) → is_obs m = false →
  detector_run st ms !! t = Some None.
Proof.
  induction ms as [|[m0 s0] ms IH]; intros st t m s Ht Hm; [done|].
  cbn [detector_run]. destruct t as [|t].
  - cbn [lookup list_lookup] in Ht. injection Ht as -> ->.
    by rewrite detector_step_idle by auto.
  - destruct (detector_step st m0 s0) as [st1 ev1].
    change ((?a :: ?l) !! S ?n) with (l !! n). by apply (IH st1 t m s).
Qed.

(** A row that repeats the MACD of the row before it emits nothing: the
    signal line has moved towards that MACD and has not crossed it. *)
Lemma no_emission_on_repeat (macd : list float) (t : nat) (M : float) st :
  no_inf macd →
  macd !! t = Some M → macd !! S t = Some M →
  detector_run st
    (zip macd (ewm_mean (com_of_span (Qc_of_nat 9)) false 0 macd)) !! S t
  = Some None.
Proof.
  intros Hni Ht HSt.
  set (signal := ewm_mean (com_of_span (Qc_of_nat 9)) false 0 macd).
  assert (S t < length macd)%nat as Hlen by (by eapply lookup_lt_Some).
  assert (length signal = length macd) as Hls.
  { unfold signal. by rewrite length_ewm_mean. }
  destruct (lookup_lt_is_Some_2 signal t) as [s Hs]; [lia|].
  destruct (lookup_lt_is_Some_2 signal (S t)) as [s' Hs']; [lia|].
  assert (zip macd signal !! t = Some (M, s)) as Hz.
  { by rewrite lookup_zip_with, Ht, Hs. }
  assert (zip macd signal !! S t = Some (M, s')) as Hz'.
  { by rewrite lookup_zip_with, HSt, Hs'. }
  assert (M ≠ PInf ∧ M ≠ NInf) as HM.
  { unfold no_inf in Hni. rewrite Forall_lookup in Hni. by apply (Hni t). }
  destruct (no_inf_cases M HM) as [->|[m ->]].
  { by apply (detector_run_no_value _ st (S t) NaN s'). }
  destruct (ewm_mean_pair _ alpha_9_pos alpha_9_lt_1 macd t m m Hni Ht HSt)
    as (w & Hw & Hw').
  fold signal in Hw, Hw'. rewrite Hs in Hw. rewrite Hs' in Hw'.
  injection Hw as ->. injection Hw' as ->.
  destruct (ewm_towards _ alpha_9_lt_1 m w) as (Hup & Hdown & Heq).
  cbv zeta in Hup, Hdown, Heq.
  apply (detector_run_settled _ st t (Fin m) (Fin w) _ Hz Hz').
  - unfold fgt. cbn [flt]. unfold Qc_ltb. intros H.
    apply bool_decide_eq_true in H. apply flt_Fin_false. by apply Hup.
  - cbn [flt]. unfold Qc_ltb. intros H.
    apply bool_decide_eq_true in H. unfold fgt. apply flt_Fin_false.
    by apply Hdown.
  - unfold fgt. cbn [flt]. unfold Qc_ltb. intros H1 H2.
    apply bool_decide_eq_false in H1, H2.
    assert (w = m) as Hwm.
    { apply Qcle_antisym; by apply Qcnot_lt_le. }
    rewrite (Heq Hwm). split; apply bool_decide_eq_false, (irreflexivity Qclt).
Qed.

Lemma ewm_mean_head_NaN com adjust min_periods vals :
  ewm_mean com adjust min_periods (NaN :: vals) !! 0%nat = Some NaN.
Proof.
  unfold ewm_mean. cbn [lookup list_lookup]. f_equal.
  unfold ewm_out. cbn [weighted]. by destruct (decide _).
Qed.

(** The main script emits nothing at a row without a price: the averages,
    and with them MACD, repeat the row before. *)
Lemma no_emission_at_NaN_price (c : list float) (t : nat) :
  no_inf c → c !! t = Some NaN →
  let e12 := ewm_mean (com_of_span (Qc_of_nat 12)) false 0 c in
  let e26 := ewm_mean (com_of_span (Qc_of_nat 26)) false 0 c in
  let macd := series_sub e12 e26 in
  let signal := ewm_mean (com_of_span (Qc_of_nat 9)) false 0 macd in
  detector_run Flat (zip macd signal) !! t = Some None.
Proof.
  intros Hni Ht e12 e26 macd signal.
  assert (no_inf macd) as Hm.
  { apply series_sub_no_inf.
    - by apply (ewm_mean_no_inf _ alpha_12_pos alpha_12_lt_1).
    - by apply (ewm_mean_no_inf _ alpha_26_pos alpha_26_lt_1). }
  assert (length macd = length c) as Hlm.
  { unfold macd, e12, e26. rewrite length_series_sub; rewrite !length_ewm_mean; lia. }
  assert (t < length c)%nat as Hlt by (by eapply lookup_lt_Some).
  destruct t as [|t].
  - destruct c as [|c0 c]; [done|]. cbn [lookup list_lookup] in Ht.
    injection Ht as ->.
    assert (macd !! 0%nat = Some NaN) as H0.
    { unfold macd, series_sub. rewrite lookup_zip_with.
      unfold e12, e26. by rewrite !ewm_mean_head_NaN. }
    destruct (lookup_lt_is_Some_2 signal 0) as [s Hs].
    { unfold signal. rewrite length_ewm_mean. lia. }
    apply (detector_run_no_value _ Flat 0 NaN s); [|done].
    by rewrite lookup_zip_with, H0, Hs.
  - destruct (lookup_lt_is_Some_2 macd t) as [M HM]; [lia|].
    assert (macd !! S t = Some M) as HM'.
    { rewrite <- HM. unfold macd, series_sub. rewrite !lookup_zip_with.
      unfold e12, e26. by rewrite !(ewm_mean_ffill _ _ _ c t Ht). }
    by apply (no_emission_on_repeat macd t M).
Qed.

(** The markers the main script plots, for any price column. *)
Lemma process_markers_run (data : DataFrame) (c : list float) :
  wf data → cols data !! "Price Close" = Some c →
  let e12 := ewm_mean (com_of_span (Qc_of_nat 12)) false 0 c in
  let e26 := ewm_mean (com_of_span (Qc_of_nat 26)) false 0 c in
  let macd := series_sub e12 e26 in
  let signal := ewm_mean (com_of_span (Qc_of_nat 9)) false 0 macd in
  let events := detector_run Flat (zip macd signal) in
  length events = len data ∧ length c = len data ∧
  process_markers data
  = Ok (markers_of (Date data) (marker_column Buy events c)
          (marker_column Sell events c)).
Proof.
  intros Hwf Hc. pose proof (proj2 Hwf _ _ Hc) as Hlen.
  pose proof (get_MACD_ok data c Hc) as Hmacd. cbv zeta in Hmacd. cbv zeta.
  set (e12 := ewm_mean (com_of_span (Qc_of_nat 12)) false 0 c) in *.
  set (e26 := ewm_mean (com_of_span (Qc_of_nat 26)) false 0 c) in *.
  set (macd := series_sub e12 e26) in *.
  set (signal := ewm_mean (com_of_span (Qc_of_nat 9)) false 0 macd) in *.
  set (hist := series_sub macd signal) in *.
  assert (length e12 = len data) as H12 by (unfold e12; by rewrite length_ewm_mean).
  assert (length e26 = len data) as H26 by (unfold e26; by rewrite length_ewm_mean).
  assert (length macd = len data) as Hm.
  { unfold macd. rewrite length_series_sub; lia. }
  assert (length signal = len data) as Hs.
  { unfold signal. by rewrite length_ewm_mean. }
  set (df1 := setitem (setitem (setitem (setitem (setitem data
          "EMA-12" e12) "EMA-26" e26) "MACD" macd) "Signal" signal)
          "Histogram" hist) in *.
  assert (cols df1 !! "Price Close" = Some c) as Hc1.
  { unfold df1. by rewrite !lookup_setitem_ne by neq_str. }
  destruct (get_RSI_warmup df1 "Price Close" 14 c Hc1) as (rsi & Hrsi & Hlr & _).
  set (df2 := setitem df1 "RSI" rsi) in *.
  pose proof (get_trading_strategy_run df2 "Price Close" macd signal c) as Hts.
  cbv zeta in Hts.
  set (events := detector_run Flat (zip macd signal)) in *.
  split; [unfold events; rewrite length_detector_run, length_zip; lia|].
  split; [done|].
  unfold process_markers, Dashboard_Functions.process.
  rewrite Hmacd, bind_Ok. fold df1. rewrite Hrsi, bind_Ok. fold df2.
  rewrite Hts.
  - rewrite bind_Ok. unfold signal_markers.
    rewrite (getitem_setitem_ne _ "Sell" "Buy") by neq_str.
    by rewrite !getitem_setitem_eq.
  - unfold df2, df1. rewrite !lookup_setitem_ne by neq_str.
    by rewrite lookup_setitem_eq.
  - unfold df2, df1. rewrite !lookup_setitem_ne by neq_str.
    by rewrite lookup_setitem_eq.
  - unfold df2. by rewrite lookup_setitem_ne by neq_str.
  - done.
  - done.
  - done.
Qed.

(** C3 (as the code has it). Whatever the MACD, Signal and price columns
    hold, what [get_trading_strategy] emits alternates Buy, Sell, Buy, ...
    from a Buy, and no row gets both a Buy and a Sell.  What it stores is
    the price of the row, so the markers that can be read off the Buy and
    Sell columns are the emitted ones without those at rows whose price is
    NaN: they are a subsequence of the emitted ones, and all of them when
    every emitting row has a price.  There is at most one marker per row,
    hence per date when the dates of the frame are distinct.  In the main
    script, where MACD and Signal are computed from the price column by
    [get_MACD], a row without a price never emits, so the plotted markers
    alternate for every price column of numbers and NaN. *)
Theorem C3_markers_alternate (df : DataFrame) (column : string)
    (macd signalLine close : list float)
    (data : DataFrame) (price : list float) :
  cols df !! "MACD" = Some macd →
  cols df !! "Signal" = Some signalLine →
  cols df !! column = Some close →
  length macd = len df → length signalLine = len df → length close = len df →
  wf data → cols data !! "Price Close" = Some price → no_inf price →
  let events := detector_run Flat (zip macd signalLine) in
  (∃ df' buy sell markers,
     Dashboard_Functions.get_trading_strategy df column = Ok df' ∧
     cols df' !! "Buy" = Some buy ∧ cols df' !! "Sell" = Some sell ∧
     signal_markers df' = Ok markers ∧
     alternates Buy (omap id events) ∧
     m_kind <$> markers `sublist_of` omap id events ∧
     ((∀ t k p, events !! t = Some (Some k) → close !! t = Some p →
         is_obs p = true) →
      m_kind <$> markers = omap id events) ∧
     (∀ t b s, buy !! t = Some b → sell !! t = Some s →
        is_obs b = false ∨ is_obs s = false) ∧
     m_date <$> markers `sublist_of` Date df ∧
     (NoDup (Date df) → NoDup (m_date <$> markers))) ∧
  (∃ markers,
     process_markers data = Ok markers ∧
     alternates Buy (m_kind <$> markers) ∧
     (∀ i k1 k2, (m_kind <$> markers) !! i = Some k1 →
        (m_kind <$> markers) !! S i = Some k2 → k1 ≠ k2) ∧
     m_date <$> markers `sublist_of` Date data ∧
     (NoDup (Date data) → NoDup (m_date <$> markers))).
Proof.
  intros Hm Hs Hc Hlm Hls Hlc Hwf Hp Hni events. split.
  - pose proof (get_trading_strategy_run df column macd signalLine close
                  Hm Hs Hc Hlm Hls Hlc) as Hrun.
    cbv zeta in Hrun. fold events in Hrun.
    assert (length events = len df) as Hev.
    { unfold events. rewrite length_detector_run, length_zip. lia. }
    exists (setitem (setitem df "Buy" (marker_column Buy events close))
              "Sell" (marker_column Sell events close)),
      (marker_column Buy events close), (marker_column Sell events close),
      (markers_of (Date df) (marker_column Buy events close)
         (marker_column Sell events close)).
    split; [exact Hrun|].
    split; [by rewrite lookup_setitem_ne, lookup_setitem_eq by neq_str|].
    split; [by rewrite lookup_setitem_eq|].
    split.
    { unfold signal_markers.
      rewrite (getitem_setitem_ne _ "Sell" "Buy") by neq_str.
      by rewrite !getitem_setitem_eq. }
    split; [apply (events_alternate _ Flat)|].
    split; [apply marker_kinds_sublist|].
    split.
    { intros Hobs. apply marker_kinds_all; [unfold len in Hev; lia|lia|done]. }
    split; [intros t b s; apply marker_columns_exclusive|].
    split; [apply markers_dates_sublist|].
    intros Hnd. apply (sublist_NoDup _ _ Hnd), markers_dates_sublist.
  - destruct (process_markers_run data price Hwf Hp) as (Hev & Hlp & Hrun).
    cbv zeta in Hev, Hrun.
    set (ev := detector_run Flat (zip (series_sub _ _) _)) in *.
    assert (m_kind <$> markers_of (Date data) (marker_column Buy ev price)
                         (marker_column Sell ev price)
            = omap id ev) as Hkinds.
    { apply marker_kinds_all; [by rewrite Hev|by rewrite Hev, Hlp|].
      intros t k p Ht Hpt. destruct p; try done.
      pose proof (no_emission_at_NaN_price price t Hni Hpt) as Hno.
      cbv zeta in Hno. fold ev in Hno. congruence. }
    eexists. split; [exact Hrun|].
    split; [rewrite Hkinds; apply (events_alternate _ Flat)|].
    split.
    { intros i k1 k2. apply (alternates_adjacent _ Buy).
      rewrite Hkinds. apply (events_alternate _ Flat). }
    split; [apply markers_dates_sublist|].
    intros Hnd. apply (sublist_NoDup _ _ Hnd), markers_dates_sublist.
Qed.

(** A frame on which the stored markers do not alternate: the machine
    emits Buy, Sell, Buy, Sell, the first Sell at a row whose price is NaN,
    so the Sell column holds NaN there and the markers read Buy, Buy,
    Sell.  And a frame with two rows of the same day, on which that day
    gets two markers. *)
Lemma C3_hidden_marker :
  omap id (detector_run Flat
             (zip [Fin 0; Fin 1; Fin (-1); Fin 1; Fin (-1)]
                  [Fin 0; Fin 0; Fin 0; Fin 0; Fin 0]))
  = [Buy; Sell; Buy; Sell] ∧
  strategy_marker_kinds hidden_sell_frame "Price Close" = Ok [Buy; Buy; Sell] ∧
  ¬ alternates Buy [Buy; Buy; Sell] ∧
  strategy_marker_dates same_day_frame "Price Close"
  = Ok [19723; 19723]%Z.
Proof.
  split; [by vm_compute|]. split; [by vm_compute|].
  split; [|by vm_compute].
  intros [_ [H _]]. discriminate H.
Qed.

(** * The further properties at sample frames *)

Lemma no_inf_Fin (qs : list Qc) : no_inf (Fin <$> qs).
Proof. apply Forall_fmap, Forall_true. intros q. by split. Qed.

Lemma no_inf_gap : no_inf [Fin (Qc_of_Z 10); NaN; Fin (Qc_of_Z 12)].
Proof. repeat constructor; discriminate. Qed.


Lemma flat_history_flat : Forall (eq (Qc_of_Z 10)) flat_history.
Proof. repeat constructor. Defined.

Lemma X1_process_total_witness :
  let data := frame_of_close short_history in
  (wf data ∧ cols data !! "Price Close" = Some (Fin <$> short_history) ∧
   no_inf (Fin <$> short_history)) ∧
  ∃ data',
    Dashboard_Functions.process data = Ok data' ∧
    wf data' ∧
    Ticker data' = Ticker data ∧ Date data' = Date data ∧
    (∀ k, k ∈ process_columns →
       ∃ col, cols data' !! k = Some col ∧ length col = len data) ∧
    (∀ k, k ∉ process_columns → cols data' !! k = cols data !! k).
Proof.
  cbv zeta.
  split; [split; [apply wf_frame_of_close|split; [reflexivity|apply no_inf_Fin]]|].
  apply (X1_process_total (frame_of_close short_history) (Fin <$> short_history));
    [apply wf_frame_of_close|reflexivity|apply no_inf_Fin].
Defined.

Lemma X2_get_RSI_range_witness :
  let df := frame_of_close short_history in
  ((1 ≤ 14)%nat ∧ cols df !! "Price Close" = Some (Fin <$> short_history)) ∧
  ∃ rsi,
    Dashboard_Functions.get_RSI df "Price Close" 14
    = Ok (setitem df "RSI" rsi) ∧
    length rsi = length short_history ∧
    Forall rsi_in_range rsi.
Proof.
  cbv zeta. split; [split; [lia|reflexivity]|].
  apply (X2_get_RSI_range (frame_of_close short_history) short_history 14);
    [lia|reflexivity].
Defined.

Lemma X3_calculate_rsi_range_witness :
  let df := frame_of_close short_history in
  ((1 ≤ 14)%nat ∧ cols df !! "Price Close" = Some (Fin <$> short_history)) ∧
  ∃ rsi,
    App.calculate_rsi df 14 = Ok (setitem df "RSI" rsi) ∧
    Dashboard_App.calculate_rsi df 14 = Ok (setitem df "RSI" rsi) ∧
    length rsi = length short_history ∧
    Forall rsi_in_range rsi.
Proof.
  cbv zeta. split; [split; [lia|reflexivity]|].
  apply (X3_calculate_rsi_range (frame_of_close short_history) short_history 14);
    [lia|reflexivity].
Defined.



Lemma X6_get_RSI_flat_witness :
  let df := frame_of_close flat_history in
  ((1 ≤ 14)%nat ∧ cols df !! "Price Close" = Some (Fin <$> flat_history) ∧
   Forall (eq (Qc_of_Z 10)) flat_history) ∧
  Dashboard_Functions.get_RSI df "Price Close" 14
  = Ok (setitem df "RSI" (replicate (length flat_history) NaN)).
Proof.
  cbv zeta. split; [split; [lia|split; [reflexivity|exact flat_history_flat]]|].
  apply (X6_get_RSI_flat (frame_of_close flat_history) (Qc_of_Z 10)
           flat_history 14); [lia|reflexivity|exact flat_history_flat].
Defined.

Lemma X7_calculate_rsi_flat_witness :
  let df := frame_of_close flat_history in
  ((1 ≤ 14)%nat ∧ cols df !! "Price Close" = Some (Fin <$> flat_history) ∧
   Forall (eq (Qc_of_Z 10)) flat_history) ∧
  App.calculate_rsi df 14
  = Ok (setitem df "RSI" (replicate (length flat_history) NaN)) ∧
  Dashboard_App.calculate_rsi df 14
  = Ok (setitem df "RSI" (replicate (length flat_history) NaN)).
Proof.
  cbv zeta. split; [split; [lia|split; [reflexivity|exact flat_history_flat]]|].
  apply (X7_calculate_rsi_flat (frame_of_close flat_history) (Qc_of_Z 10)
           flat_history 14); [lia|reflexivity|exact flat_history_flat].
Defined.

Lemma X8_process_flat_witness :
  let df := frame_of_close flat_history in
  (cols df !! "Price Close" = Some (Fin <$> flat_history) ∧
   length flat_history = len df ∧
   Forall (eq (Qc_of_Z 10)) flat_history) ∧
  ∃ data',
    Dashboard_Functions.process df = Ok data' ∧
    cols data' !! "EMA-12" = Some (Fin <$> flat_history) ∧
    cols data' !! "EMA-26" = Some (Fin <$> flat_history) ∧
    cols data' !! "MACD" = Some (replicate (len df) (Fin 0)) ∧
    cols data' !! "Signal" = Some (replicate (len df) (Fin 0)) ∧
    cols data' !! "Histogram" = Some (replicate (len df) (Fin 0)) ∧
    cols data' !! "Buy" = Some (replicate (len df) NaN) ∧
    cols data' !! "Sell" = Some (replicate (len df) NaN) ∧
    process_markers df = Ok [].
Proof.
  cbv zeta.
  split; [split; [reflexivity|split; [reflexivity|exact flat_history_flat]]|].
  apply (X8_process_flat (frame_of_close flat_history) (Qc_of_Z 10) flat_history);
    [reflexivity|reflexivity|exact flat_history_flat].
Defined.

Lemma X9_strategy_lazy_price_lookup_witness :
  let df := crossing_frame in
  let macd := [Fin 0; Fin 1; Fin 1; Fin (-1)] in
  let signal := [Fin 0; Fin 0; NaN; Fin 0] in
  (cols df !! "MACD" = Some macd ∧
   cols df !! "Signal" = Some signal ∧
   cols df !! "Close" = None ∧
   "Close" ≠ "Date" ∧ "Close" ≠ "Ticker" ∧
   length macd = len df ∧ length signal = len df) ∧
  let events := detector_run Flat (zip macd signal) in
  (Forall (eq None) events →
   Dashboard_Functions.get_trading_strategy df "Close"
   = Ok (setitem (setitem df "Buy" (replicate (len df) NaN))
           "Sell" (replicate (len df) NaN)) ∧
   App.get_trading_strategy df "Close"
   = Ok (setitem (setitem df "Buy" (replicate (len df) NaN))
           "Sell" (replicate (len df) NaN))) ∧
  (¬ Forall (eq None) events →
   Dashboard_Functions.get_trading_strategy df "Close" = Raise (KeyError "Close") ∧
   App.get_trading_strategy df "Close" = Raise (KeyError "Close")).
Proof.
  cbv zeta.
  split; [repeat split; first [reflexivity|intros H; discriminate H]|].
  apply (X9_strategy_lazy_price_lookup crossing_frame "Close"
           [Fin 0; Fin 1; Fin 1; Fin (-1)] [Fin 0; Fin 0; NaN; Fin 0]);
    first [reflexivity|intros H; discriminate H].
Defined.

Lemma X10_Dashboard_App_indicators_witness :
  let filtered_data := frame_of_close short_history in
  (wf filtered_data ∧
   cols filtered_data !! "Price Close" = Some (Fin <$> short_history) ∧
   no_inf (Fin <$> short_history)) ∧
  ∃ df',
    Dashboard_App.add_technical_indicators filtered_data = Ok df' ∧
    wf df' ∧
    Ticker df' = Ticker filtered_data ∧ Date df' = Date filtered_data ∧
    (∀ k, k ∈ ["MACD"; "Signal Line"; "RSI"] →
       ∃ col, cols df' !! k = Some col ∧ length col = len filtered_data) ∧
    (∀ k, k ∉ ["MACD"; "Signal Line"; "RSI"] →
       cols df' !! k = cols filtered_data !! k).
Proof.
  cbv zeta.
  split; [split; [apply wf_frame_of_close|split; [reflexivity|apply no_inf_Fin]]|].
  apply (X10_Dashboard_App_indicators (frame_of_close short_history)
           (Fin <$> short_history));
    [apply wf_frame_of_close|reflexivity|apply no_inf_Fin].
Defined.

Lemma X11_calculate_rsi_warm_up_witness :
  let df := frame_of_close short_history in
  let c := Fin <$> short_history in
  ((1 ≤ 14)%nat ∧ cols df !! "Price Close" = Some c ∧ no_inf c) ∧
  ∃ rsi,
    App.calculate_rsi df 14 = Ok (setitem df "RSI" rsi) ∧
    Dashboard_App.calculate_rsi df 14 = Ok (setitem df "RSI" rsi) ∧
    length rsi = length c ∧
    ∀ t, (S t < 14)%nat → (t < length c)%nat → rsi !! t = Some NaN.
Proof.
  cbv zeta. split; [split; [lia|split; [reflexivity|apply no_inf_Fin]]|].
  apply (X11_calculate_rsi_warm_up (frame_of_close short_history) 14
           (Fin <$> short_history)); [lia|reflexivity|apply no_inf_Fin].
Defined.

Lemma X12_filtered_data_rows_witness :
  let data := unsorted_frame in
  wf data ∧
  let filtered_data :=
    App_script.filtered_data data "NOKIA" 19723%Z 19724%Z in
  wf filtered_data ∧
  keys filtered_data = filter (selected "NOKIA" 19723%Z 19724%Z) (keys data) ∧
  ∀ k c, cols data !! k = Some c →
    ∃ c', cols filtered_data !! k = Some c' ∧
          zip (keys filtered_data) c'
          = filter (λ p, selected "NOKIA" 19723%Z 19724%Z p.1)
              (zip (keys data) c).
Proof.
  cbv zeta. split; [exact wf_unsorted_frame|].
  apply (X12_filtered_data_rows unsorted_frame "NOKIA" 19723%Z 19724%Z).
  exact wf_unsorted_frame.
Defined.

Lemma X13_script_empty_selection_witness :
  let data := unsorted_frame in
  wf data ∧
  (App_script.indicators data "NOKIA" 19724%Z 19723%Z = Ok None ↔
   filter (selected "NOKIA" 19724%Z 19723%Z) (keys data) = []) ∧
  ((19723 < 19724)%Z →
   App_script.indicators data "NOKIA" 19724%Z 19723%Z = Ok None).
Proof.
  cbv zeta. split; [exact wf_unsorted_frame|].
  apply (X13_script_empty_selection unsorted_frame "NOKIA" 19724%Z 19723%Z).
  exact wf_unsorted_frame.
Defined.

Lemma X14_selection_of_loaded_data_witness :
  let csv := unsorted_frame in
  wf csv ∧
  ∃ data,
    App.load_data csv = Ok data ∧
    let filtered_data :=
      App_script.filtered_data data "NOKIA" 19723%Z 19724%Z in
    Forall (eq "NOKIA") (Ticker filtered_data) ∧
    Forall (λ d, 19723 ≤ d ≤ 19724)%Z (Date filtered_data) ∧
    StronglySorted Z.le (Date filtered_data).
Proof.
  cbv zeta. split; [exact wf_unsorted_frame|].
  apply (X14_selection_of_loaded_data unsorted_frame "NOKIA" 19723%Z 19724%Z).
  exact wf_unsorted_frame.
Defined.

Lemma X15_load_data_idempotent_witness :
  let csv := unsorted_frame in
  wf csv ∧
  (Sorted key_order (keys csv) → App.load_data csv = Ok csv) ∧
  ∃ data, App.load_data csv = Ok data ∧ App.load_data data = Ok data.
Proof.
  cbv zeta. split; [exact wf_unsorted_frame|].
  apply (X15_load_data_idempotent unsorted_frame). exact wf_unsorted_frame.
Defined.

Lemma X16_get_MACD_missing_price_witness :
  let df := gap_frame in
  let c := [Fin (Qc_of_Z 10); NaN; Fin (Qc_of_Z 12)] in
  (cols df !! "Price Close" = Some c ∧ no_inf c ∧ c !! 1%nat = Some NaN) ∧
  ∃ df',
    Dashboard_Functions.get_MACD df "Price Close" = Ok df' ∧
    ∀ k, k ∈ ["EMA-12"; "EMA-26"; "MACD"] →
      ∃ col, cols df' !! k = Some col ∧ col !! 1%nat = col !! 0%nat.
Proof.
  cbv zeta.
  split; [split; [reflexivity|split; [exact no_inf_gap|reflexivity]]|].
  apply (X16_get_MACD_missing_price gap_frame
           [Fin (Qc_of_Z 10); NaN; Fin (Qc_of_Z 12)] 0);
    [reflexivity|exact no_inf_gap|reflexivity].
Defined.



Lemma X19_indicator_calls_commute_witness :
  let df := frame_of_close short_history in
  ((1 ≤ 14)%nat ∧ cols df !! "Price Close" = Some (Fin <$> short_history) ∧
   no_inf (Fin <$> short_history)) ∧
  (∃ df1 df2,
     (Dashboard_Functions.get_MACD df "Price Close" ≫=
        λ d, Dashboard_Functions.get_RSI d "Price Close" 14) = Ok df1 ∧
     (Dashboard_Functions.get_RSI df "Price Close" 14 ≫=
        λ d, Dashboard_Functions.get_MACD d "Price Close") = Ok df2 ∧
     Ticker df1 = Ticker df2 ∧ Date df1 = Date df2 ∧
     ∀ k, cols df1 !! k = cols df2 !! k) ∧
  (∃ df1 df2,
     (App.calculate_macd df ≫= λ d, App.calculate_rsi d 14) = Ok df1 ∧
     (App.calculate_rsi df 14 ≫= App.calculate_macd) = Ok df2 ∧
     Ticker df1 = Ticker df2 ∧ Date df1 = Date df2 ∧
     ∀ k, cols df1 !! k = cols df2 !! k).
Proof.
  cbv zeta. split; [split; [lia|split; [reflexivity|apply no_inf_Fin]]|].
  apply (X19_indicator_calls_commute (frame_of_close short_history)
           (Fin <$> short_history) 14); [lia|reflexivity|apply no_inf_Fin].
Defined.

Lemma X20_closed_dates_ascending_witness :
  let df := week_frame in
  (Date df !! 0%nat = Some 19726%Z ∧
   last (Date df) = Some 19730%Z ∧
   Forall in_Timestamp_range (Date df)) ∧
  ∃ days,
    Dashboard_Functions.get_closed_dates df = Ok (strftime <$> days) ∧
    StronglySorted Z.lt days ∧
    Forall (λ d, 19726 < d < 19730)%Z days.
Proof.
  cbv zeta.
  assert (Forall in_Timestamp_range (Date week_frame)) as Hrange.
  { repeat constructor; unfold Timestamp_min, Timestamp_max; lia. }
  split; [repeat split; try reflexivity; exact Hrange|].
  apply (X20_closed_dates_ascending week_frame 19726%Z 19730%Z);
    [reflexivity..|exact Hrange].
Defined.

Lemma X21_strategy_before_indicators_witness :
  let df := frame_of_close short_history in
  len df ≠ 0%nat ∧
  (cols df !! "MACD" = None →
   Dashboard_Functions.get_trading_strategy df "Price Close"
   = Raise (KeyError "MACD") ∧
   App.get_trading_strategy df "Price Close" = Raise (KeyError "MACD")) ∧
  (∀ macd, cols df !! "MACD" = Some macd → length macd = len df →
   cols df !! "Signal" = None →
   Dashboard_Functions.get_trading_strategy df "Price Close"
   = Raise (KeyError "Signal") ∧
   App.get_trading_strategy df "Price Close" = Raise (KeyError "Signal")).
Proof.
  cbv zeta.
  assert (len (frame_of_close short_history) ≠ 0%nat) as Hne
    by (vm_compute; discriminate).
  split; [exact Hne|].
  apply (X21_strategy_before_indicators (frame_of_close short_history)
           "Price Close"). exact Hne.
Defined.

Lemma no_blank_in_Bank : Ascii.Space ∉ String.list_ascii_of_string "Bank".
Proof. apply (proj1 (bool_decide_eq_false _)). by vm_compute. Defined.

Lemma no_blank_in_Matched : Ascii.Space ∉ String.list_ascii_of_string "Matched".
Proof. apply (proj1 (bool_decide_eq_false _)). by vm_compute. Defined.

Lemma X23_remove_l2_witness :
  let base := String.list_ascii_of_string "Bank" in
  let name := String.list_ascii_of_string "Matched" in
  App_main.last_only App_main.L2_suffix (base ++ App_main.L2_suffix) ∧
  App_main.remove_l2 (App_main.Str (base ++ App_main.L2_suffix))
  = App_main.Str base ∧
  (¬ App_main.L2_suffix `suffix_of` name →
   App_main.remove_l2 (App_main.Str name) = App_main.Str name) ∧
  App_main.remove_l2 (App_main.Other NaN) = App_main.Other NaN.
Proof.
  cbv zeta.
  assert (App_main.last_only App_main.L2_suffix
            (String.list_ascii_of_string "Bank" ++ App_main.L2_suffix)) as Hlast.
  { exact (last_only_intro Ascii.Space (String.list_ascii_of_string "L2")
             (String.list_ascii_of_string "Bank") no_blank_in_Bank). }
  split; [exact Hlast|].
  exact (X23_remove_l2 (String.list_ascii_of_string "Bank")
           (String.list_ascii_of_string "Matched") NaN Hlast).
Defined.

Lemma X24_parse_variable_witness :
  let investor := String.list_ascii_of_string "Bank" in
  let order_type := String.list_ascii_of_string "Matched" in
  (App_main.last_only App_main.separator (investor ++ App_main.separator) ∧
   ¬ App_main.occurs App_main.separator order_type) ∧
  App_main.parse_variable (investor ++ App_main.separator ++ order_type)
  = (investor, order_type) ∧
  (∀ var, ¬ App_main.occurs App_main.separator var →
     App_main.parse_variable var = (var, App_main.Unknown)) ∧
  (∀ middle,
     App_main.last_only App_main.separator (middle ++ App_main.separator) →
     App_main.parse_variable
       (investor ++ App_main.separator ++ middle ++ App_main.separator
        ++ order_type)
     = (investor ++ App_main.separator ++ middle ++ App_main.separator
        ++ order_type, App_main.Unknown)).
Proof.
  cbv zeta.
  assert (App_main.last_only App_main.separator
            (String.list_ascii_of_string "Bank" ++ App_main.separator)) as Hlast.
  { exact (last_only_intro Ascii.Space (String.list_ascii_of_string "- ")
             (String.list_ascii_of_string "Bank") no_blank_in_Bank). }
  assert (¬ App_main.occurs App_main.separator
              (String.list_ascii_of_string "Matched")) as Hno.
  { exact (not_occurs_intro Ascii.Space (String.list_ascii_of_string "- ")
             (String.list_ascii_of_string "Matched") no_blank_in_Matched). }
  split; [by split|].
  exact (X24_parse_variable (String.list_ascii_of_string "Bank")
           (String.list_ascii_of_string "Matched") Hlast Hno).
Defined.

Lemma wf_gap_frame : wf gap_frame.
Proof.
  split; [reflexivity|]. intros k c Hc.
  unfold gap_frame in Hc. cbn [cols] in Hc.
  apply lookup_singleton_Some in Hc as [_ <-]. reflexivity.
Qed.

Lemma C3_markers_alternate_witness :
  let df := hidden_sell_frame in
  let macd := [Fin 0; Fin 1; Fin (-1); Fin 1; Fin (-1)] in
  let signalLine := [Fin 0; Fin 0; Fin 0; Fin 0; Fin 0] in
  let close := [Fin (Qc_of_Z 10); Fin (Qc_of_Z 11); NaN;
                Fin (Qc_of_Z 13); Fin (Qc_of_Z 14)] in
  let data := gap_frame in
  let price := [Fin (Qc_of_Z 10); NaN; Fin (Qc_of_Z 12)] in
  (cols df !! "MACD" = Some macd ∧
   cols df !! "Signal" = Some signalLine ∧
   cols df !! "Price Close" = Some close ∧
   length macd = len df ∧ length signalLine = len df ∧ length close = len df ∧
   wf data ∧ cols data !! "Price Close" = Some price ∧ no_inf price) ∧
  let events := detector_run Flat (zip macd signalLine) in
  (∃ df' buy sell markers,
     Dashboard_Functions.get_trading_strategy df "Price Close" = Ok df' ∧
     cols df' !! "Buy" = Some buy ∧ cols df' !! "Sell" = Some sell ∧
     signal_markers df' = Ok markers ∧
     alternates Buy (omap id events) ∧
     m_kind <$> markers `sublist_of` omap id events ∧
     ((∀ t k p, events !! t = Some (Some k) → close !! t = Some p →
         is_obs p = true) →
      m_kind <$> markers = omap id events) ∧
     (∀ t b s, buy !! t = Some b → sell !! t = Some s →
        is_obs b = false ∨ is_obs s = false) ∧
     m_date <$> markers `sublist_of` Date df ∧
     (NoDup (Date df) → NoDup (m_date <$> markers))) ∧
  (∃ markers,
     process_markers data = Ok markers ∧
     alternates Buy (m_kind <$> markers) ∧
     (∀ i k1 k2, (m_kind <$> markers) !! i = Some k1 →
        (m_kind <$> markers) !! S i = Some k2 → k1 ≠ k2) ∧
     m_date <$> markers `sublist_of` Date data ∧
     (NoDup (Date data) → NoDup (m_date <$> markers))).
Proof.
  cbv zeta.
  split.
  { do 6 (split; [reflexivity|]).
    split; [exact wf_gap_frame|]. split; [reflexivity|exact no_inf_gap]. }
  apply (C3_markers_alternate hidden_sell_frame "Price Close"
           [Fin 0; Fin 1; Fin (-1); Fin 1; Fin (-1)]
           [Fin 0; Fin 0; Fin 0; Fin 0; Fin 0]
           [Fin (Qc_of_Z 10); Fin (Qc_of_Z 11); NaN;
            Fin (Qc_of_Z 13); Fin (Qc_of_Z 14)]
           gap_frame [Fin (Qc_of_Z 10); NaN; Fin (Qc_of_Z 12)]);
    try reflexivity; [exact wf_gap_frame|exact no_inf_gap].
Defined.
